(** * The nestri relay: a shallow embedding of the stream protocols, the
      candidate helper, the data-channel router and the per-room fan-out,
      with the properties the specification states about them.

    Source files embedded here (package [relay/internal/...]):
    - [common/safebufio.go]  : varint framing, [SendProto], [ReceiveProto],
                               [CreateMessage];
    - [common/ice_helper.go] : [ICEHelper];
    - [connections/datachannel.go] : [NestriDataChannel];
    - [shared/room.go], [shared/participant.go] : [Room], [Participant],
                               the packet pool and [BroadcastPacket];
    - [core/protocol_stream.go] : [handleStreamPush], [handleStreamRequest].

    Conventions.  A Go pointer to a mutable object is a key into a finite
    map that holds the object (a store); a Go [nil] pointer is [None].  A
    method with receiver type [T] lives in [Module T].  Unsigned machine
    integers are [Z] with the wrap-around written out.  Calls into pion,
    libp2p and protobuf are effects on the modelled store whose fallible
    results are read from an explicit environment record.  Logging through
    [slog] changes nothing the program can observe and is left out. *)

From Stdlib Require Import ZArith Lia List String.
From stdpp Require Import base option list gmap strings.
From Equations Require Import Equations.
Import ListNotations.

Open Scope string_scope.
Open Scope Z_scope.

(* ===================================================================== *)
(** * Part I: the model                                                  *)
(* ===================================================================== *)

(** ** Bytes and machine integers *)

(** A byte is a [Z] in [0, 256). *)
Definition byte := Z.

Definition uint64 (x : Z) : Z := x mod 2 ^ 64.
Definition uint16 (x : Z) : Z := x mod 2 ^ 16.
Definition to_byte (x : Z) : byte := Z.land x 255.

(** ** encoding/binary: unsigned varints

    [safebufio.go] delegates to Go's [binary.PutUvarint] and
    [binary.ReadUvarint]; both are transcribed from the Go standard library. *)

Definition MaxVarintLen64 : nat := 10.

(** [for x >= 0x80 { buf[i] = byte(x) | 0x80; x >>= 7; i++ }; buf[i] = byte(x)] *)
Equations? PutUvarint (x : Z) : list byte by wf (Z.to_nat x) lt :=
  PutUvarint x with Z_lt_dec x 128 := {
    | left _ => [to_byte x];
    | right _ => Z.lor (to_byte x) 128 :: PutUvarint (Z.shiftr x 7) }.
Proof.
  rewrite Z.shiftr_div_pow2 by lia.
  assert (x / 2 ^ 7 < x) by (apply Z.div_lt; lia).
  assert (0 <= x / 2 ^ 7) by (apply Z.div_pos; lia).
  lia.
Qed.

(** The errors a read can end with. *)
Inductive io_error : Type :=
| EOF                (* io.EOF *)
| ErrUnexpectedEOF   (* io.ErrUnexpectedEOF *)
| ErrOverflow        (* binary: varint overflows a 64-bit integer *)
| ErrReset           (* network.ErrReset *)
| ErrUnmarshal       (* proto.Unmarshal failed *)
| ErrMarshal         (* proto.Marshal failed *)
| ErrWrite.          (* the underlying writer failed *)

(** [binary.ReadUvarint]: the loop [for i := 0; i < MaxVarintLen64; i++],
    entered at iteration [i] with accumulator [x] and shift [s]. *)
Fixpoint ReadUvarint_from (i : nat) (x s : Z) (r : list byte)
  : io_error + (Z * list byte) :=
  if (MaxVarintLen64 <=? i)%nat then inl ErrOverflow
  else match r with
       | [] => inl (if (0 <? i)%nat then ErrUnexpectedEOF else EOF)
       | b :: r' =>
           if b <? 128 then
             if ((i =? MaxVarintLen64 - 1)%nat && (1 <? b))%bool
             then inl ErrOverflow
             else inr (Z.lor x (uint64 (Z.shiftl b s)), r')
           else
             ReadUvarint_from (S i)
               (Z.lor x (uint64 (Z.shiftl (Z.land b 127) s))) (s + 7) r'
       end.

Definition ReadUvarint (r : list byte) : io_error + (Z * list byte) :=
  ReadUvarint_from 0 0 0 r.

(** ** common/safebufio.go *)

(** The two halves of a [bufio.ReadWriter] over a mesh stream: the bytes
    still to be read (all the input up to the close of the stream), the
    bytes written and flushed so far, and whether the underlying writer
    has failed. *)
Record ReadWriter : Type := mkReadWriter {
  rd : list byte;
  wr : list byte;
  wr_failed : bool;
}.

Definition rw_write (bs : list byte) (brw : ReadWriter) : option io_error * ReadWriter :=
  if wr_failed brw then (Some ErrWrite, brw)
  else (None, mkReadWriter (rd brw) (wr brw ++ bs) false).

(** [readUvarint] and [writeUvarint] *)
Definition readUvarint (r : list byte) : io_error + (Z * list byte) := ReadUvarint r.

Definition writeUvarint (brw : ReadWriter) (x : Z) : option io_error * ReadWriter :=
  rw_write (PutUvarint x) brw.

(** [io.ReadFull(r, data)] with [len(data) = n]. *)
Definition ReadFull (n : nat) (r : list byte) : io_error + (list byte * list byte) :=
  if (n <=? length r)%nat then inr (take n r, drop n r)
  else inl (match r with [] => EOF | _ => ErrUnexpectedEOF end).

(** [proto.Message]: what [SendProto] and [ReceiveProto] need of a message
    type is protobuf's [Marshal] and [Unmarshal]. *)
Class ProtoCodec (M : Type) : Type := {
  Marshal : M -> io_error + list byte;
  Unmarshal : list byte -> io_error + M;
}.

(** What a call of [ReceiveProto] comes to: a message, an error, or a
    run-time panic. *)
Inductive received (M : Type) : Type :=
| Received (msg : M)
| ReceiveError (err : io_error)
| ReceivePanic.
Arguments Received {M} msg.
Arguments ReceiveError {M} err.
Arguments ReceivePanic {M}.

(** The largest [int] of a 64-bit platform. *)
Definition MaxInt : Z := 2 ^ 63 - 1.

(** The contract of the protobuf library: unmarshalling the marshalled
    bytes gives the message back. *)
Class ProtoCodecLaws (M : Type) `{ProtoCodec M} : Prop := {
  Unmarshal_Marshal : forall (m : M) (bs : list byte),
      Marshal m = inr bs -> Unmarshal bs = inr m;
}.

Module SafeBufioRW.

Definition t := ReadWriter.

Definition NewSafeBufioRW (brw : ReadWriter) : t := brw.

Definition SendProto {M} `{ProtoCodec M} (bu : t) (msg : M) : option io_error * t :=
  match Marshal msg with
  | inl err => (Some err, bu)
  | inr protoData =>
      match writeUvarint bu (uint64 (Z.of_nat (length protoData))) with
      | (Some err, bu1) => (Some err, bu1)
      | (None, bu1) =>
          match rw_write protoData bu1 with
          | (Some err, bu2) => (Some err, bu2)
          | (None, bu2) => (None, bu2)      (* Flush *)
          end
      end
  end.

(** [make([]byte, length)] panics when [length], a [uint64], is beyond
    the range of [int].  (Lengths in range that the allocator cannot grant
    are not told apart from lengths the stream cannot fill.) *)
Definition ReceiveProto {M} `{ProtoCodec M} (bu : t) : received M * t :=
  match readUvarint (rd bu) with
  | inl err => (ReceiveError err, bu)
  | inr (len, r1) =>
      if MaxInt <? len then (ReceivePanic, mkReadWriter r1 (wr bu) (wr_failed bu))
      else
        match ReadFull (Z.to_nat len) r1 with
        | inl err => (ReceiveError err, mkReadWriter [] (wr bu) (wr_failed bu))
        | inr (data, r2) =>
            (match Unmarshal data with
             | inr msg => Received msg
             | inl err => ReceiveError err
             end,
             mkReadWriter r2 (wr bu) (wr_failed bu))
        end
  end.

End SafeBufioRW.

(** ** The protocol frame ([relay/internal/proto], generated code)

    The generated message types are not part of the sources at hand; the
    records below have the fields the handlers read and write, with the
    optionality the handlers' own nil checks and address-of expressions
    show: a message-typed field is a pointer ([option]), an [optional]
    scalar is a pointer too. *)

Record ProtoTimestampEntry : Type := mkProtoTimestampEntry {
  Stage : string;
  Time : Z;
}.

Record ProtoLatencyTracker : Type := mkProtoLatencyTracker {
  SequenceId : string;
  Timestamps : list ProtoTimestampEntry;
}.

Record ProtoMessageBase : Type := mkProtoMessageBase {
  PayloadType : string;
  Latency : option ProtoLatencyTracker;
}.

Record RTCIceCandidateInit : Type := mkRTCIceCandidateInit {
  Candidate : string;
  SdpMLineIndex : option Z;        (* *uint32 *)
  SdpMid : option string;          (* *string *)
  UsernameFragment : option string;
}.

Record RTCSessionDescriptionInit : Type := mkRTCSessionDescriptionInit {
  Sdp : string;
  Type_ : string;
}.

Record ProtoICE : Type := mkProtoICE {
  ice_Candidate : option RTCIceCandidateInit;
}.

Record ProtoSDP : Type := mkProtoSDP {
  sdp_Sdp : option RTCSessionDescriptionInit;
}.

Record ProtoClientRequestRoomStream : Type := mkProtoClientRequestRoomStream {
  req_RoomName : string;
  req_SessionId : string;
}.

Record ProtoServerPushStream : Type := mkProtoServerPushStream {
  push_RoomName : string;
}.

Record ProtoRaw : Type := mkProtoRaw {
  raw_Data : string;
}.

(** The [payload] oneof. *)
Inductive ProtoMessage_Payload : Type :=
| Payload_Sdp (m : ProtoSDP)
| Payload_Ice (m : ProtoICE)
| Payload_ClientRequestRoomStream (m : ProtoClientRequestRoomStream)
| Payload_ServerPushStream (m : ProtoServerPushStream)
| Payload_Raw (m : ProtoRaw).

Record ProtoMessage : Type := mkProtoMessage {
  MessageBase : option ProtoMessageBase;
  payload : option ProtoMessage_Payload;
}.

(** The generated getters: the variant if the oneof holds it, else nil. *)
Definition GetSdp (m : ProtoMessage) : option ProtoSDP :=
  match payload m with Some (Payload_Sdp x) => Some x | _ => None end.

Definition GetIce (m : ProtoMessage) : option ProtoICE :=
  match payload m with Some (Payload_Ice x) => Some x | _ => None end.

Definition GetClientRequestRoomStream (m : ProtoMessage)
  : option ProtoClientRequestRoomStream :=
  match payload m with Some (Payload_ClientRequestRoomStream x) => Some x | _ => None end.

Definition GetServerPushStream (m : ProtoMessage) : option ProtoServerPushStream :=
  match payload m with Some (Payload_ServerPushStream x) => Some x | _ => None end.

Definition GetRaw (m : ProtoMessage) : option ProtoRaw :=
  match payload m with Some (Payload_Raw x) => Some x | _ => None end.

(** [CreateMessage] in [safebufio.go].  [now] is the reading of
    [timestamppb.Now()].  The reflective search through the oneof's fields
    finds the field of every [ProtoMessage_Payload] variant, so the two error returns
    are not reached for these payloads. *)
Record CreateMessageOptions : Type := mkCreateMessageOptions {
  SequenceID : string;
  opt_Latency : option ProtoLatencyTracker;
}.

Definition CreateMessage (now : Z) (pl : ProtoMessage_Payload) (payloadType : string)
    (opts : option CreateMessageOptions) : io_error + ProtoMessage :=
  let latency :=
    match opts with
    | None => None
    | Some o =>
        match opt_Latency o with
        | Some l => Some l
        | None =>
            if bool_decide (SequenceID o <> "")
            then Some (mkProtoLatencyTracker (SequenceID o)
                         [mkProtoTimestampEntry "created" now])
            else None
        end
    end in
  inr (mkProtoMessage (Some (mkProtoMessageBase payloadType latency)) (Some pl)).

(** ** pion/webrtc: the objects the relay holds pointers to *)

Definition pc_ref := nat.     (* *webrtc.PeerConnection *)
Definition dc_ref := nat.     (* *webrtc.DataChannel *)
Definition chan_ref := nat.   (* chan *participantPacket *)
Definition peer_ID := string. (* libp2p peer.ID, a Go string *)
(** A [ulid.ULID] is represented by its canonical text, so [String()] is
    the identity. *)
Definition ULID := string.

Inductive SDPType : Type :=
| SDPTypeUnknown | SDPTypeOffer | SDPTypePranswer | SDPTypeAnswer | SDPTypeRollback.

Definition NewSDPType (raw : string) : SDPType :=
  if bool_decide (raw = "offer") then SDPTypeOffer
  else if bool_decide (raw = "pranswer") then SDPTypePranswer
  else if bool_decide (raw = "answer") then SDPTypeAnswer
  else if bool_decide (raw = "rollback") then SDPTypeRollback
  else SDPTypeUnknown.

Definition SDPType_String (t : SDPType) : string :=
  match t with
  | SDPTypeOffer => "offer" | SDPTypePranswer => "pranswer"
  | SDPTypeAnswer => "answer" | SDPTypeRollback => "rollback"
  | SDPTypeUnknown => "Unknown"
  end.

Record SessionDescription : Type := mkSessionDescription {
  sd_Type : SDPType;
  SDP : string;
}.

Record ICECandidateInit : Type := mkICECandidateInit {
  ci_Candidate : string;
  SDPMid : option string;
  SDPMLineIndex : option Z;          (* *uint16 *)
  ci_UsernameFragment : option string;
}.

Inductive RTPCodecType : Type :=
| RTPCodecTypeUnknown | RTPCodecTypeAudio | RTPCodecTypeVideo.

Record RTPCodecCapability : Type := mkRTPCodecCapability {
  MimeType : string;
  ClockRate : Z;
  Channels : Z;
  SDPFmtpLine : string;
}.

(** What the relay can observe of a peer connection: the descriptions
    installed on it and whether it was closed. *)
Record PeerConnectionState : Type := mkPeerConnectionState {
  RemoteDescription : option SessionDescription;
  LocalDescription : option SessionDescription;
  pc_closed : bool;
}.

Record DataChannelState : Type := mkDataChannelState {
  dc_closed : bool;
  dc_sent : list (list byte);
}.

(** The media engine's side of the world: the peer connections and data
    channels allocated so far, and the log of every [AddICECandidate] call
    (connection and candidate), oldest first. *)
Record Pion : Type := mkPion {
  pcs : gmap pc_ref PeerConnectionState;
  ice_calls : list (pc_ref * ICECandidateInit);
  dcs : gmap dc_ref DataChannelState;
}.

Module PeerConnection.

(** [pc.RemoteDescription()] *)
Definition GetRemoteDescription (p : Pion) (pc : pc_ref) : option SessionDescription :=
  match pcs p !! pc with
  | Some st => RemoteDescription st
  | None => None
  end.

(** [pc.AddICECandidate(c)].  The helper only logs the error this may
    return, so the call is recorded and its result dropped. *)
Definition AddICECandidate (p : Pion) (pc : pc_ref) (c : ICECandidateInit) : Pion :=
  mkPion (pcs p) (ice_calls p ++ [(pc, c)]) (dcs p).

(** A successful [pc.SetRemoteDescription(sd)]. *)
Definition SetRemoteDescription (p : Pion) (pc : pc_ref) (sd : SessionDescription) : Pion :=
  mkPion
    (alter (fun st => mkPeerConnectionState (Some sd) (LocalDescription st) (pc_closed st))
       pc (pcs p))
    (ice_calls p) (dcs p).

(** A successful [pc.SetLocalDescription(sd)]. *)
Definition SetLocalDescription (p : Pion) (pc : pc_ref) (sd : SessionDescription) : Pion :=
  mkPion
    (alter (fun st => mkPeerConnectionState (RemoteDescription st) (Some sd) (pc_closed st))
       pc (pcs p))
    (ice_calls p) (dcs p).

(** [pc.Close()] *)
Definition Close (p : Pion) (pc : pc_ref) : Pion :=
  mkPion
    (alter (fun st => mkPeerConnectionState (RemoteDescription st) (LocalDescription st) true)
       pc (pcs p))
    (ice_calls p) (dcs p).

(** [webrtc.API.NewPeerConnection]: a connection nobody else points to,
    with no description installed. *)
Definition New (p : Pion) : pc_ref * Pion :=
  let pc := fresh (dom (pcs p)) in
  (pc, mkPion (<[pc := mkPeerConnectionState None None false]> (pcs p))
         (ice_calls p) (dcs p)).

End PeerConnection.

Module DataChannel.

Definition Close (p : Pion) (dc : dc_ref) : Pion :=
  mkPion (pcs p) (ice_calls p)
    (alter (fun st => mkDataChannelState true (dc_sent st)) dc (dcs p)).

(** [pc.CreateDataChannel]: a fresh open channel. *)
Definition New (p : Pion) : dc_ref * Pion :=
  let dc := fresh (dom (dcs p)) in
  (dc, mkPion (pcs p) (ice_calls p) (<[dc := mkDataChannelState false []]> (dcs p))).

(** [dc.Send(data)]: the bytes go out on an open channel; on any other
    the call returns [io.ErrClosedPipe] ([true]) and nothing is sent. *)
Definition Send (p : Pion) (dc : dc_ref) (data : list byte) : bool * Pion :=
  match dcs p !! dc with
  | Some st =>
      if dc_closed st then (true, p)
      else (false,
            mkPion (pcs p) (ice_calls p)
              (<[dc := mkDataChannelState false (dc_sent st ++ [data])]> (dcs p)))
  | None => (true, p)
  end.

End DataChannel.

(** ** common/ice_helper.go *)

Module ICEHelper.

Record t : Type := mk {
  candidates : list ICECandidateInit;
  pc : option pc_ref;
}.

Definition NewICEHelper (pc : option pc_ref) : t :=
  {| pc := pc; candidates := [] |}.

Definition SetPeerConnection (ice : t) (pc : option pc_ref) : t :=
  {| pc := pc; candidates := candidates ice |}.

Definition FlushHeldCandidates (ice : t) (p : Pion) : t * Pion :=
  match pc ice with
  | Some c =>
      if (0 <? length (candidates ice))%nat then
        (* for _, heldCandidate := range ice.candidates *)
        let p' := fold_left (fun acc held => PeerConnection.AddICECandidate acc c held)
                    (candidates ice) p in
        ({| pc := pc ice; candidates := [] |}, p')
      else (ice, p)
  | None => (ice, p)
  end.

Definition AddCandidate (ice : t) (p : Pion) (c : ICECandidateInit) : t * Pion :=
  match pc ice with
  | Some conn =>
      match PeerConnection.GetRemoteDescription p conn with
      | Some _ =>
          (* Add immediately if remote is set, then flush held candidates *)
          FlushHeldCandidates ice (PeerConnection.AddICECandidate p conn c)
      | None =>
          (* Hold in slice until remote is set *)
          ({| pc := pc ice; candidates := candidates ice ++ [c] |}, p)
      end
  | None => (ice, p)
  end.

End ICEHelper.

(** ** connections/datachannel.go *)

(** The closures the stream handlers register as message callbacks,
    named by what they close over. *)
Inductive OnMessageCallback : Type :=
| ForwardInputUpstream (room : ULID)            (* request handler, "input" *)
| ForwardControllerInputUpstream (room : ULID)  (* request handler, "controllerInput" *)
| ForwardControllerInputToViewers (room : ULID) (* push handler, "controllerInput" *)
| OtherCallback (id : nat).

Record DataChannelMessage : Type := mkDataChannelMessage {
  IsString : bool;
  Data : list byte;
}.

Module NestriDataChannel.

Record t : Type := mk {
  DataChannel : dc_ref;
  callbacks : gmap string OnMessageCallback;
}.

(** The handler [NewNestriDataChannel] installs with [OnMessage], run on
    one incoming message: the channel afterwards and the goroutines
    started ([go callback(msg.Data)]). *)
Definition OnMessage `{ProtoCodec ProtoMessage} (ndc : t) (msg : DataChannelMessage)
  : t * list (OnMessageCallback * list byte) :=
  if IsString msg then (ndc, [])
  else
    match Unmarshal (Data msg) with
    | inl _ => (ndc, [])
    | inr base =>
        match MessageBase base with
        | Some mb =>
            if (0 <? String.length (PayloadType mb))%nat then
              match callbacks ndc !! PayloadType mb with
              | Some callback => (ndc, [(callback, Data msg)])
              | None => (ndc, [])
              end
            else (ndc, [])
        | None => (ndc, [])
        end
    end.

Definition NewNestriDataChannel (dc : dc_ref) : t :=
  {| DataChannel := dc; callbacks := ∅ |}.

Definition RegisterMessageCallback (ndc : t) (msgType : string)
    (callback : OnMessageCallback) : t :=
  {| DataChannel := DataChannel ndc; callbacks := <[msgType := callback]> (callbacks ndc) |}.

Definition UnregisterMessageCallback (ndc : t) (msgType : string) : t :=
  {| DataChannel := DataChannel ndc; callbacks := delete msgType (callbacks ndc) |}.

(** [Close], promoted from the embedded [*webrtc.DataChannel]. *)
Definition Close (ndc : t) (p : Pion) : Pion := DataChannel.Close p (DataChannel ndc).

(** [SendBinary] sends a binary message to the data channel. *)
Definition SendBinary (ndc : t) (data : list byte) (p : Pion) : bool * Pion :=
  DataChannel.Send p (DataChannel ndc) data.

End NestriDataChannel.

(** ** shared: the packet pool and the participant queues *)

Record rtp_Packet : Type := mkrtp_Packet {
  SequenceNumber : Z;
  Timestamp : Z;
  Payload : list byte;
}.

Record participantPacket : Type := mkparticipantPacket {
  kind : RTPCodecType;
  packet : option rtp_Packet;     (* *rtp.Packet *)
}.

(** A buffered Go channel of [*participantPacket]: the queued values
    (oldest first), the capacity it was made with, and whether [close] was
    called on it. *)
Record Chan : Type := mkChan {
  buf : list participantPacket;
  cap : nat;
  closed : bool;
}.

(** The process-wide state of the fan-out: the channels that exist and
    the free list of [participantPacketPool].  A [chan_ref] the store does
    not hold stands for the nil channel. *)
Record Fanout : Type := mkFanout {
  chans : gmap chan_ref Chan;
  participantPacketPool : list participantPacket;
}.

(** [participantPacketPool.Get()]: a recycled wrapper if there is one,
    else [New()], the zero [participantPacket]. *)
Definition Pool_Get (f : Fanout) : participantPacket * Fanout :=
  match participantPacketPool f with
  | pp :: rest => (pp, mkFanout (chans f) rest)
  | [] => (mkparticipantPacket RTPCodecTypeUnknown None, f)
  end.

Definition Pool_Put (f : Fanout) (pp : participantPacket) : Fanout :=
  mkFanout (chans f) (pp :: participantPacketPool f).

(** [select { case ch <- v: ... default: ... }].  A send on a closed
    channel panics; on the nil channel and on a full one the send is not
    ready and the default case runs. *)
Inductive send_result : Type :=
| SendOK (f : Fanout)
| SendNotReady
| SendPanic.

Definition try_send (f : Fanout) (ch : chan_ref) (v : participantPacket) : send_result :=
  match chans f !! ch with
  | None => SendNotReady
  | Some c =>
      if closed c then SendPanic
      else if (length (buf c) <? cap c)%nat
           then SendOK (mkFanout (<[ch := mkChan (buf c ++ [v]) (cap c) false]> (chans f))
                          (participantPacketPool f))
           else SendNotReady
  end.

(** [make(chan *participantPacket, n)] *)
Definition make_chan (f : Fanout) (n : nat) : chan_ref * Fanout :=
  let ch := fresh (dom (chans f)) in
  (ch, mkFanout (<[ch := mkChan [] n false]> (chans f)) (participantPacketPool f)).

(** [close(ch)] on a channel that is neither nil nor closed. *)
Definition close_chan (f : Fanout) (ch : chan_ref) : Fanout :=
  mkFanout (alter (fun c => mkChan (buf c) (cap c) true) ch (chans f))
    (participantPacketPool f).

(** What one call of [BroadcastPacket] did, in program order. *)
Inductive fan_event : Type :=
| PoolGet                                              (* participantPacketPool.Get() *)
| TrySend (ch : chan_ref) (pp : participantPacket) (sent : bool)
| PoolPut (pp : participantPacket).                    (* participantPacketPool.Put(pp) *)

Inductive outcome (A : Type) : Type :=
| Done (a : A)
| Panicked.
Arguments Done {A} a.
Arguments Panicked {A}.

(** ** shared/participant.go *)

Record TrackLocalStaticRTP : Type := mkTrackLocalStaticRTP {
  track_codec : RTPCodecCapability;
  track_id : string;
  track_streamID : string;
}.

Module Participant.

Record t : Type := mk {
  ID : ULID;
  SessionID : string;
  PeerID : peer_ID;
  PeerConnection : option pc_ref;
  DataChannel : option NestriDataChannel.t;
  VideoTrack : option TrackLocalStaticRTP;
  AudioTrack : option TrackLocalStaticRTP;
  VideoSequenceNumber : Z;
  VideoTimestamp : Z;
  AudioSequenceNumber : Z;
  AudioTimestamp : Z;
  packetQueue : chan_ref;
  closeOnce : bool;                 (* whether closeOnce.Do has run *)
}.

(** The queue depth [NewParticipant] asks for. *)
Definition packetQueueDepth : nat := 1000.

(** [NewParticipant], given the result of [common.NewULID()]. *)
Definition NewParticipant (newULID : option ULID) (sessionID : string) (peerID : peer_ID)
    (f : Fanout) : option t * Fanout :=
  match newULID with
  | None => (None, f)
  | Some id =>
      let '(q, f') := make_chan f packetQueueDepth in
      (Some {| ID := id; SessionID := sessionID; PeerID := peerID;
               PeerConnection := None; DataChannel := None;
               VideoTrack := None; AudioTrack := None;
               VideoSequenceNumber := 0; VideoTimestamp := 0;
               AudioSequenceNumber := 0; AudioTimestamp := 0;
               packetQueue := q; closeOnce := false |}, f')
  end.

Definition set_PeerConnection (p : t) (pc : option pc_ref) : t :=
  {| ID := ID p; SessionID := SessionID p; PeerID := PeerID p;
     PeerConnection := pc; DataChannel := DataChannel p;
     VideoTrack := VideoTrack p; AudioTrack := AudioTrack p;
     VideoSequenceNumber := VideoSequenceNumber p; VideoTimestamp := VideoTimestamp p;
     AudioSequenceNumber := AudioSequenceNumber p; AudioTimestamp := AudioTimestamp p;
     packetQueue := packetQueue p; closeOnce := closeOnce p |}.

(** [SetTrack]; the [AddTrack] error is only logged. *)
Definition SetTrack (p : t) (trackType : RTPCodecType) (track : TrackLocalStaticRTP) : t :=
  match trackType with
  | RTPCodecTypeAudio =>
      {| ID := ID p; SessionID := SessionID p; PeerID := PeerID p;
         PeerConnection := PeerConnection p; DataChannel := DataChannel p;
         VideoTrack := VideoTrack p; AudioTrack := Some track;
         VideoSequenceNumber := VideoSequenceNumber p; VideoTimestamp := VideoTimestamp p;
         AudioSequenceNumber := AudioSequenceNumber p; AudioTimestamp := AudioTimestamp p;
         packetQueue := packetQueue p; closeOnce := closeOnce p |}
  | RTPCodecTypeVideo =>
      {| ID := ID p; SessionID := SessionID p; PeerID := PeerID p;
         PeerConnection := PeerConnection p; DataChannel := DataChannel p;
         VideoTrack := Some track; AudioTrack := AudioTrack p;
         VideoSequenceNumber := VideoSequenceNumber p; VideoTimestamp := VideoTimestamp p;
         AudioSequenceNumber := AudioSequenceNumber p; AudioTimestamp := AudioTimestamp p;
         packetQueue := packetQueue p; closeOnce := closeOnce p |}
  | RTPCodecTypeUnknown => p
  end.

(** [Close] *)
Definition Close (p : t) (f : Fanout) (pi : Pion) : t * Fanout * Pion :=
  let f1 := if closeOnce p then f else close_chan f (packetQueue p) in
  let pi1 := match DataChannel p with
             | Some ndc => NestriDataChannel.Close ndc pi
             | None => pi
             end in
  let pi2 := match PeerConnection p with
             | Some pc => PeerConnection.Close pi1 pc
             | None => pi1
             end in
  ({| ID := ID p; SessionID := SessionID p; PeerID := PeerID p;
      PeerConnection := None; DataChannel := None;
      VideoTrack := None; AudioTrack := None;
      VideoSequenceNumber := VideoSequenceNumber p; VideoTimestamp := VideoTimestamp p;
      AudioSequenceNumber := AudioSequenceNumber p; AudioTimestamp := AudioTimestamp p;
      packetQueue := packetQueue p; closeOnce := true |}, f1, pi2).

(** One turn of the [packetWriter] loop [for pkt := range p.packetQueue]. *)
Inductive writer_turn : Type :=
| Wrote (to : option TrackLocalStaticRTP) (pkt : participantPacket) (f : Fanout)
| Waiting        (* queue empty and open: the receive blocks *)
| Stopped.       (* queue empty and closed: the loop ends *)

Definition packetWriter_turn (p : t) (f : Fanout) : writer_turn :=
  match chans f !! packetQueue p with
  | None => Waiting
  | Some c =>
      match buf c with
      | pkt :: rest =>
          let track := match kind pkt with
                       | RTPCodecTypeAudio => AudioTrack p
                       | _ => VideoTrack p
                       end in
          let f1 := mkFanout (<[packetQueue p := mkChan rest (cap c) (closed c)]> (chans f))
                      (participantPacketPool f) in
          Wrote track pkt (Pool_Put f1 pkt)
      | [] => if closed c then Stopped else Waiting
      end
  end.

End Participant.

(** ** shared/room.go (the variant with the atomic channel slice)

    [room.go] also carries an older [Room], with two tracks and a
    [SafeMap] of participants; the handlers and [Participant] use the one
    below.  Its [Last...] and [...Set] retiming fields are never read or
    written and are left out.  The map holds each participant by value:
    what [RemoveParticipantByID] reads of it, [packetQueue], is fixed when
    the participant is made.  A call is modelled as one atomic step on
    the state it loads. *)

Module Room.

Record t : Type := mk {
  ID : ULID;
  Name : string;
  OwnerID : peer_ID;
  AudioCodec : RTPCodecCapability;
  VideoCodec : RTPCodecCapability;
  PeerConnection : option pc_ref;
  DataChannel : option NestriDataChannel.t;
  participantChannels : list chan_ref;
  Participants : gmap ULID Participant.t;
}.

Definition zero_codec : RTPCodecCapability := mkRTPCodecCapability "" 0 0 "".

Definition NewRoom (name : string) (roomID : ULID) (ownerID : peer_ID) : t :=
  {| ID := roomID; Name := name; OwnerID := ownerID;
     AudioCodec := zero_codec; VideoCodec := zero_codec;
     PeerConnection := None; DataChannel := None;
     participantChannels := []; Participants := ∅ |}.

Definition set_PeerConnection (r : t) (pc : option pc_ref) : t :=
  {| ID := ID r; Name := Name r; OwnerID := OwnerID r;
     AudioCodec := AudioCodec r; VideoCodec := VideoCodec r;
     PeerConnection := pc; DataChannel := DataChannel r;
     participantChannels := participantChannels r; Participants := Participants r |}.

Definition set_DataChannel (r : t) (dc : option NestriDataChannel.t) : t :=
  {| ID := ID r; Name := Name r; OwnerID := OwnerID r;
     AudioCodec := AudioCodec r; VideoCodec := VideoCodec r;
     PeerConnection := PeerConnection r; DataChannel := dc;
     participantChannels := participantChannels r; Participants := Participants r |}.

Definition set_participants (r : t) (chs : list chan_ref)
    (ps : gmap ULID Participant.t) : t :=
  {| ID := ID r; Name := Name r; OwnerID := OwnerID r;
     AudioCodec := AudioCodec r; VideoCodec := VideoCodec r;
     PeerConnection := PeerConnection r; DataChannel := DataChannel r;
     participantChannels := chs; Participants := ps |}.

(** [Close] closes up the room (stream ended). *)
Definition Close (r : t) (pi : Pion) : t * Pion :=
  let '(r1, pi1) :=
    match DataChannel r with
    | Some ndc => (set_DataChannel r None, NestriDataChannel.Close ndc pi)
    | None => (r, pi)
    end in
  match PeerConnection r1 with
  | Some pc => (set_PeerConnection r1 None, PeerConnection.Close pi1 pc)
  | None => (r1, pi1)
  end.

(** [AddParticipant]: the map entry, then copy-plus-one of the slice. *)
Definition AddParticipant (r : t) (participant : Participant.t) : t :=
  set_participants r
    (participantChannels r ++ [Participant.packetQueue participant])
    (<[Participant.ID participant := participant]> (Participants r)).

(** [RemoveParticipantByID]: nothing if the id is unknown; else the map
    entry goes and the slice keeps every channel that is not the
    participant's queue. *)
Definition RemoveParticipantByID (r : t) (pID : ULID) : t :=
  match Participants r !! pID with
  | None => r
  | Some participant =>
      set_participants r
        (List.filter
           (fun ch => negb (Nat.eqb ch (Participant.packetQueue participant)))
           (participantChannels r))
        (delete pID (Participants r))
  end.

Definition IsOnline (r : t) : bool :=
  match PeerConnection r with Some _ => true | None => false end.

(** The loop of [BroadcastPacket] over the loaded slice. *)
Fixpoint BroadcastPacket_range (f : Fanout) (channels : list chan_ref)
    (kind : RTPCodecType) (pkt : rtp_Packet) : outcome (Fanout * list fan_event) :=
  match channels with
  | [] => Done (f, [])
  | ch :: rest =>
      let '(_, f1) := Pool_Get f in
      let pp := mkparticipantPacket kind (Some pkt) in
      match try_send f1 ch pp with
      | SendOK f2 =>
          match BroadcastPacket_range f2 rest kind pkt with
          | Done (f3, evs) => Done (f3, PoolGet :: TrySend ch pp true :: evs)
          | Panicked => Panicked
          end
      | SendNotReady =>
          match BroadcastPacket_range (Pool_Put f1 pp) rest kind pkt with
          | Done (f3, evs) => Done (f3, PoolGet :: TrySend ch pp false :: PoolPut pp :: evs)
          | Panicked => Panicked
          end
      | SendPanic => Panicked
      end
  end.

Definition BroadcastPacket (r : t) (f : Fanout) (kind : RTPCodecType) (pkt : rtp_Packet)
  : outcome (Fanout * list fan_event) :=
  let channels := participantChannels r in
  if (length channels =? 0)%nat then Done (f, [])
  else BroadcastPacket_range f channels kind pkt.

End Room.

(** ** core: the relay, its streams and the world a handler runs in *)

Module Relay.

Record t : Type := mk {
  ID : peer_ID;
  (** [LocalRooms]: room ID -> local [*Room].  A [*Room] is represented by
      the key under which this map holds the room. *)
  LocalRooms : gmap ULID Room.t;
}.

(** Modelled from the spec: [Relay.GetRoomByName] is not among the sources.
    Section 4.3 gives [get-by-name(name) -> room | nil]: a local room with
    that name, if there is one. *)
Definition GetRoomByName (r : t) (name : string) : option (ULID * Room.t) :=
  match list_find (fun kv => Room.Name (snd kv) = name) (map_to_list (LocalRooms r)) with
  | Some (_, found) => Some found
  | None => None
  end.

(** Modelled from the spec: [Relay.CreateRoom] is not among the sources.
    Section 4.3 gives [create(name) -> room]; the room is [NewRoom]'s, owned
    by this relay, under the id [roomID] drawn for it. *)
Definition CreateRoom (r : t) (roomID : ULID) (name : string) : ULID * t :=
  (roomID, {| ID := ID r;
              LocalRooms := <[roomID := Room.NewRoom name roomID (ID r)]> (LocalRooms r) |}).

End Relay.

Record StreamConnection : Type := mkStreamConnection {
  sc_pc : pc_ref;
  sc_ndc : option NestriDataChannel.t;
}.

(** Everything a stream handler can read or change. *)
Record World : Type := mkWorld {
  relay : Relay.t;
  pion : Pion;
  fanout : Fanout;
  (** the Participants [NewParticipant] has returned, newest first *)
  participants : list Participant.t;
  servedConns : gmap string (gmap peer_ID StreamConnection);
  incomingConns : gmap string StreamConnection;
}.

(** A mesh stream as its handler sees it: the remote peer, the messages
    handed to [SendProto] so far, which of those calls return an error
    (by position), and whether [stream.Reset()] was called. *)
Record Stream : Type := mkStream {
  RemotePeer : peer_ID;
  out : list ProtoMessage;
  SendProto_fails : nat -> bool;
  was_reset : bool;
}.

Definition Stream_SendProto (s : Stream) (msg : ProtoMessage) : bool * Stream :=
  (SendProto_fails s (length (out s)),
   mkStream (RemotePeer s) (out s ++ [msg]) (SendProto_fails s) (was_reset s)).

Definition Stream_Reset (s : Stream) : Stream :=
  mkStream (RemotePeer s) (out s) (SendProto_fails s) true.

(** The results of the fallible calls one loop iteration may make. *)
Record Env : Type := mkEnv {
  now : Z;
  NewULID_session : option ULID;          (* common.NewULID() for the session id *)
  NewULID_participant : option ULID;      (* common.NewULID() in NewParticipant *)
  CreateRoom_id : ULID;                   (* the id CreateRoom draws *)
  CreatePeerConnection_fails : bool;
  NewTrack_audio_fails : bool;            (* webrtc.NewTrackLocalStaticRTP *)
  NewTrack_video_fails : bool;
  CreateDataChannel_fails : bool;
  CreateOffer : option SessionDescription;
  CreateAnswer : option SessionDescription;
  SetLocalDescription_fails : bool;
  SetRemoteDescription_fails : bool;
}.

Definition with_relay (w : World) (r : Relay.t) : World :=
  mkWorld r (pion w) (fanout w) (participants w) (servedConns w) (incomingConns w).

Definition with_pion (w : World) (p : Pion) : World :=
  mkWorld (relay w) p (fanout w) (participants w) (servedConns w) (incomingConns w).

Definition with_incomingConns (w : World) (m : gmap string StreamConnection) : World :=
  mkWorld (relay w) (pion w) (fanout w) (participants w) (servedConns w) m.

Definition with_servedConns (w : World)
    (m : gmap string (gmap peer_ID StreamConnection)) : World :=
  mkWorld (relay w) (pion w) (fanout w) (participants w) m (incomingConns w).

(** Assignment through a [*Room]. *)
Definition update_room (w : World) (ref : ULID) (upd : Room.t -> Room.t) : World :=
  with_relay w (Relay.mk (Relay.ID (relay w)) (alter upd ref (Relay.LocalRooms (relay w)))).

Definition room_at (w : World) (ref : ULID) : option Room.t :=
  Relay.LocalRooms (relay w) !! ref.

(** [common.CreatePeerConnection(onClose)] *)
Definition CreatePeerConnection (env : Env) (w : World) : option pc_ref * World :=
  if CreatePeerConnection_fails env then (None, w)
  else let '(pc, p') := PeerConnection.New (pion w) in (Some pc, with_pion w p').

(** How one iteration of a handler's [for] loop ends. *)
Inductive iteration (L : Type) : Type :=
| Continue (l : L) (w : World) (s : Stream)   (* back to ReceiveProto *)
| Return (w : World) (s : Stream)             (* the handler returns *)
| Panic.                                      (* a run-time panic *)
Arguments Continue {L} l w s.
Arguments Return {L} w s.
Arguments Panic {L}.

Module StreamProtocol.

(** *** handleStreamPush *)

Record push_locals : Type := mkpush_locals {
  room : option ULID;               (* var room *shared.Room *)
  push_iceHelper : ICEHelper.t;
}.

Definition push_init : push_locals :=
  mkpush_locals None (ICEHelper.NewICEHelper None).

(** [room.Close(); sp.incomingConns.Delete(room.Name)] when [room != nil] *)
Definition push_cleanup (l : push_locals) (w : World) : World :=
  match room l with
  | Some ref =>
      match room_at w ref with
      | Some r =>
          let '(r', p') := Room.Close r (pion w) in
          let w1 := with_pion (update_room w ref (fun _ => r')) p' in
          with_incomingConns w1 (delete (Room.Name r) (incomingConns w1))
      | None => w
      end
  | None => w
  end.

Definition push_stream_room (env : Env) (msgWrapper : ProtoMessage)
    (l : push_locals) (w : World) (s : Stream) : iteration push_locals :=
  match GetServerPushStream msgWrapper with
  | Some pushMsg =>
      let found := Relay.GetRoomByName (relay w) (push_RoomName pushMsg) in
      let respond (ref : ULID) (w1 : World) :=
        let l1 := mkpush_locals (Some ref) (push_iceHelper l) in
        match CreateMessage (now env)
                (Payload_ServerPushStream (mkProtoServerPushStream (push_RoomName pushMsg)))
                "push-stream-ok" None with
        | inl _ => Continue l1 w1 s
        | inr resMsg => let '(_, s1) := Stream_SendProto s resMsg in Continue l1 w1 s1
        end in
      match found with
      | Some (ref, r) =>
          (* room = sp.relay.GetRoomByName(...) has already assigned [room] *)
          let l1 := mkpush_locals (Some ref) (push_iceHelper l) in
          if bool_decide (Room.OwnerID r <> Relay.ID (relay w)) then Continue l1 w s
          else if Room.IsOnline r then Continue l1 w s
          else respond ref w
      | None =>
          let '(ref, rel') := Relay.CreateRoom (relay w) (CreateRoom_id env) (push_RoomName pushMsg) in
          respond ref (with_relay w rel')
      end
  | None => Continue l w s
  end.

Definition push_ice_candidate (msgWrapper : ProtoMessage)
    (l : push_locals) (w : World) (s : Stream) : iteration push_locals :=
  match GetIce msgWrapper with
  | Some iceMsg =>
      match ice_Candidate iceMsg with
      | None => Panic                           (* iceMsg.Candidate is nil *)
      | Some c =>
          match SdpMLineIndex c with
          | None => Panic                       (* *iceMsg.Candidate.SdpMLineIndex *)
          | Some idx =>
              let smollified := uint16 idx in
              let cand := {| ci_Candidate := Candidate c;
                             SDPMid := SdpMid c;
                             SDPMLineIndex := Some smollified;
                             ci_UsernameFragment := UsernameFragment c |} in
              let '(ice', p') := ICEHelper.AddCandidate (push_iceHelper l) (pion w) cand in
              Continue (mkpush_locals (room l) ice') (with_pion w p') s
          end
      end
  | None => Continue l w s
  end.

Definition push_offer (env : Env) (msgWrapper : ProtoMessage)
    (l : push_locals) (w : World) (s : Stream) : iteration push_locals :=
  match room l with
  | None => Continue l w s
  | Some ref =>
      match GetSdp msgWrapper with
      | None => Continue l w s
      | Some offerMsg =>
          match sdp_Sdp offerMsg, room_at w ref with
          | None, _ => Panic                    (* offerMsg.Sdp is nil *)
          | _, None => Panic                    (* a dangling [room]; does not arise *)
          | Some sd, Some r =>
              let offSdp := mkSessionDescription (NewSDPType (Type_ sd)) (Sdp sd) in
              match CreatePeerConnection env w with
              | (None, w1) => Continue l w1 s
              | (Some pc, w1) =>
                  (* room.PeerConnection = pc; iceHelper.SetPeerConnection(pc) *)
                  let w2 := update_room w1 ref (fun r0 => Room.set_PeerConnection r0 (Some pc)) in
                  let ice1 := ICEHelper.SetPeerConnection (push_iceHelper l) (Some pc) in
                  let l1 := mkpush_locals (room l) ice1 in
                  (* OnDataChannel, OnICECandidate, OnTrack are registered here *)
                  if SetRemoteDescription_fails env then Continue l1 w2 s
                  else
                    let w3 := with_pion w2 (PeerConnection.SetRemoteDescription (pion w2) pc offSdp) in
                    let '(ice2, p4) := ICEHelper.FlushHeldCandidates ice1 (pion w3) in
                    let w4 := with_pion w3 p4 in
                    let l2 := mkpush_locals (room l) ice2 in
                    match CreateAnswer env with
                    | None => Continue l2 w4 s
                    | Some answer =>
                        if SetLocalDescription_fails env then Continue l2 w4 s
                        else
                          let w5 := with_pion w4 (PeerConnection.SetLocalDescription (pion w4) pc answer) in
                          match CreateMessage (now env)
                                  (Payload_Sdp (mkProtoSDP (Some
                                     (mkRTCSessionDescriptionInit (SDP answer)
                                        (SDPType_String (sd_Type answer))))))
                                  "answer" None with
                          | inl _ => Continue l2 w5 s
                          | inr answerMsg =>
                              let '(_, s1) := Stream_SendProto s answerMsg in
                              let ndc := match room_at w5 ref with
                                         | Some r5 => Room.DataChannel r5
                                         | None => None
                                         end in
                              Continue l2
                                (with_incomingConns w5
                                   (<[Room.Name r := mkStreamConnection pc ndc]> (incomingConns w5)))
                                s1
                          end
                    end
              end
          end
      end
  end.

(** One iteration of the loop of [handleStreamPush], on the result [recv]
    of [safeBRW.ReceiveProto(&msgWrapper)]. *)
Definition handleStreamPush_iteration (env : Env) (recv : received ProtoMessage)
    (l : push_locals) (w : World) (s : Stream) : iteration push_locals :=
  match recv with
  | ReceivePanic => Panic
  | ReceiveError err =>
      match err with
      | EOF | ErrReset => Return (push_cleanup l w) s
      | _ => Return (push_cleanup l w) (Stream_Reset s)
      end
  | Received msgWrapper =>
      match MessageBase msgWrapper with
      | None => Continue l w s
      | Some mb =>
          if bool_decide (PayloadType mb = "push-stream-room")
          then push_stream_room env msgWrapper l w s
          else if bool_decide (PayloadType mb = "ice-candidate")
          then push_ice_candidate msgWrapper l w s
          else if bool_decide (PayloadType mb = "offer")
          then push_offer env msgWrapper l w s
          else Continue l w s
      end
  end.

(** *** handleStreamRequest *)

Record request_locals : Type := mkrequest_locals {
  currentRoomName : string;
  request_iceHelper : ICEHelper.t;
}.

Definition request_init : request_locals :=
  mkrequest_locals "" (ICEHelper.NewICEHelper None).

(** [webrtc.NewTrackLocalStaticRTP(codec, id, streamID)] *)
Definition NewTrackLocalStaticRTP (fails : bool) (codec : RTPCodecCapability)
    (id streamID : string) : option TrackLocalStaticRTP :=
  if fails then None else Some (mkTrackLocalStaticRTP codec id streamID).

(** The part of the "request-stream-room" case after the room was found
    online and locally owned. *)
Definition request_serve (env : Env) (reqMsg : ProtoClientRequestRoomStream)
    (sessionID : string) (r : Room.t)
    (l : request_locals) (w : World) (s : Stream) : iteration request_locals :=
  match CreatePeerConnection env w with
  | (None, w1) => Continue l w1 s
  | (Some pc, w1) =>
      match Participant.NewParticipant (NewULID_participant env) sessionID (RemotePeer s)
              (fanout w1) with
      | (None, _) => Continue l w1 s
      | (Some participant0, f2) =>
          let participant1 := Participant.set_PeerConnection participant0 (Some pc) in
          let ice1 := ICEHelper.SetPeerConnection (request_iceHelper l) (Some pc) in
          let l1 := mkrequest_locals (currentRoomName l) ice1 in
          let w2 := mkWorld (relay w1) (pion w1) f2 (participant1 :: participants w1)
                      (servedConns w1) (incomingConns w1) in
          let pid := "participant-" ++ Participant.ID participant1 in
          match NewTrackLocalStaticRTP (NewTrack_audio_fails env) (Room.AudioCodec r)
                  pid (pid ++ "-audio") with
          | None => Return w2 s
          | Some audio =>
              match NewTrackLocalStaticRTP (NewTrack_video_fails env) (Room.VideoCodec r)
                      pid (pid ++ "-video") with
              | None =>
                  Return (mkWorld (relay w2) (pion w2) (fanout w2)
                            (Participant.SetTrack participant1 RTPCodecTypeAudio audio
                               :: participants w1)
                            (servedConns w2) (incomingConns w2)) s
              | Some video =>
                  let participant3 :=
                    Participant.SetTrack
                      (Participant.SetTrack participant1 RTPCodecTypeAudio audio)
                      RTPCodecTypeVideo video in
                  let w3 := mkWorld (relay w2) (pion w2) (fanout w2)
                              (participant3 :: participants w1)
                              (servedConns w2) (incomingConns w2) in
                  (* pc.OnConnectionStateChange is registered here *)
                  if CreateDataChannel_fails env then Continue l1 w3 s
                  else
                    let '(dc, p4) := DataChannel.New (pion w3) in
                    let w4 := with_pion w3 p4 in
                    let ndc :=
                      NestriDataChannel.RegisterMessageCallback
                        (NestriDataChannel.RegisterMessageCallback
                           (NestriDataChannel.NewNestriDataChannel dc)
                           "input" (ForwardInputUpstream (Room.ID r)))
                        "controllerInput" (ForwardControllerInputUpstream (Room.ID r)) in
                    (* pc.OnICECandidate is registered here *)
                    match CreateOffer env with
                    | None => Continue l1 w4 s
                    | Some offer =>
                        if SetLocalDescription_fails env then Continue l1 w4 s
                        else
                          let w5 := with_pion w4
                                      (PeerConnection.SetLocalDescription (pion w4) pc offer) in
                          match CreateMessage (now env)
                                  (Payload_Sdp (mkProtoSDP (Some
                                     (mkRTCSessionDescriptionInit (SDP offer)
                                        (SDPType_String (sd_Type offer))))))
                                  "offer" None with
                          | inl _ => Continue l1 w5 s
                          | inr offerMsg =>
                              let '(failed, s1) := Stream_SendProto s offerMsg in
                              if failed then Continue l1 w5 s1
                              else
                                let roomMap :=
                                  match servedConns w5 !! req_RoomName reqMsg with
                                  | Some m => m
                                  | None => ∅
                                  end in
                                Continue l1
                                  (with_servedConns w5
                                     (<[req_RoomName reqMsg :=
                                          <[RemotePeer s := mkStreamConnection pc (Some ndc)]> roomMap]>
                                        (servedConns w5)))
                                  s1
                          end
                    end
              end
          end
      end
  end.

Definition request_stream_room (env : Env) (msgWrapper : ProtoMessage)
    (l : request_locals) (w : World) (s : Stream) : iteration request_locals :=
  match GetClientRequestRoomStream msgWrapper with
  | None => Continue l w s
  | Some reqMsg =>
      let l1 := mkrequest_locals (req_RoomName reqMsg) (request_iceHelper l) in
      (* Generate session ID if not provided (first connection) *)
      let generated :=
        if bool_decide (req_SessionId reqMsg = "") then NewULID_session env
        else Some (req_SessionId reqMsg) in
      match generated with
      | None => Continue l1 w s
      | Some sessionID =>
          match CreateMessage (now env)
                  (Payload_ClientRequestRoomStream
                     (mkProtoClientRequestRoomStream (req_RoomName reqMsg) sessionID))
                  "session-assigned" None with
          | inl _ => Continue l1 w s
          | inr sesMsg =>
              let '(_, s1) := Stream_SendProto s sesMsg in
              let found := Relay.GetRoomByName (relay w) (req_RoomName reqMsg) in
              let offline :=
                match CreateMessage (now env)
                        (Payload_Raw (mkProtoRaw (req_RoomName reqMsg)))
                        "request-stream-offline" None with
                | inl _ => Continue l1 w s1
                | inr rawMsg => let '(_, s2) := Stream_SendProto s1 rawMsg in Continue l1 w s2
                end in
              match found with
              | None => offline
              | Some (_, r) =>
                  if (negb (Room.IsOnline r)
                      || bool_decide (Room.OwnerID r <> Relay.ID (relay w)))%bool
                  then offline
                  else request_serve env reqMsg sessionID r l1 w s1
              end
          end
      end
  end.

Definition request_ice_candidate (msgWrapper : ProtoMessage)
    (l : request_locals) (w : World) (s : Stream) : iteration request_locals :=
  match GetIce msgWrapper with
  | Some iceMsg =>
      match ice_Candidate iceMsg with
      | None => Panic                           (* iceMsg.Candidate is nil *)
      | Some c =>
          let cand := {| ci_Candidate := Candidate c;
                         SDPMid := SdpMid c;
                         SDPMLineIndex :=
                           match SdpMLineIndex c with
                           | Some idx => Some (uint16 idx)
                           | None => None
                           end;
                         ci_UsernameFragment := UsernameFragment c |} in
          let '(ice', p') := ICEHelper.AddCandidate (request_iceHelper l) (pion w) cand in
          Continue (mkrequest_locals (currentRoomName l) ice') (with_pion w p') s
      end
  | None => Continue l w s
  end.

Definition request_answer (env : Env) (msgWrapper : ProtoMessage)
    (l : request_locals) (w : World) (s : Stream) : iteration request_locals :=
  match GetSdp msgWrapper with
  | None => Continue l w s
  | Some answerMsg =>
      match sdp_Sdp answerMsg with
      | None => Panic                           (* answerMsg.Sdp is nil *)
      | Some sd =>
          let ansSdp := mkSessionDescription (NewSDPType (Type_ sd)) (Sdp sd) in
          if (0 <? String.length (currentRoomName l))%nat then
            match servedConns w !! currentRoomName l with
            | Some roomMap =>
                match roomMap !! RemotePeer s with
                | Some conn =>
                    if SetRemoteDescription_fails env then Continue l w s
                    else
                      let w1 := with_pion w
                                  (PeerConnection.SetRemoteDescription (pion w) (sc_pc conn) ansSdp) in
                      let '(ice', p2) :=
                        ICEHelper.FlushHeldCandidates (request_iceHelper l) (pion w1) in
                      Continue (mkrequest_locals (currentRoomName l) ice') (with_pion w1 p2) s
                | None => Continue l w s
                end
            | None => Continue l w s
            end
          else Continue l w s
      end
  end.

(** One iteration of the loop of [handleStreamRequest]. *)
Definition handleStreamRequest_iteration (env : Env) (recv : received ProtoMessage)
    (l : request_locals) (w : World) (s : Stream) : iteration request_locals :=
  match recv with
  | ReceivePanic => Panic
  | ReceiveError err =>
      match err with
      | EOF | ErrReset => Return w s
      | _ => Return w (Stream_Reset s)
      end
  | Received msgWrapper =>
      match MessageBase msgWrapper with
      | None => Return w (Stream_Reset s)
      | Some mb =>
          if bool_decide (PayloadType mb = "request-stream-room")
          then request_stream_room env msgWrapper l w s
          else if bool_decide (PayloadType mb = "ice-candidate")
          then request_ice_candidate msgWrapper l w s
          else if bool_decide (PayloadType mb = "answer")
          then request_answer env msgWrapper l w s
          else Continue l w s
      end
  end.

(** *** The handlers as loops

    A handler runs its iteration on each received frame until one returns
    or panics; [frames] are the successive results of [ReceiveProto], each
    with the environment of its iteration.  When they run out the handler
    is waiting in [ReceiveProto]. *)
Inductive handler_end (L : Type) : Type :=
| Returned (w : World) (s : Stream)
| Crashed
| Receiving (l : L) (w : World) (s : Stream).
Arguments Returned {L} w s.
Arguments Crashed {L}.
Arguments Receiving {L} l w s.

Fixpoint run_handler {L : Type}
    (iter : Env -> received ProtoMessage -> L -> World -> Stream -> iteration L)
    (frames : list (Env * received ProtoMessage))
    (l : L) (w : World) (s : Stream) : handler_end L :=
  match frames with
  | [] => Receiving l w s
  | (env, recv) :: rest =>
      match iter env recv l w s with
      | Continue l' w' s' => run_handler iter rest l' w' s'
      | Return w' s' => Returned w' s'
      | Panic => Crashed
      end
  end.

Definition handleStreamPush (frames : list (Env * received ProtoMessage))
    (w : World) (s : Stream) : handler_end push_locals :=
  run_handler handleStreamPush_iteration frames push_init w s.

Definition handleStreamRequest (frames : list (Env * received ProtoMessage))
    (w : World) (s : Stream) : handler_end request_locals :=
  run_handler handleStreamRequest_iteration frames request_init w s.

End StreamProtocol.

(** ** core: the callbacks the handlers register

    The closures of [protocol_stream.go] and [common.go] that pion runs
    later, each as a function of the world it finds; what a closure
    captures is an argument. *)

(** [webrtc.PeerConnectionState] *)
Inductive connection_state : Type :=
| PeerConnectionStateNew
| PeerConnectionStateConnecting
| PeerConnectionStateConnected
| PeerConnectionStateDisconnected
| PeerConnectionStateFailed
| PeerConnectionStateClosed.

(** [state == Closed || state == Failed || state == Disconnected] *)
Definition connection_lost (state : connection_state) : bool :=
  match state with
  | PeerConnectionStateClosed | PeerConnectionStateFailed
  | PeerConnectionStateDisconnected => true
  | _ => false
  end.

(** The [onClose] the request handler gives [CreatePeerConnection]: the
    peer leaves the room's table, and an empty table leaves [servedConns]. *)
Definition served_onClose (roomName : string) (remote : peer_ID) (w : World) : World :=
  match servedConns w !! roomName with
  | Some roomMap =>
      let roomMap' := delete remote roomMap in
      if (size roomMap' =? 0)%nat
      then with_servedConns w (delete roomName (servedConns w))
      else with_servedConns w (<[roomName := roomMap']> (servedConns w))
  | None => w
  end.

(** The [onClose] the push handler gives [CreatePeerConnection]; [room]
    is the handler's variable, read when the closure runs. *)
Definition incoming_onClose (room : ULID) (w : World) : World :=
  match room_at w room with
  | Some r => with_incomingConns w (delete (Room.Name r) (incomingConns w))
  | None => w
  end.

(** The state callback [CreatePeerConnection] installs: on a lost
    connection, [pc.Close()] and then [onClose()]. *)
Definition CreatePeerConnection_onConnectionStateChange (pc : pc_ref)
    (onClose : World -> World) (state : connection_state) (w : World) : World :=
  if connection_lost state
  then onClose (with_pion w (PeerConnection.Close (pion w) pc))
  else w.

(** The state callback the request handler installs for a participant
    (the participant is the closure's pointer: its value goes in and its
    value after the call comes out). *)
Definition request_onConnectionStateChange (room : ULID) (participant : Participant.t)
    (state : connection_state) (w : World) : Participant.t * World :=
  if connection_lost state then
    let w1 := update_room w room
                (fun r => Room.RemoveParticipantByID r (Participant.ID participant)) in
    let '(p', f', pi') := Participant.Close participant (fanout w1) (pion w1) in
    (p', mkWorld (relay w1) pi' f' (participants w1) (servedConns w1) (incomingConns w1))
  else
    match state with
    | PeerConnectionStateConnected =>
        (participant, update_room w room (fun r => Room.AddParticipant r participant))
    | _ => (participant, w)
    end.


(** The ice-candidate frame both [pc.OnICECandidate] closures build. *)
Definition ice_candidate_frame (now : Z) (candidate : string) (index : option Z)
    (mid : option string) : io_error + ProtoMessage :=
  CreateMessage now
    (Payload_Ice (mkProtoICE (Some (mkRTCIceCandidateInit candidate index mid None))))
    "ice-candidate" None.

(** [pc.OnICECandidate] of the request handler, on [candidate.ToJSON()]
    ([None] is the nil candidate that ends gathering). *)
Definition request_onICECandidate (now : Z) (candidate : option ICECandidateInit)
    (s : Stream) : Stream :=
  match candidate with
  | None => s
  | Some candInit =>
      let sdpMLineIndex :=
        match SDPMLineIndex candInit with
        | Some idx => Some (idx mod 2 ^ 32)       (* widened to uint32 *)
        | None => None
        end in
      match ice_candidate_frame now (ci_Candidate candInit) sdpMLineIndex (SDPMid candInit) with
      | inl _ => s
      | inr iceMsg => snd (Stream_SendProto s iceMsg)
      end
  end.

(** [pc.OnICECandidate] of the push handler, which reads the index
    through the pointer without a test. *)
Definition push_onICECandidate (now : Z) (candidate : option ICECandidateInit)
    (s : Stream) : outcome Stream :=
  match candidate with
  | None => Done s
  | Some candInit =>
      match SDPMLineIndex candInit with
      | None => Panicked
      | Some idx =>
          let biggified := idx mod 2 ^ 32 in
          match ice_candidate_frame now (ci_Candidate candInit) (Some biggified)
                  (SDPMid candInit) with
          | inl _ => Done s
          | inr iceMsg => Done (snd (Stream_SendProto s iceMsg))
          end
      end
  end.

(** The candidate a handler makes of a received [ProtoICE] candidate; the
    request handler's reading, which the push handler shares when the
    index is there. *)
Definition candidate_of_frame (c : RTCIceCandidateInit) : ICECandidateInit :=
  {| ci_Candidate := Candidate c;
     SDPMid := SdpMid c;
     SDPMLineIndex := match SdpMLineIndex c with
                      | Some idx => Some (uint16 idx)
                      | None => None
                      end;
     ci_UsernameFragment := UsernameFragment c |}.

(** [pc.OnTrack] of the push handler.  First the room records the codec
    of the track's kind ... *)
Definition OnTrack_codec (kind : RTPCodecType) (codec : RTPCodecCapability)
    (r : Room.t) : Room.t :=
  match kind with
  | RTPCodecTypeAudio =>
      {| Room.ID := Room.ID r; Room.Name := Room.Name r; Room.OwnerID := Room.OwnerID r;
         Room.AudioCodec := codec; Room.VideoCodec := Room.VideoCodec r;
         Room.PeerConnection := Room.PeerConnection r; Room.DataChannel := Room.DataChannel r;
         Room.participantChannels := Room.participantChannels r;
         Room.Participants := Room.Participants r |}
  | RTPCodecTypeVideo =>
      {| Room.ID := Room.ID r; Room.Name := Room.Name r; Room.OwnerID := Room.OwnerID r;
         Room.AudioCodec := Room.AudioCodec r; Room.VideoCodec := codec;
         Room.PeerConnection := Room.PeerConnection r; Room.DataChannel := Room.DataChannel r;
         Room.participantChannels := Room.participantChannels r;
         Room.Participants := Room.Participants r |}
  | RTPCodecTypeUnknown => r
  end.

(** ... then its loop broadcasts every packet read from the track, in the
    order read, until a read fails.  [setExtension] is the stamping of the
    playout-delay extension: [None] where [SetExtension] fails, and the
    packet is skipped.  The loop is run with nobody adding or removing a
    participant meanwhile: every broadcast loads the slice of [r]. *)
Fixpoint OnTrack_loop (setExtension : rtp_Packet -> option rtp_Packet)
    (r : Room.t) (f : Fanout) (kind : RTPCodecType) (reads : list rtp_Packet)
  : outcome Fanout :=
  match reads with
  | [] => Done f
  | rtpPacket :: rest =>
      match setExtension rtpPacket with
      | None => OnTrack_loop setExtension r f kind rest
      | Some stamped =>
          match Room.BroadcastPacket r f kind stamped with
          | Done (f', _) => OnTrack_loop setExtension r f' kind rest
          | Panicked => Panicked
          end
      end
  end.

(** The bodies of the message callbacks, run on the bytes of a message:
    the world afterwards and the peers handed to [onPeerDisconnected]
    (whose own effect is not part of this model). *)
Definition forward_upstream (room : ULID) (data : list byte) (w : World) : World :=
  match room_at w room with
  | Some r =>
      match Room.DataChannel r with
      | Some ndc => with_pion w (snd (NestriDataChannel.SendBinary ndc data (pion w)))
      | None => w
      end
  | None => w
  end.

Definition forward_to_viewer (data : list byte) (acc : World * list peer_ID)
    (viewer : peer_ID * StreamConnection) : World * list peer_ID :=
  let '(w, lost) := acc in
  match sc_ndc (snd viewer) with
  | Some ndc =>
      let '(failed, p') := NestriDataChannel.SendBinary ndc data (pion w) in
      if failed then (w, (lost ++ [fst viewer])%list) else (with_pion w p', lost)
  | None => (w, lost)
  end.

Definition forward_to_viewers (room : ULID) (data : list byte) (w : World)
  : World * list peer_ID :=
  match room_at w room with
  | Some r =>
      match servedConns w !! Room.Name r with
      | Some roomMap => fold_left (forward_to_viewer data) (map_to_list roomMap) (w, [])
      | None => (w, [])
      end
  | None => (w, [])
  end.

Definition run_callback (callback : OnMessageCallback) (data : list byte) (w : World)
  : World * list peer_ID :=
  match callback with
  | ForwardInputUpstream room => (forward_upstream room data w, [])
  | ForwardControllerInputUpstream room => (forward_upstream room data w, [])
  | ForwardControllerInputToViewers room => forward_to_viewers room data w
  | OtherCallback _ => (w, [])
  end.

(** A message arriving on a channel: the routing of [OnMessage], then the
    callback it started. *)
Definition deliver `{ProtoCodec ProtoMessage} (ndc : NestriDataChannel.t)
    (msg : DataChannelMessage) (w : World) : World * list peer_ID :=
  match snd (NestriDataChannel.OnMessage ndc msg) with
  | (callback, data) :: _ => run_callback callback data w
  | [] => (w, [])
  end.

(** ** Histories of a candidate helper

    What can happen to an [ICEHelper] and the connections it may point to,
    one operation at a time: the helper's three methods and, on the media
    engine's side, a remote description installed on a connection or a
    connection closed. *)
Inductive ice_op : Type :=
| Op_AddCandidate (c : ICECandidateInit)
| Op_FlushHeldCandidates
| Op_SetPeerConnection (pc : option pc_ref)
| Op_SetRemoteDescription (pc : pc_ref) (sd : SessionDescription)
| Op_ClosePeerConnection (pc : pc_ref).

Definition ice_step (op : ice_op) (st : ICEHelper.t * Pion) : ICEHelper.t * Pion :=
  let '(ice, p) := st in
  match op with
  | Op_AddCandidate c => ICEHelper.AddCandidate ice p c
  | Op_FlushHeldCandidates => ICEHelper.FlushHeldCandidates ice p
  | Op_SetPeerConnection pc => (ICEHelper.SetPeerConnection ice pc, p)
  | Op_SetRemoteDescription pc sd => (ice, PeerConnection.SetRemoteDescription p pc sd)
  | Op_ClosePeerConnection pc => (ice, PeerConnection.Close p pc)
  end.

Definition ice_run (ops : list ice_op) (st : ICEHelper.t * Pion) : ICEHelper.t * Pion :=
  fold_left (fun acc op => ice_step op acc) ops st.

(** The candidates of a history that were delivered while the helper had
    a peer connection attached; [attached] tells whether it has one at
    the start. *)
Fixpoint delivered_attached (ops : list ice_op) (attached : bool) : list ICECandidateInit :=
  match ops with
  | [] => []
  | Op_AddCandidate c :: rest =>
      if attached then c :: delivered_attached rest attached
      else delivered_attached rest attached
  | Op_SetPeerConnection pc :: rest =>
      delivered_attached rest (match pc with Some _ => true | None => false end)
  | _ :: rest => delivered_attached rest attached
  end.

(** Whether the helper has a peer connection attached. *)
Definition is_attached (ice : ICEHelper.t) : bool :=
  match ICEHelper.pc ice with Some _ => true | None => false end.

(** The candidates handed to [AddICECandidate] so far. *)
Definition applied (p : Pion) : list ICECandidateInit := map snd (ice_calls p).

(** The stream handlers attach connections and never detach one. *)
Definition attaches_only (op : ice_op) : Prop :=
  match op with
  | Op_SetPeerConnection None => False
  | _ => True
  end.

(** A helper without a connection holds nothing. *)
Definition ICEHelper_wf (ice : ICEHelper.t) : Prop :=
  ICEHelper.pc ice = None -> ICEHelper.candidates ice = [].

(** The remote description of the helper's connection is installed. *)
Definition remote_description_set (ice : ICEHelper.t) (p : Pion) : Prop :=
  exists conn sd, ICEHelper.pc ice = Some conn /\
                  PeerConnection.GetRemoteDescription p conn = Some sd.

(** ** What the specification expects of a refused push *)

(** The stream went from [s] to [s'] by one more frame, of kind
    "push-stream-rejected". *)
Definition replies_push_stream_rejected (s s' : Stream) : Prop :=
  exists m mb, out s' = (out s ++ [m])%list /\
               MessageBase m = Some mb /\ PayloadType mb = "push-stream-rejected".

(** ** Well-formed fan-out states *)

(** Every channel of the room's slice exists and is open. *)
Definition slice_open (f : Fanout) (channels : list chan_ref) : Prop :=
  Forall (fun ch => exists c, chans f !! ch = Some c /\ closed c = false) channels.


(** Every channel of the slice is the queue of a participant of the map. *)
Definition Room_wf (r : Room.t) : Prop :=
  forall ch, In ch (Room.participantChannels r) ->
    exists id p, Room.Participants r !! id = Some p /\ Participant.packetQueue p = ch.




(** The trace of a broadcast of [pp] over a slice: for each channel in
    turn one [Get], one send of [pp], and a [Put] of [pp] exactly when the
    send was not taken. *)
Inductive broadcast_trace (pp : participantPacket) : list chan_ref -> list fan_event -> Prop :=
| bt_done : broadcast_trace pp [] []
| bt_sent ch rest evs :
    broadcast_trace pp rest evs ->
    broadcast_trace pp (ch :: rest) (PoolGet :: TrySend ch pp true :: evs)
| bt_dropped ch rest evs :
    broadcast_trace pp rest evs ->
    broadcast_trace pp (ch :: rest) (PoolGet :: TrySend ch pp false :: PoolPut pp :: evs).

(** How many packets the queue [c] of channel [ch] takes from one
    broadcast: one per occurrence in the slice while there is room. *)
Definition took (channels : list chan_ref) (ch : chan_ref) (c : Chan) : nat :=
  Nat.min (count_occ Nat.eq_dec channels ch) (cap c - length (buf c)).





(** ** Loops over the operations of a room and of a stream *)


(** What can happen to the participant set of a room. *)
Inductive room_op : Type :=
| Op_AddParticipant (p : Participant.t)
| Op_RemoveParticipantByID (id : ULID).

Definition room_step (r : Room.t) (op : room_op) : Room.t :=
  match op with
  | Op_AddParticipant p => Room.AddParticipant r p
  | Op_RemoveParticipantByID id => Room.RemoveParticipantByID r id
  end.

(** The slice and the map of a room tell the same story: the channels of
    the slice are the queues of the members, none twice, and two members
    never share a queue. *)
Definition Room_sync (r : Room.t) : Prop :=
  Room_wf r /\
  NoDup (Room.participantChannels r) /\
  (forall id p, Room.Participants r !! id = Some p ->
     In (Participant.packetQueue p) (Room.participantChannels r)) /\
  (forall id1 p1 id2 p2,
     Room.Participants r !! id1 = Some p1 -> Room.Participants r !! id2 = Some p2 ->
     Participant.packetQueue p1 = Participant.packetQueue p2 -> id1 = id2).

(** A participant that is not in the room: its id is no key of the map
    and its queue is in no entry of the slice. *)
Definition newcomer (r : Room.t) (p : Participant.t) : Prop :=
  Room.Participants r !! Participant.ID p = None /\
  ~ In (Participant.packetQueue p) (Room.participantChannels r).

(** Sending and receiving several frames over one stream. *)
Fixpoint SendAll {M} `{ProtoCodec M} (bu : SafeBufioRW.t) (msgs : list M)
  : option io_error * SafeBufioRW.t :=
  match msgs with
  | [] => (None, bu)
  | msg :: rest =>
      match SafeBufioRW.SendProto bu msg with
      | (Some err, bu') => (Some err, bu')
      | (None, bu') => SendAll bu' rest
      end
  end.

Fixpoint ReceiveAll {M} `{ProtoCodec M} (n : nat) (bu : SafeBufioRW.t)
  : list (received M) * SafeBufioRW.t :=
  match n with
  | O => ([], bu)
  | S k =>
      let '(got, bu') := SafeBufioRW.ReceiveProto bu in
      let '(more, bu'') := ReceiveAll k bu' in
      (got :: more, bu'')
  end.

(** A byte list holds bytes. *)
Definition is_bytes (bs : list byte) : Prop := Forall (fun b => 0 <= b < 256) bs.

(** ** Notions used in the statements *)

(** The candidates an incoming frame carries: the candidate either handler
    hands to [AddCandidate] for an ice-candidate frame, none for any
    other frame. *)
Definition frame_candidates (recv : received ProtoMessage) : list ICECandidateInit :=
  match recv with
  | Received msgWrapper =>
      match MessageBase msgWrapper, GetIce msgWrapper with
      | Some mb, Some iceMsg =>
          if bool_decide (PayloadType mb = "ice-candidate") then
            match ice_Candidate iceMsg with
            | Some c => [candidate_of_frame c]
            | None => []
            end
          else []
      | _, _ => []
      end
  | _ => []
  end.






(** [RemoveParticipantByID] makes the new slice with capacity
    [len - 1], and [make] panics on a negative capacity: when the id is a
    key of the map and the slice is empty.  [Room.RemoveParticipantByID]
    describes the calls that return. *)
Definition RemoveParticipantByID_panics (r : Room.t) (pID : ULID) : bool :=
  match Room.Participants r !! pID with
  | Some _ => (length (Room.participantChannels r) =? 0)%nat
  | None => false
  end.

(** Every participant added by a history is a newcomer when it is added. *)
Fixpoint adds_newcomers (r : Room.t) (ops : list room_op) : Prop :=
  match ops with
  | [] => True
  | op :: rest =>
      match op with
      | Op_AddParticipant p => newcomer r p
      | Op_RemoveParticipantByID _ => True
      end /\ adds_newcomers (room_step r op) rest
  end.

(** The wrappers a queue is offered for the packets of a track: one per
    entry of the slice that names the queue, packet after packet. *)
Definition offered (channels : list chan_ref) (ch : chan_ref) (kind : RTPCodecType)
    (pkts : list rtp_Packet) : list participantPacket :=
  flat_map (fun pkt => replicate (count_occ Nat.eq_dec channels ch)
                         (mkparticipantPacket kind (Some pkt))) pkts.









(** ** Concrete values used to exercise the model *)

(** A codec for messages that are their own wire form. *)
#[export] Instance raw_codec : ProtoCodec (list byte) := {
  Marshal := fun m => inr m;
  Unmarshal := fun bs => inr bs;
}.

#[export] Instance raw_codec_laws : ProtoCodecLaws (list byte).
Proof. constructor. intros m bs Hm. simpl in *. congruence. Qed.

Definition ex_rw : ReadWriter := mkReadWriter [] [] false.

Definition ex_pion : Pion := mkPion ∅ [] ∅.
Definition ex_fanout : Fanout := mkFanout ∅ [].
Definition ex_relay : Relay.t := Relay.mk "relay-1" ∅.
Definition ex_world : World := mkWorld ex_relay ex_pion ex_fanout [] ∅ ∅.
Definition ex_stream : Stream := mkStream "peer-A" [] (fun _ => false) false.

Definition ex_offer : SessionDescription := mkSessionDescription SDPTypeOffer "v=0 offer".
Definition ex_answer : SessionDescription := mkSessionDescription SDPTypeAnswer "v=0 answer".

Definition ex_env : Env :=
  {| now := 0;
     NewULID_session := Some "01SESSION";
     NewULID_participant := Some "01PARTICIPANT";
     CreateRoom_id := "01ROOM";
     CreatePeerConnection_fails := false;
     NewTrack_audio_fails := false;
     NewTrack_video_fails := false;
     CreateDataChannel_fails := false;
     CreateOffer := Some ex_offer;
     CreateAnswer := Some ex_answer;
     SetLocalDescription_fails := false;
     SetRemoteDescription_fails := false |}.

(** A frame as a peer builds it: header with the payload kind, one payload. *)
Definition frame (payloadType : string) (pl : ProtoMessage_Payload) : ProtoMessage :=
  mkProtoMessage (Some (mkProtoMessageBase payloadType None)) (Some pl).

Definition ex_candidate : ICECandidateInit :=
  mkICECandidateInit "candidate:1 1 UDP 2122252543 192.0.2.1 50000 typ host"
    (Some "0") (Some 0) None.

Definition ex_candidate2 : ICECandidateInit :=
  mkICECandidateInit "candidate:2 1 UDP 1686052863 198.51.100.7 50001 typ srflx"
    (Some "0") (Some 0) None.

Definition ex_ice_frame (idx : option Z) : ProtoMessage :=
  frame "ice-candidate"
    (Payload_Ice (mkProtoICE (Some
       (mkRTCIceCandidateInit "candidate:1 1 UDP 2122252543 192.0.2.1 50000 typ host"
          idx (Some "0") None)))).

Definition ex_push_frame (name : string) : ProtoMessage :=
  frame "push-stream-room" (Payload_ServerPushStream (mkProtoServerPushStream name)).

Definition ex_push_frame_ok : ProtoMessage :=
  frame "push-stream-ok" (Payload_ServerPushStream (mkProtoServerPushStream "alpha")).

Definition ex_answer_frame : ProtoMessage :=
  frame "answer"
    (Payload_Sdp (mkProtoSDP (Some (mkRTCSessionDescriptionInit "v=0 answer" "answer")))).

Definition ex_offer_frame : ProtoMessage :=
  frame "offer"
    (Payload_Sdp (mkProtoSDP (Some (mkRTCSessionDescriptionInit "v=0 offer" "offer")))).

Definition ex_request_frame (name sessionID : string) : ProtoMessage :=
  frame "request-stream-room"
    (Payload_ClientRequestRoomStream (mkProtoClientRequestRoomStream name sessionID)).

(** The relay with a room "alpha" that relay-2 owns. *)
Definition ex_world_foreign : World :=
  with_relay ex_world
    (Relay.mk "relay-1" (<["01ROOM" := Room.NewRoom "alpha" "01ROOM" "relay-2"]> ∅)).

(** The relay with its own room "alpha", offline. *)
Definition ex_world_offline : World :=
  with_relay ex_world
    (Relay.mk "relay-1" (<["01ROOM" := Room.NewRoom "alpha" "01ROOM" "relay-1"]> ∅)).

(** The relay with its own room "alpha", online on connection 0. *)
Definition ex_world_online : World :=
  mkWorld
    (Relay.mk "relay-1"
       (<["01ROOM" := Room.set_PeerConnection (Room.NewRoom "alpha" "01ROOM" "relay-1")
                        (Some 0%nat)]> ∅))
    (snd (PeerConnection.New ex_pion)) ex_fanout [] ∅ ∅.

Definition ex_packet : rtp_Packet := mkrtp_Packet 17 90000 [128; 96].
Definition ex_old : participantPacket :=
  mkparticipantPacket RTPCodecTypeAudio (Some (mkrtp_Packet 16 89000 [128; 111])).

(** Two queues: number 0 with room for two packets, number 1 full. *)
Definition ex_fanout2 : Fanout :=
  mkFanout (<[0%nat := mkChan [] 2 false]> (<[1%nat := mkChan [ex_old] 1 false]> ∅)) [ex_old].

Definition ex_participant (id : ULID) (q : chan_ref) : Participant.t :=
  {| Participant.ID := id; Participant.SessionID := "01SESSION";
     Participant.PeerID := "peer-A";
     Participant.PeerConnection := None; Participant.DataChannel := None;
     Participant.VideoTrack := None; Participant.AudioTrack := None;
     Participant.VideoSequenceNumber := 0; Participant.VideoTimestamp := 0;
     Participant.AudioSequenceNumber := 0; Participant.AudioTimestamp := 0;
     Participant.packetQueue := q; Participant.closeOnce := false |}.

(** A room with the two participants that own those queues. *)
Definition ex_room : Room.t :=
  Room.AddParticipant
    (Room.AddParticipant (Room.NewRoom "alpha" "01ROOM" "relay-1")
       (ex_participant "01PA" 0%nat))
    (ex_participant "01PB" 1%nat).

(** A stand-in decoder that knows four byte strings. *)
Definition ex_Unmarshal (bs : list byte) : io_error + ProtoMessage :=
  match bs with
  | [1] => inr (frame "input" (Payload_Raw (mkProtoRaw "key")))
  | [2] => inr (mkProtoMessage None (Some (Payload_Raw (mkProtoRaw "key"))))
  | [3] => inr (frame "rumble" (Payload_Raw (mkProtoRaw "left")))
  | [4] => inr (frame "" (Payload_Raw (mkProtoRaw "key")))
  | _ => inl ErrUnmarshal
  end.

Definition ex_codec : ProtoCodec ProtoMessage :=
  {| Marshal := fun _ => inl ErrMarshal; Unmarshal := ex_Unmarshal |}.

Definition ex_ndc : NestriDataChannel.t :=
  NestriDataChannel.RegisterMessageCallback
    (NestriDataChannel.RegisterMessageCallback
       (NestriDataChannel.NewNestriDataChannel 0%nat) "input" (ForwardInputUpstream "01ROOM"))
    "" (OtherCallback 7).

(** A pion state with one connection, number 0, and no description yet. *)
Definition ex_pion1 : Pion := snd (PeerConnection.New ex_pion).

(** The two queues of [ex_room] and a third, number 2, a thousand deep. *)
Definition ex_fanout3 : Fanout :=
  mkFanout (<[2%nat := mkChan [] 1000 false]> (chans ex_fanout2)) [].

(** A relay whose room "alpha" has the two viewers of [ex_room]. *)
Definition ex_world_viewers : World :=
  mkWorld (Relay.mk "relay-1" (<["01ROOM" := ex_room]> ∅)) ex_pion ex_fanout3 [] ∅ ∅.



(** Channel 0 is the producer's, channels 1 (closed) and 2 are viewers'. *)
Definition ex_pion_channels : Pion :=
  mkPion ∅ []
    (<[0%nat := mkDataChannelState false []]>
       (<[1%nat := mkDataChannelState true []]>
          (<[2%nat := mkDataChannelState false []]> ∅))).

Definition ex_upstream : NestriDataChannel.t :=
  NestriDataChannel.RegisterMessageCallback
    (NestriDataChannel.NewNestriDataChannel 0%nat)
    "controllerInput" (ForwardControllerInputToViewers "01ROOM").

Definition ex_viewer_ndc (dc : dc_ref) : NestriDataChannel.t :=
  NestriDataChannel.RegisterMessageCallback
    (NestriDataChannel.RegisterMessageCallback
       (NestriDataChannel.NewNestriDataChannel dc)
       "input" (ForwardInputUpstream "01ROOM"))
    "controllerInput" (ForwardControllerInputUpstream "01ROOM").

Definition ex_viewers : gmap peer_ID StreamConnection :=
  <["peerA" := mkStreamConnection 1%nat (Some (ex_viewer_ndc 2%nat))]>
    (<["peerB" := mkStreamConnection 2%nat (Some (ex_viewer_ndc 1%nat))]> ∅).

Definition ex_room_live : Room.t :=
  Room.set_DataChannel
    (Room.set_PeerConnection (Room.NewRoom "alpha" "01ROOM" "relay-1") (Some 0%nat))
    (Some ex_upstream).

Definition ex_world_live : World :=
  mkWorld (Relay.mk "relay-1" (<["01ROOM" := ex_room_live]> ∅))
    ex_pion_channels ex_fanout [] (<["alpha" := ex_viewers]> ∅) ∅.

(* ===================================================================== *)
(** * Part II: properties                                                *)
(* ===================================================================== *)

(** ** Varint framing *)

Lemma lor_lt_pow2 a b n :
  0 <= n -> 0 <= a < 2 ^ n -> 0 <= b < 2 ^ n -> 0 <= Z.lor a b < 2 ^ n.
Proof.
  intros Hn Ha Hb. split; [apply Z.lor_nonneg; lia|].
  assert (0 < 2 ^ n) by (apply Z.pow_pos_nonneg; lia).
  destruct (Z.eq_dec (Z.lor a b) 0) as [->|Hz]; [lia|].
  apply Z.log2_lt_pow2; [assert (0 <= Z.lor a b) by (apply Z.lor_nonneg; lia); lia|].
  rewrite Z.log2_lor by lia.
  destruct (Z.eq_dec a 0) as [->|Ha0]; destruct (Z.eq_dec b 0) as [->|Hb0].
  - rewrite Z.lor_0_l in Hz. lia.
  - rewrite Z.max_r by (change (Z.log2 0) with 0; apply Z.log2_nonneg).
    apply Z.log2_lt_pow2; lia.
  - rewrite Z.max_l by (change (Z.log2 0) with 0; apply Z.log2_nonneg).
    apply Z.log2_lt_pow2; lia.
  - apply Z.max_lub_lt; apply Z.log2_lt_pow2; lia.
Qed.

(** Seven low bits now, the rest seven places further up. *)
Lemma varint_split x s : 0 <= x -> 0 <= s ->
  Z.lor (Z.shiftl (Z.land x 127) s) (Z.shiftl (Z.shiftr x 7) (s + 7)) = Z.shiftl x s.
Proof.
  intros Hx Hs. apply Z.bits_inj'. intros n Hn.
  rewrite Z.lor_spec, !Z.shiftl_spec by lia.
  destruct (Z_lt_dec n s) as [Hlt|Hge].
  - rewrite !(Z.testbit_neg_r _ (n - _)) by lia. reflexivity.
  - destruct (Z_lt_dec (n - s) 7) as [Hlo|Hhi].
    + rewrite (Z.testbit_neg_r _ (n - (s + 7))) by lia.
      rewrite Z.land_spec. change 127 with (Z.ones 7).
      rewrite Z.ones_spec_low by lia. rewrite andb_true_r, orb_false_r. reflexivity.
    + rewrite Z.land_spec. change 127 with (Z.ones 7).
      rewrite Z.ones_spec_high by lia. rewrite andb_false_r. simpl.
      rewrite Z.shiftr_spec by lia. f_equal. lia.
Qed.

Lemma to_byte_small x : 0 <= x < 128 -> to_byte x = x.
Proof.
  intros H. unfold to_byte. change 255 with (Z.ones 8).
  rewrite Z.land_ones by lia. apply Z.mod_small. lia.
Qed.

Lemma to_byte_range x : 0 <= to_byte x < 256.
Proof.
  unfold to_byte. change 255 with (Z.ones 8).
  rewrite Z.land_ones by lia. apply Z.mod_pos_bound. lia.
Qed.

(** A continuation byte has its top bit set ... *)
Lemma cont_byte_ge x : 128 <= Z.lor (to_byte x) 128.
Proof.
  pose proof (to_byte_range x) as Hr.
  assert (Hb : Z.testbit (Z.lor (to_byte x) 128) 7 = true).
  { rewrite Z.lor_spec. change 128 with (2 ^ 7).
    rewrite Z.pow2_bits_true by lia. apply orb_true_r. }
  assert (0 <= Z.lor (to_byte x) 128) by (apply Z.lor_nonneg; lia).
  destruct (Z_lt_dec (Z.lor (to_byte x) 128) 128) as [Hlt|]; [|lia].
  exfalso. rewrite Z.bits_above_log2 in Hb; [discriminate|lia|].
  destruct (Z.eq_dec (Z.lor (to_byte x) 128) 0) as [E|NE].
  - rewrite E. change (Z.log2 0) with 0. lia.
  - apply Z.log2_lt_pow2; lia.
Qed.

(** ... and carries the seven low bits of [x]. *)
Lemma cont_byte_low x : Z.land (Z.lor (to_byte x) 128) 127 = Z.land x 127.
Proof.
  apply Z.bits_inj'. intros n Hn. unfold to_byte.
  rewrite !Z.land_spec, Z.lor_spec, Z.land_spec.
  change 127 with (Z.ones 7). change 255 with (Z.ones 8). change 128 with (2 ^ 7).
  destruct (Z_lt_dec n 7).
  - rewrite Z.ones_spec_low, Z.ones_spec_low, Z.pow2_bits_false by lia.
    rewrite !andb_true_r, orb_false_r. reflexivity.
  - rewrite (Z.ones_spec_high 7) by lia. rewrite !andb_false_r. reflexivity.
Qed.

(** Reading what [PutUvarint] wrote, from any iteration the value still
    fits in: the induction follows the cases of [PutUvarint]. *)
Lemma ReadUvarint_from_PutUvarint x : forall (i : nat) acc rest,
  0 <= x -> (i <= 9)%nat -> x < 2 ^ (64 - 7 * Z.of_nat i) ->
  0 <= acc < 2 ^ (7 * Z.of_nat i) ->
  ReadUvarint_from i acc (7 * Z.of_nat i) (PutUvarint x ++ rest)
  = inr (Z.lor acc (Z.shiftl x (7 * Z.of_nat i)), rest).
Proof.
  funelim (PutUvarint x); intros i acc rest Hx Hi Hlt Hacc; clear Heq Heqcall.
  - (* x < 128: the last byte *)
    rewrite to_byte_small by lia. cbn [app ReadUvarint_from].
    destruct (Nat.leb_spec MaxVarintLen64 i) as [Hle|_];
      [unfold MaxVarintLen64 in Hle; lia|].
    destruct (Z.ltb_spec x 128) as [_|]; [|lia].
    assert (Hfit : 0 <= Z.shiftl x (7 * Z.of_nat i) < 2 ^ 64).
    { rewrite Z.shiftl_mul_pow2 by lia. split; [apply Z.mul_nonneg_nonneg; lia|].
      replace (2 ^ 64) with (2 ^ (64 - 7 * Z.of_nat i) * 2 ^ (7 * Z.of_nat i)).
      - apply Z.mul_lt_mono_pos_r; lia.
      - rewrite <- Z.pow_add_r by lia. f_equal. lia. }
    replace ((i =? MaxVarintLen64 - 1)%nat && (1 <? x))%bool with false.
    + unfold uint64. rewrite Z.mod_small by lia. reflexivity.
    + symmetry. apply andb_false_iff.
      destruct (Nat.eqb_spec i (MaxVarintLen64 - 1)) as [E|]; [right|left; reflexivity].
      apply Z.ltb_ge. unfold MaxVarintLen64 in E. simpl in E. subst i.
      change (64 - 7 * Z.of_nat 9) with 1 in Hlt. lia.
  - (* x >= 128: a continuation byte *)
    cbn [app ReadUvarint_from].
    assert (Hi8 : (i <= 8)%nat).
    { destruct (Nat.eq_dec i 9%nat) as [->|]; [|lia].
      change (64 - 7 * Z.of_nat 9) with 1 in Hlt. lia. }
    destruct (Nat.leb_spec MaxVarintLen64 i) as [Hle|_];
      [unfold MaxVarintLen64 in Hle; lia|].
    pose proof (cont_byte_ge x) as Hge.
    destruct (Z.ltb_spec (Z.lor (to_byte x) 128) 128) as [|_]; [lia|].
    rewrite cont_byte_low.
    assert (Hlow : 0 <= Z.land x 127 < 2 ^ 7).
    { change 127 with (Z.ones 7). rewrite Z.land_ones by lia.
      apply Z.mod_pos_bound. lia. }
    assert (Hchunk : 0 <= Z.shiftl (Z.land x 127) (7 * Z.of_nat i)
                     < 2 ^ (7 * Z.of_nat (S i))).
    { rewrite Z.shiftl_mul_pow2 by lia. split; [apply Z.mul_nonneg_nonneg; lia|].
      replace (2 ^ (7 * Z.of_nat (S i))) with (2 ^ 7 * 2 ^ (7 * Z.of_nat i)).
      - apply Z.mul_lt_mono_pos_r; lia.
      - rewrite <- Z.pow_add_r by lia. f_equal. lia. }
    assert (Hpow : 2 ^ (7 * Z.of_nat (S i)) <= 2 ^ 64) by (apply Z.pow_le_mono_r; lia).
    unfold uint64. rewrite Z.mod_small by lia.
    replace (7 * Z.of_nat i + 7) with (7 * Z.of_nat (S i)) by lia.
    rewrite H.
    + rewrite <- Z.lor_assoc.
      replace (7 * Z.of_nat (S i)) with (7 * Z.of_nat i + 7) by lia.
      rewrite varint_split by lia. reflexivity.
    + apply Z.shiftr_nonneg. lia.
    + lia.
    + rewrite Z.shiftr_div_pow2 by lia. apply Z.div_lt_upper_bound; [lia|].
      rewrite <- Z.pow_add_r by lia.
      replace (7 + (64 - 7 * Z.of_nat (S i))) with (64 - 7 * Z.of_nat i) by lia. lia.
    + apply lor_lt_pow2; [lia| |lia].
      split; [lia|]. eapply Z.lt_le_trans; [apply Hacc|]. apply Z.pow_le_mono_r; lia.
Qed.

Lemma ReadUvarint_PutUvarint x rest :
  0 <= x < 2 ^ 64 -> ReadUvarint (PutUvarint x ++ rest) = inr (x, rest).
Proof.
  intros Hx. unfold ReadUvarint.
  pose proof (ReadUvarint_from_PutUvarint x 0%nat 0 rest) as H.
  change (7 * Z.of_nat 0) with 0 in H. rewrite H; [|lia|lia|simpl; lia|simpl; lia].
  rewrite Z.shiftl_0_r. reflexivity.
Qed.

Lemma ReadFull_app (data rest : list byte) :
  ReadFull (length data) (data ++ rest) = inr (data, rest).
Proof.
  unfold ReadFull. rewrite length_app.
  destruct (Nat.leb_spec (length data) (length data + length rest)) as [_|]; [|lia].
  rewrite take_app_length, drop_app_length. reflexivity.
Qed.

Example PutUvarint_300 : PutUvarint 300 = [172; 2].
Proof. reflexivity. Qed.

Example ReadUvarint_300 : ReadUvarint [172; 2; 9] = inr (300, [9]).
Proof. reflexivity. Qed.

Example ReadUvarint_truncated : ReadUvarint [172] = inl ErrUnexpectedEOF.
Proof. reflexivity. Qed.

(** C8. A message sent with [SendProto] is written as the unsigned varint
    of its serialised length followed by the serialised bytes, and
    [ReceiveProto], reading those bytes, returns the original message and
    leaves the reader at the first byte after the frame.  This holds for
    every message type whose protobuf codec returns what it was given,
    hence for every payload variant. *)
Theorem SendProto_ReceiveProto_roundtrip :
  forall (M : Type) (codec : ProtoCodec M), ProtoCodecLaws M ->
  forall (msg : M) (data : list byte) (a : SafeBufioRW.t),
    Marshal msg = inr data ->
    Z.of_nat (length data) <= MaxInt ->
    wr_failed a = false ->
    let frame := (PutUvarint (Z.of_nat (length data)) ++ data)%list in
    SafeBufioRW.SendProto a msg = (None, mkReadWriter (rd a) (wr a ++ frame) false) /\
    forall (b : SafeBufioRW.t) (rest : list byte),
      rd b = (frame ++ rest)%list ->
      SafeBufioRW.ReceiveProto b
      = (Received msg, mkReadWriter rest (wr b) (wr_failed b)).
Proof.
  intros M codec laws msg data a Hm Hlen Hok frame.
  unfold MaxInt in Hlen.
  assert (Hu : uint64 (Z.of_nat (length data)) = Z.of_nat (length data)).
  { unfold uint64. apply Z.mod_small. lia. }
  split.
  - unfold SafeBufioRW.SendProto, writeUvarint, rw_write.
    rewrite Hm, Hu, Hok. cbn. rewrite <- app_assoc. reflexivity.
  - intros b rest Hrd. unfold SafeBufioRW.ReceiveProto, readUvarint.
    rewrite Hrd. unfold frame. rewrite <- app_assoc.
    rewrite ReadUvarint_PutUvarint by lia.
    destruct (Z.ltb_spec MaxInt (Z.of_nat (length data))) as [Hbig|_];
      [unfold MaxInt in Hbig; lia|].
    rewrite Nat2Z.id, ReadFull_app.
    rewrite (Unmarshal_Marshal msg data Hm). reflexivity.
Qed.

Lemma SendProto_ReceiveProto_roundtrip_witness :
  let msg : list byte := repeat 7 300 in
  let frame := (PutUvarint 300 ++ msg)%list in
  SafeBufioRW.SendProto ex_rw msg = (None, mkReadWriter [] frame false) /\
  SafeBufioRW.ReceiveProto (mkReadWriter (frame ++ [1; 2])%list [] false)
  = (Received msg, mkReadWriter [1; 2] [] false).
Proof.
  intros msg frame.
  destruct (SendProto_ReceiveProto_roundtrip (list byte) raw_codec raw_codec_laws
              msg msg ex_rw eq_refl ltac:(vm_compute; discriminate) eq_refl) as [Hs Hr].
  split.
  - exact Hs.
  - exact (Hr (mkReadWriter (frame ++ [1; 2])%list [] false) [1; 2] eq_refl).
Defined.

(** ** The candidate helper *)

Lemma string_length_pos (x : string) : (0 <? String.length x)%nat = true <-> x <> "".
Proof.
  destruct x as [|a x]; cbn.
  - split; [discriminate|]. intros H. contradiction H. reflexivity.
  - split; [discriminate|reflexivity].
Qed.

Lemma AddICECandidate_fold conn (held : list ICECandidateInit) : forall p,
  fold_left (fun acc c => PeerConnection.AddICECandidate acc conn c) held p
  = mkPion (pcs p) (ice_calls p ++ map (pair conn) held) (dcs p).
Proof.
  induction held as [|c held IH]; intros p; cbn [fold_left map].
  - rewrite app_nil_r. destruct p; reflexivity.
  - rewrite IH. unfold PeerConnection.AddICECandidate. cbn.
    rewrite <- app_assoc. reflexivity.
Qed.

Lemma FlushHeldCandidates_attached ice p conn :
  ICEHelper.pc ice = Some conn ->
  ICEHelper.FlushHeldCandidates ice p
  = (ICEHelper.mk [] (Some conn),
     mkPion (pcs p) (ice_calls p ++ map (pair conn) (ICEHelper.candidates ice)) (dcs p)).
Proof.
  intros Hpc. unfold ICEHelper.FlushHeldCandidates. rewrite Hpc.
  destruct ice as [cands pc0]. cbn in *. subst pc0.
  destruct cands as [|c cands].
  - cbn. rewrite app_nil_r. destruct p; reflexivity.
  - cbn [length Nat.ltb Nat.leb]. rewrite AddICECandidate_fold. reflexivity.
Qed.

Lemma FlushHeldCandidates_detached ice p :
  ICEHelper.pc ice = None -> ICEHelper.FlushHeldCandidates ice p = (ice, p).
Proof. intros Hpc. unfold ICEHelper.FlushHeldCandidates. rewrite Hpc. reflexivity. Qed.

Lemma FlushHeldCandidates_empty ice p :
  ICEHelper.candidates ice = [] -> ICEHelper.FlushHeldCandidates ice p = (ice, p).
Proof.
  intros Hc. unfold ICEHelper.FlushHeldCandidates. rewrite Hc.
  destruct (ICEHelper.pc ice); reflexivity.
Qed.

Lemma applied_app p conn l :
  applied (mkPion (pcs p) (ice_calls p ++ map (pair conn) l) (dcs p)) = (applied p ++ l)%list.
Proof.
  unfold applied. cbn. rewrite map_app, map_map. cbn. rewrite map_id. reflexivity.
Qed.

(** Only [SetPeerConnection] changes whether a connection is attached. *)
Lemma ice_step_attached op ice p :
  is_attached (fst (ice_step op (ice, p)))
  = match op with
    | Op_SetPeerConnection pc => match pc with Some _ => true | None => false end
    | _ => is_attached ice
    end.
Proof.
  destruct op as [c| |pc|pc sd|pc]; cbn; try reflexivity.
  - unfold ICEHelper.AddCandidate, is_attached.
    destruct (ICEHelper.pc ice) as [conn|] eqn:Hpc; [|cbn; rewrite ?Hpc; reflexivity].
    destruct (PeerConnection.GetRemoteDescription p conn).
    + rewrite (FlushHeldCandidates_attached _ _ conn Hpc). reflexivity.
    + reflexivity.
  - unfold is_attached.
    destruct (ICEHelper.pc ice) as [conn|] eqn:Hpc.
    + rewrite (FlushHeldCandidates_attached _ _ conn Hpc). reflexivity.
    + rewrite (FlushHeldCandidates_detached _ _ Hpc). cbn. rewrite ?Hpc. reflexivity.
Qed.

(** One operation moves candidates between "delivered", "held" and
    "applied" and neither duplicates nor invents one. *)
Lemma ice_step_account op ice p :
  applied (snd (ice_step op (ice, p))) ++ ICEHelper.candidates (fst (ice_step op (ice, p)))
  ≡ₚ applied p ++ ICEHelper.candidates ice ++ delivered_attached [op] (is_attached ice).
Proof.
  destruct op as [c| |pc|pc sd|pc]; cbn [ice_step delivered_attached fst snd].
  - unfold ICEHelper.AddCandidate, is_attached.
    destruct (ICEHelper.pc ice) as [conn|] eqn:Hpc.
    + destruct (PeerConnection.GetRemoteDescription p conn).
      * rewrite (FlushHeldCandidates_attached _ _ conn Hpc). cbn [fst snd ICEHelper.candidates].
        unfold applied, PeerConnection.AddICECandidate. cbn [pcs dcs ice_calls].
        rewrite !map_app, !map_map. cbn [snd map]. rewrite map_id.
        rewrite app_nil_r, <- !app_assoc. apply Permutation_app_head, Permutation_app_comm.
      * cbn. reflexivity.
    + cbn. rewrite !app_nil_r. reflexivity.
  - unfold is_attached. destruct (ICEHelper.pc ice) as [conn|] eqn:Hpc.
    + rewrite (FlushHeldCandidates_attached _ _ conn Hpc). cbn [fst snd ICEHelper.candidates].
      rewrite applied_app, !app_nil_r. reflexivity.
    + rewrite (FlushHeldCandidates_detached _ _ Hpc). cbn. rewrite app_nil_r. reflexivity.
  - destruct pc; cbn; rewrite app_nil_r; reflexivity.
  - destruct (is_attached ice); cbn; rewrite app_nil_r; reflexivity.
  - destruct (is_attached ice); cbn; rewrite app_nil_r; reflexivity.
Qed.

Lemma delivered_attached_cons op rest ice p :
  delivered_attached (op :: rest) (is_attached ice)
  = (delivered_attached [op] (is_attached ice)
     ++ delivered_attached rest (is_attached (fst (ice_step op (ice, p)))))%list.
Proof.
  rewrite ice_step_attached.
  destruct op as [c| |pc|pc sd|pc]; cbn [delivered_attached]; try reflexivity.
  destruct (is_attached ice); reflexivity.
Qed.

Lemma ice_run_account ops : forall ice p,
  applied (snd (ice_run ops (ice, p))) ++ ICEHelper.candidates (fst (ice_run ops (ice, p)))
  ≡ₚ applied p ++ ICEHelper.candidates ice ++ delivered_attached ops (is_attached ice).
Proof.
  induction ops as [|op rest IH]; intros ice p.
  - cbn. rewrite app_nil_r. reflexivity.
  - change (ice_run (op :: rest) (ice, p)) with (ice_run rest (ice_step op (ice, p))).
    destruct (ice_step op (ice, p)) as [ice1 p1] eqn:Hstep.
    rewrite IH.
    rewrite (delivered_attached_cons op rest ice p), Hstep. cbn [fst].
    pose proof (ice_step_account op ice p) as Hacc.
    rewrite Hstep in Hacc. cbn [fst snd] in Hacc.
    rewrite app_assoc, Hacc, <- !app_assoc. reflexivity.
Qed.

(** The helper's invariant: established by [NewICEHelper], kept by every
    operation of a history that never detaches the connection. *)
Lemma NewICEHelper_wf pc : ICEHelper_wf (ICEHelper.NewICEHelper pc).
Proof. intros _. reflexivity. Qed.

Lemma ice_step_wf op ice p :
  attaches_only op -> ICEHelper_wf ice -> ICEHelper_wf (fst (ice_step op (ice, p))).
Proof.
  intros Hop Hwf. destruct op as [c| |pc|pc sd|pc]; cbn [ice_step fst]; try exact Hwf.
  - unfold ICEHelper.AddCandidate.
    destruct (ICEHelper.pc ice) as [conn|] eqn:Hpc; [|exact Hwf].
    destruct (PeerConnection.GetRemoteDescription p conn).
    + rewrite (FlushHeldCandidates_attached _ _ conn Hpc). intros _. reflexivity.
    + intros Hnone. cbn in Hnone. congruence.
  - destruct (ICEHelper.pc ice) as [conn|] eqn:Hpc.
    + rewrite (FlushHeldCandidates_attached _ _ conn Hpc). intros _. reflexivity.
    + rewrite (FlushHeldCandidates_detached _ _ Hpc). exact Hwf.
  - destruct pc as [conn|]; [|contradiction]. intros Hnone. cbn in Hnone. discriminate.
Qed.

Lemma ice_run_wf ops : forall ice p,
  Forall attaches_only ops -> ICEHelper_wf ice -> ICEHelper_wf (fst (ice_run ops (ice, p))).
Proof.
  induction ops as [|op rest IH]; intros ice p Hops Hwf; [exact Hwf|].
  inversion Hops as [|? ? Hop Hrest]; subst.
  change (ice_run (op :: rest) (ice, p)) with (ice_run rest (ice_step op (ice, p))).
  pose proof (ice_step_wf op ice p Hop Hwf) as Hwf1.
  destruct (ice_step op (ice, p)) as [ice1 p1]. apply IH; assumption.
Qed.

Lemma AddCandidate_wf ice p c :
  ICEHelper_wf ice -> ICEHelper_wf (fst (ICEHelper.AddCandidate ice p c)).
Proof. intros Hwf. exact (ice_step_wf (Op_AddCandidate c) ice p I Hwf). Qed.

Lemma FlushHeldCandidates_wf ice p :
  ICEHelper_wf ice -> ICEHelper_wf (fst (ICEHelper.FlushHeldCandidates ice p)).
Proof. intros Hwf. exact (ice_step_wf Op_FlushHeldCandidates ice p I Hwf). Qed.

Lemma SetPeerConnection_wf ice pc :
  ICEHelper_wf (ICEHelper.SetPeerConnection ice (Some pc)).
Proof. intros Hnone. discriminate Hnone. Qed.

(** Case analysis on every test a handler iteration makes. *)
Ltac handler_cases := repeat case_match.

(** The helper of a stream, traced back to the call that produced it. *)
Ltac helper_from_call Hwf :=
  match goal with
  | H : ICEHelper.AddCandidate ?i ?p ?c = (?i', _) |- ICEHelper_wf ?i' =>
      replace i' with (fst (ICEHelper.AddCandidate i p c)) by (rewrite H; reflexivity);
      apply AddCandidate_wf, Hwf
  | H : ICEHelper.FlushHeldCandidates ?i ?p = (?i', _) |- ICEHelper_wf ?i' =>
      replace i' with (fst (ICEHelper.FlushHeldCandidates i p)) by (rewrite H; reflexivity);
      apply FlushHeldCandidates_wf; first [exact Hwf | apply SetPeerConnection_wf]
  end.

(** Both stream handlers keep the invariant of their helper, iteration
    after iteration. *)
Lemma handleStreamPush_iteration_keeps_wf env recv l w s l' w' s' :
  ICEHelper_wf (StreamProtocol.push_iceHelper l) ->
  StreamProtocol.handleStreamPush_iteration env recv l w s = Continue l' w' s' ->
  ICEHelper_wf (StreamProtocol.push_iceHelper l').
Proof.
  intros Hwf Hrun.
  unfold StreamProtocol.handleStreamPush_iteration, StreamProtocol.push_stream_room,
    StreamProtocol.push_ice_candidate, StreamProtocol.push_offer in Hrun.
  cbn [CreateMessage] in Hrun.
  handler_cases; try discriminate; inversion Hrun; subst; clear Hrun;
    cbn [StreamProtocol.push_iceHelper]; try exact Hwf;
    try apply SetPeerConnection_wf.
  all: helper_from_call Hwf.
Qed.

Lemma handleStreamRequest_iteration_keeps_wf env recv l w s l' w' s' :
  ICEHelper_wf (StreamProtocol.request_iceHelper l) ->
  StreamProtocol.handleStreamRequest_iteration env recv l w s = Continue l' w' s' ->
  ICEHelper_wf (StreamProtocol.request_iceHelper l').
Proof.
  intros Hwf Hrun.
  unfold StreamProtocol.handleStreamRequest_iteration, StreamProtocol.request_stream_room,
    StreamProtocol.request_serve, StreamProtocol.request_ice_candidate,
    StreamProtocol.request_answer in Hrun.
  cbn [CreateMessage] in Hrun.
  handler_cases; try discriminate; inversion Hrun; subst; clear Hrun;
    cbn [StreamProtocol.request_iceHelper]; try exact Hwf;
    try apply SetPeerConnection_wf.
  all: helper_from_call Hwf.
Qed.

Lemma handleStreamPush_keeps_wf frames : forall l w s l' w' s',
  ICEHelper_wf (StreamProtocol.push_iceHelper l) ->
  StreamProtocol.run_handler StreamProtocol.handleStreamPush_iteration frames l w s
  = StreamProtocol.Receiving l' w' s' ->
  ICEHelper_wf (StreamProtocol.push_iceHelper l').
Proof.
  induction frames as [|[env recv] rest IH]; intros l w s l' w' s' Hwf Hrun.
  - cbn in Hrun. inversion Hrun; subst. exact Hwf.
  - cbn [StreamProtocol.run_handler] in Hrun.
    destruct (StreamProtocol.handleStreamPush_iteration env recv l w s)
      as [l1 w1 s1| |] eqn:Hit; try discriminate.
    eapply IH; [|exact Hrun].
    eapply handleStreamPush_iteration_keeps_wf; eassumption.
Qed.

Lemma handleStreamRequest_keeps_wf frames : forall l w s l' w' s',
  ICEHelper_wf (StreamProtocol.request_iceHelper l) ->
  StreamProtocol.run_handler StreamProtocol.handleStreamRequest_iteration frames l w s
  = StreamProtocol.Receiving l' w' s' ->
  ICEHelper_wf (StreamProtocol.request_iceHelper l').
Proof.
  induction frames as [|[env recv] rest IH]; intros l w s l' w' s' Hwf Hrun.
  - cbn in Hrun. inversion Hrun; subst. exact Hwf.
  - cbn [StreamProtocol.run_handler] in Hrun.
    destruct (StreamProtocol.handleStreamRequest_iteration env recv l w s)
      as [l1 w1 s1| |] eqn:Hit; try discriminate.
    eapply IH; [|exact Hrun].
    eapply handleStreamRequest_iteration_keeps_wf; eassumption.
Qed.

Example AddCandidate_holds_until_remote :
  ICEHelper.AddCandidate (ICEHelper.mk [] (Some 0%nat)) ex_pion1 ex_candidate
  = (ICEHelper.mk [ex_candidate] (Some 0%nat), ex_pion1).
Proof. reflexivity. Qed.

Example AddCandidate_after_remote_applies :
  applied (snd (ICEHelper.AddCandidate (ICEHelper.mk [ex_candidate] (Some 0%nat))
                  (PeerConnection.SetRemoteDescription ex_pion1 0%nat ex_offer) ex_candidate2))
  = [ex_candidate2; ex_candidate].
Proof. reflexivity. Qed.

(** C3, as the code has it.  A candidate delivered while a peer connection
    is attached to the helper and its remote description is not yet set is
    appended to the held list and nothing is applied; a flush hands every
    held candidate to the connection once, in order, and empties the list;
    and over any history of the helper the candidates applied together
    with those still held are, as a multiset, the candidates applied and
    held at the start plus those delivered while a connection was
    attached: a delivered candidate is applied once or not at all, never
    twice.  The request handler runs that flush as soon as the answer has
    installed the remote description. *)
Theorem ICEHelper_buffers_then_applies_once :
  (forall ice p conn c,
      ICEHelper.pc ice = Some conn ->
      PeerConnection.GetRemoteDescription p conn = None ->
      ICEHelper.AddCandidate ice p c
      = (ICEHelper.mk (ICEHelper.candidates ice ++ [c]) (Some conn), p)) /\
  (forall ice p conn,
      ICEHelper.pc ice = Some conn ->
      ICEHelper.FlushHeldCandidates ice p
      = (ICEHelper.mk [] (Some conn),
         mkPion (pcs p) (ice_calls p ++ map (pair conn) (ICEHelper.candidates ice)) (dcs p))) /\
  (forall ops ice p,
      applied (snd (ice_run ops (ice, p))) ++ ICEHelper.candidates (fst (ice_run ops (ice, p)))
      ≡ₚ applied p ++ ICEHelper.candidates ice ++ delivered_attached ops (is_attached ice)) /\
  (forall env msgWrapper answerMsg sd l w s roomMap conn pc,
      GetSdp msgWrapper = Some answerMsg ->
      sdp_Sdp answerMsg = Some sd ->
      StreamProtocol.currentRoomName l <> "" ->
      servedConns w !! StreamProtocol.currentRoomName l = Some roomMap ->
      roomMap !! RemotePeer s = Some conn ->
      SetRemoteDescription_fails env = false ->
      ICEHelper.pc (StreamProtocol.request_iceHelper l) = Some pc ->
      exists l' w',
        StreamProtocol.request_answer env msgWrapper l w s = Continue l' w' s /\
        ICEHelper.candidates (StreamProtocol.request_iceHelper l') = [] /\
        ice_calls (pion w')
        = (ice_calls (pion w)
           ++ map (pair pc) (ICEHelper.candidates (StreamProtocol.request_iceHelper l)))%list).
Proof.
  split; [|split; [|split]].
  - intros ice p conn c Hpc Hrd. unfold ICEHelper.AddCandidate.
    rewrite Hpc, Hrd. reflexivity.
  - intros ice p conn Hpc. apply FlushHeldCandidates_attached, Hpc.
  - intros ops ice p. apply ice_run_account.
  - intros env msgWrapper answerMsg sd l w s roomMap conn pc
      Hsdp Hsd Hname Hmap Hconn Hok Hpc.
    unfold StreamProtocol.request_answer. rewrite Hsdp, Hsd.
    apply string_length_pos in Hname. rewrite Hname, Hmap, Hconn, Hok.
    rewrite (FlushHeldCandidates_attached _ _ pc Hpc).
    eexists _, _. split; [reflexivity|]. split; reflexivity.
Qed.

Lemma ICEHelper_buffers_then_applies_once_witness :
  ICEHelper.AddCandidate (ICEHelper.mk [ex_candidate] (Some 0%nat)) ex_pion1 ex_candidate2
  = (ICEHelper.mk [ex_candidate; ex_candidate2] (Some 0%nat), ex_pion1) /\
  ICEHelper.FlushHeldCandidates (ICEHelper.mk [ex_candidate; ex_candidate2] (Some 0%nat)) ex_pion1
  = (ICEHelper.mk [] (Some 0%nat),
     mkPion (pcs ex_pion1) [(0%nat, ex_candidate); (0%nat, ex_candidate2)] (dcs ex_pion1)).
Proof.
  destruct ICEHelper_buffers_then_applies_once as (Hbuf & Hflush & _ & _).
  split.
  - exact (Hbuf (ICEHelper.mk [ex_candidate] (Some 0%nat)) ex_pion1 0%nat ex_candidate2
             eq_refl eq_refl).
  - exact (Hflush (ICEHelper.mk [ex_candidate; ex_candidate2] (Some 0%nat)) ex_pion1 0%nat
             eq_refl).
Defined.

(** A candidate that reaches the helper before any peer connection is
    attached is neither held nor applied.  Both handlers start with
    [NewICEHelper(nil)]: on a push stream, an ice-candidate frame that
    precedes the offer is lost, and the remote description installed by
    the offer finds nothing to flush. *)
Lemma candidate_before_connection_is_dropped :
  ~ remote_description_set (ICEHelper.NewICEHelper None) ex_pion /\
  ICEHelper.AddCandidate (ICEHelper.NewICEHelper None) ex_pion ex_candidate
  = (ICEHelper.NewICEHelper None, ex_pion) /\
  exists l w s,
    StreamProtocol.handleStreamPush
      [(ex_env, Received (ex_push_frame "alpha"));
       (ex_env, Received (ex_ice_frame (Some 0)));
       (ex_env, Received ex_offer_frame)] ex_world ex_stream
    = StreamProtocol.Receiving l w s /\
    remote_description_set (StreamProtocol.push_iceHelper l) (pion w) /\
    applied (pion w) = [] /\
    ICEHelper.candidates (StreamProtocol.push_iceHelper l) = [].
Proof.
  split; [|split].
  - intros (conn & sd & Hpc & _). discriminate Hpc.
  - reflexivity.
  - eexists _, _, _. split; [vm_compute; reflexivity|].
    split; [|split; reflexivity].
    exists 0%nat, (mkSessionDescription SDPTypeOffer "v=0 offer").
    split; vm_compute; reflexivity.
Qed.

(** C9. Flushing an empty held list changes neither the helper nor the
    connections and applies nothing; flushing twice is flushing once; a
    helper that holds candidates only while a connection is attached (as
    every helper built by [NewICEHelper] and used by the handlers does)
    holds nothing after a flush; and a candidate added once the remote
    description is set is handed to the connection at once, ahead of the
    held ones, and the held list is empty afterwards. *)
Theorem ICEHelper_flush_idempotent :
  (forall ice p,
      ICEHelper.candidates ice = [] -> ICEHelper.FlushHeldCandidates ice p = (ice, p)) /\
  (forall ice p,
      let '(ice1, p1) := ICEHelper.FlushHeldCandidates ice p in
      ICEHelper.FlushHeldCandidates ice1 p1 = (ice1, p1)) /\
  (forall ice p,
      ICEHelper_wf ice ->
      ICEHelper.candidates (fst (ICEHelper.FlushHeldCandidates ice p)) = []) /\
  (forall ice p conn sd c,
      ICEHelper.pc ice = Some conn ->
      PeerConnection.GetRemoteDescription p conn = Some sd ->
      ICEHelper.AddCandidate ice p c
      = (ICEHelper.mk [] (Some conn),
         mkPion (pcs p)
           (ice_calls p ++ (conn, c) :: map (pair conn) (ICEHelper.candidates ice))
           (dcs p))).
Proof.
  split; [|split; [|split]].
  - intros ice p Hc. apply FlushHeldCandidates_empty, Hc.
  - intros ice p.
    destruct (ICEHelper.pc ice) as [conn|] eqn:Hpc.
    + rewrite (FlushHeldCandidates_attached _ _ conn Hpc).
      apply FlushHeldCandidates_empty. reflexivity.
    + rewrite (FlushHeldCandidates_detached _ _ Hpc).
      apply FlushHeldCandidates_detached, Hpc.
  - intros ice p Hwf.
    destruct (ICEHelper.pc ice) as [conn|] eqn:Hpc.
    + rewrite (FlushHeldCandidates_attached _ _ conn Hpc). reflexivity.
    + rewrite (FlushHeldCandidates_detached _ _ Hpc). apply Hwf, Hpc.
  - intros ice p conn sd c Hpc Hrd. unfold ICEHelper.AddCandidate.
    rewrite Hpc, Hrd. rewrite (FlushHeldCandidates_attached _ _ conn Hpc).
    unfold PeerConnection.AddICECandidate. cbn [pcs dcs ice_calls].
    rewrite <- app_assoc. reflexivity.
Qed.

Lemma ICEHelper_flush_idempotent_witness :
  ICEHelper.FlushHeldCandidates (ICEHelper.NewICEHelper (Some 0%nat)) ex_pion1
  = (ICEHelper.NewICEHelper (Some 0%nat), ex_pion1) /\
  ICEHelper.candidates
    (fst (ICEHelper.FlushHeldCandidates (ICEHelper.mk [ex_candidate] (Some 0%nat)) ex_pion1))
  = [] /\
  ICEHelper.AddCandidate (ICEHelper.mk [ex_candidate] (Some 0%nat))
    (PeerConnection.SetRemoteDescription ex_pion1 0%nat ex_offer) ex_candidate2
  = (ICEHelper.mk [] (Some 0%nat),
     mkPion (pcs (PeerConnection.SetRemoteDescription ex_pion1 0%nat ex_offer))
       [(0%nat, ex_candidate2); (0%nat, ex_candidate)]
       (dcs ex_pion1)).
Proof.
  destruct ICEHelper_flush_idempotent as (Hempty & _ & Hafter & Hdirect).
  split; [|split].
  - exact (Hempty (ICEHelper.NewICEHelper (Some 0%nat)) ex_pion1 eq_refl).
  - refine (Hafter (ICEHelper.mk [ex_candidate] (Some 0%nat)) ex_pion1 _).
    intros Hpc. discriminate Hpc.
  - exact (Hdirect (ICEHelper.mk [ex_candidate] (Some 0%nat))
             (PeerConnection.SetRemoteDescription ex_pion1 0%nat ex_offer)
             0%nat ex_offer ex_candidate2 eq_refl eq_refl).
Defined.

(** ** The data-channel router *)

Example OnMessage_input :
  @NestriDataChannel.OnMessage ex_codec ex_ndc (mkDataChannelMessage false [1])
  = (ex_ndc, [(ForwardInputUpstream "01ROOM", [1])]).
Proof. reflexivity. Qed.

Example OnMessage_unregistered :
  @NestriDataChannel.OnMessage ex_codec ex_ndc (mkDataChannelMessage false [3]) = (ex_ndc, []).
Proof. reflexivity. Qed.

Example OnMessage_empty_kind :
  @NestriDataChannel.OnMessage ex_codec ex_ndc (mkDataChannelMessage false [4]) = (ex_ndc, []).
Proof. reflexivity. Qed.

(** C10. The message handler of a data channel leaves the channel and its
    callback table as they were and returns nothing to the sender; the
    only thing it can do is start one callback.  It starts a callback,
    with the message bytes, only for a binary message that decodes, has a
    header, and whose (non-empty) payload type has a callback registered,
    and then it starts that one; a string message, an undecodable one, one
    without header and one whose payload type has no callback start
    nothing. *)
Theorem OnMessage_routes_registered_only :
  forall (codec : ProtoCodec ProtoMessage) (ndc : NestriDataChannel.t)
         (msg : DataChannelMessage),
    let started := snd (NestriDataChannel.OnMessage ndc msg) in
    fst (NestriDataChannel.OnMessage ndc msg) = ndc /\
    (forall cb data, In (cb, data) started ->
       IsString msg = false /\ data = Data msg /\
       exists base mb,
         Unmarshal (Data msg) = inr base /\ MessageBase base = Some mb /\
         PayloadType mb <> "" /\
         NestriDataChannel.callbacks ndc !! PayloadType mb = Some cb) /\
    (forall base mb cb,
       IsString msg = false -> Unmarshal (Data msg) = inr base ->
       MessageBase base = Some mb -> PayloadType mb <> "" ->
       NestriDataChannel.callbacks ndc !! PayloadType mb = Some cb ->
       started = [(cb, Data msg)]) /\
    (IsString msg = true -> started = []) /\
    (forall err, Unmarshal (Data msg) = inl err -> started = []) /\
    (forall base, Unmarshal (Data msg) = inr base -> MessageBase base = None ->
       started = []) /\
    (forall base mb, Unmarshal (Data msg) = inr base -> MessageBase base = Some mb ->
       NestriDataChannel.callbacks ndc !! PayloadType mb = None -> started = []).
Proof.
  intros codec ndc msg started. subst started.
  unfold NestriDataChannel.OnMessage.
  destruct (IsString msg) eqn:Hs.
  { cbn. repeat split; try reflexivity; try discriminate; intros; contradiction. }
  destruct (Unmarshal (Data msg)) as [err|base] eqn:Hu.
  { cbn. repeat split; try reflexivity; try discriminate; intros; contradiction. }
  destruct (MessageBase base) as [mb|] eqn:Hb.
  2:{ cbn. repeat split; try reflexivity; try discriminate; try (intros; contradiction).
      intros b m c _ Hb' Hm. inversion Hb'; subst. congruence. }
  destruct (0 <? String.length (PayloadType mb))%nat eqn:Hl.
  2:{ cbn. repeat split; try reflexivity; try discriminate; try (intros; contradiction).
      intros b m c _ Hb' Hm Hne. inversion Hb'; subst.
      assert (m = mb) by congruence. subst m.
      apply string_length_pos in Hne. congruence. }
  apply string_length_pos in Hl.
  destruct (NestriDataChannel.callbacks ndc !! PayloadType mb) as [cb|] eqn:Hc.
  - cbn. repeat split; try reflexivity; try discriminate.
    + destruct H as [H|[]]. congruence.
    + destruct H as [H|[]]. inversion H; subst.
      exists base, mb. repeat split; assumption.
    + intros b m c _ Hb' Hm _ Hc'. inversion Hb'; subst.
      assert (m = mb) by congruence. subst m. congruence.
    + intros b Hb' Hnone. inversion Hb'; subst. congruence.
    + intros b m Hb' Hm Hnone. inversion Hb'; subst.
      assert (m = mb) by congruence. subst m. congruence.
  - cbn. repeat split; try reflexivity; try discriminate; try (intros; contradiction).
    intros b m c _ Hb' Hm _ Hc'. inversion Hb'; subst.
    assert (m = mb) by congruence. subst m. congruence.
Qed.

Lemma OnMessage_routes_registered_only_witness :
  snd (@NestriDataChannel.OnMessage ex_codec ex_ndc (mkDataChannelMessage false [1]))
  = [(ForwardInputUpstream "01ROOM", [1])] /\
  snd (@NestriDataChannel.OnMessage ex_codec ex_ndc (mkDataChannelMessage true [1])) = [] /\
  snd (@NestriDataChannel.OnMessage ex_codec ex_ndc (mkDataChannelMessage false [9])) = [] /\
  snd (@NestriDataChannel.OnMessage ex_codec ex_ndc (mkDataChannelMessage false [2])) = [] /\
  snd (@NestriDataChannel.OnMessage ex_codec ex_ndc (mkDataChannelMessage false [3])) = [].
Proof.
  split; [|split; [|split; [|split]]].
  - destruct (OnMessage_routes_registered_only ex_codec ex_ndc (mkDataChannelMessage false [1]))
      as (_ & _ & Hrun & _).
    exact (Hrun (frame "input" (Payload_Raw (mkProtoRaw "key")))
             (mkProtoMessageBase "input" None) (ForwardInputUpstream "01ROOM")
             eq_refl eq_refl eq_refl ltac:(discriminate) eq_refl).
  - destruct (OnMessage_routes_registered_only ex_codec ex_ndc (mkDataChannelMessage true [1]))
      as (_ & _ & _ & Hstr & _).
    exact (Hstr eq_refl).
  - destruct (OnMessage_routes_registered_only ex_codec ex_ndc (mkDataChannelMessage false [9]))
      as (_ & _ & _ & _ & Hdec & _).
    exact (Hdec ErrUnmarshal eq_refl).
  - destruct (OnMessage_routes_registered_only ex_codec ex_ndc (mkDataChannelMessage false [2]))
      as (_ & _ & _ & _ & _ & Hhdr & _).
    exact (Hhdr (mkProtoMessage None (Some (Payload_Raw (mkProtoRaw "key")))) eq_refl eq_refl).
  - destruct (OnMessage_routes_registered_only ex_codec ex_ndc (mkDataChannelMessage false [3]))
      as (_ & _ & _ & _ & _ & _ & Hunreg).
    exact (Hunreg (frame "rumble" (Payload_Raw (mkProtoRaw "left")))
             (mkProtoMessageBase "rumble" None) eq_refl eq_refl eq_refl).
Defined.

(** ** The fan-out *)

Lemma Pool_Get_chans f : chans (snd (Pool_Get f)) = chans f.
Proof. unfold Pool_Get. destruct (participantPacketPool f); reflexivity. Qed.

Lemma slice_open_ext f f' channels :
  (forall ch c, chans f !! ch = Some c ->
     exists c', chans f' !! ch = Some c' /\ closed c' = closed c) ->
  slice_open f channels -> slice_open f' channels.
Proof.
  intros Hext Hopen. unfold slice_open in *. rewrite Forall_forall in *.
  intros ch Hin. destruct (Hopen ch Hin) as (c & Hc & Hcl).
  destruct (Hext ch c Hc) as (c' & Hc' & Hcl'). exists c'. split; [assumption|congruence].
Qed.




Lemma replicate_snoc_min {A} (x : A) (l : list A) k room :
  (0 < room)%nat ->
  ((l ++ [x]) ++ replicate (Nat.min k (room - 1)) x
   = l ++ replicate (Nat.min (S k) room) x)%list.
Proof.
  intros Hroom. rewrite <- app_assoc. f_equal.
  replace (Nat.min (S k) room) with (S (Nat.min k (room - 1))) by lia.
  reflexivity.
Qed.

(** The loop over the slice, by induction on the slice: the trace has the
    shape of one attempt per entry, and each queue ends with as many
    copies of the packet appended as it had entries and room for. *)
Lemma BroadcastPacket_range_spec kind pkt channels : forall f,
  slice_open f channels ->
  exists f' evs,
    Room.BroadcastPacket_range f channels kind pkt = Done (f', evs) /\
    broadcast_trace (mkparticipantPacket kind (Some pkt)) channels evs /\
    (forall ch c, chans f !! ch = Some c ->
       chans f' !! ch
       = Some (mkChan (buf c ++ replicate (took channels ch c)
                                  (mkparticipantPacket kind (Some pkt)))
                 (cap c) (closed c))) /\
    (forall ch, chans f !! ch = None -> chans f' !! ch = None).
Proof.
  induction channels as [|ch0 rest IH]; intros f Hopen.
  - exists f, []. cbn. split; [reflexivity|]. split; [constructor|]. split.
    + intros ch c Hc. unfold took. cbn. rewrite app_nil_r. destruct c; exact Hc.
    + auto.
  - inversion Hopen as [|? ? (c0 & Hc0 & Hcl0) Hrest]; subst.
    cbn [Room.BroadcastPacket_range].
    destruct (Pool_Get f) as [stale f1] eqn:Hget.
    assert (Hch1 : chans f1 = chans f).
    { pose proof (Pool_Get_chans f) as E. rewrite Hget in E. exact E. }
    set (pp := mkparticipantPacket kind (Some pkt)).
    unfold try_send. rewrite Hch1, Hc0, Hcl0.
    destruct (Nat.ltb_spec (length (buf c0)) (cap c0)) as [Hroom|Hfull].
    + (* room in the queue: the packet is enqueued *)
      set (f2 := mkFanout (<[ch0 := mkChan (buf c0 ++ [pp]) (cap c0) false]> (chans f))
                   (participantPacketPool f1)).
      assert (Hopen2 : slice_open f2 rest).
      { apply (slice_open_ext f); [|exact Hrest].
        intros ch c Hc. unfold f2. cbn [chans].
        destruct (decide (ch = ch0)) as [->|Hne].
        - rewrite lookup_insert_eq. eexists. split; [reflexivity|]. cbn. congruence.
        - rewrite lookup_insert_ne by congruence. eauto. }
      destruct (IH f2 Hopen2) as (f' & evs & Hrun & Htr & Hq & Hnone).
      exists f', (PoolGet :: TrySend ch0 pp true :: evs).
      rewrite Hrun. split; [reflexivity|]. split; [constructor; exact Htr|]. split.
      * intros ch c Hc. unfold took. cbn [count_occ].
        destruct (decide (ch = ch0)) as [->|Hne].
        -- assert (c = c0) by congruence. subst c.
           rewrite (Hq ch0 (mkChan (buf c0 ++ [pp]) (cap c0) false)).
           2:{ unfold f2. cbn [chans]. apply lookup_insert_eq. }
           destruct (Nat.eq_dec ch0 ch0) as [_|]; [|contradiction].
           unfold took. cbn [buf cap closed]. rewrite length_app. cbn [length].
           replace (cap c0 - (length (buf c0) + 1))%nat
             with (cap c0 - length (buf c0) - 1)%nat by lia.
           rewrite replicate_snoc_min by lia. rewrite Hcl0. reflexivity.
        -- destruct (Nat.eq_dec ch0 ch) as [E|_]; [congruence|].
           apply (Hq ch c). unfold f2. cbn [chans].
           rewrite lookup_insert_ne by congruence. exact Hc.
      * intros ch Hc. apply Hnone. unfold f2. cbn [chans].
        rewrite lookup_insert_ne; [exact Hc|]. congruence.
    + (* the queue is full: the wrapper goes back to the pool *)
      assert (Hopen2 : slice_open (Pool_Put f1 pp) rest).
      { apply (slice_open_ext f); [|exact Hrest].
        intros ch c Hc. cbn [Pool_Put chans]. rewrite Hch1. eauto. }
      destruct (IH (Pool_Put f1 pp) Hopen2) as (f' & evs & Hrun & Htr & Hq & Hnone).
      exists f', (PoolGet :: TrySend ch0 pp false :: PoolPut pp :: evs).
      rewrite Hrun. split; [reflexivity|]. split; [constructor; exact Htr|]. split.
      * intros ch c Hc.
        rewrite (Hq ch c) by (cbn [Pool_Put chans]; rewrite Hch1; exact Hc).
        unfold took. cbn [count_occ].
        destruct (Nat.eq_dec ch0 ch) as [E|_]; [|reflexivity].
        subst ch. assert (c = c0) by congruence. subst c.
        replace (cap c0 - length (buf c0))%nat with 0%nat by lia.
        rewrite !Nat.min_0_r. reflexivity.
      * intros ch Hc. apply Hnone. cbn [Pool_Put chans]. rewrite Hch1. exact Hc.
Qed.





(** The queue of a new participant is a channel nobody had, empty, open
    and a thousand deep. *)
Lemma NewParticipant_queue id sessionID peerID f p f' :
  Participant.NewParticipant (Some id) sessionID peerID f = (Some p, f') ->
  chans f !! Participant.packetQueue p = None /\
  chans f' !! Participant.packetQueue p = Some (mkChan [] 1000 false) /\
  Participant.ID p = id.
Proof.
  unfold Participant.NewParticipant, make_chan. intros H. inversion H; subst; clear H.
  cbn. split; [|split; [apply lookup_insert_eq|reflexivity]].
  apply not_elem_of_dom, is_fresh.
Qed.

(** Removing a participant and then closing it, the order the connection
    state callback uses, keeps every channel of the slice open. *)
Lemma Remove_then_Close_keeps_slice_open r f pi id p :
  Room.Participants r !! id = Some p ->
  slice_open f (Room.participantChannels r) ->
  slice_open (snd (fst (Participant.Close p f pi)))
    (Room.participantChannels (Room.RemoveParticipantByID r id)).
Proof.
  intros Hp Hopen. unfold Room.RemoveParticipantByID. rewrite Hp.
  cbn [Room.participantChannels Room.set_participants Participant.Close fst snd].
  unfold slice_open in *. rewrite List.Forall_forall in *.
  intros ch Hin. apply filter_In in Hin. destruct Hin as [Hin Hne].
  apply negb_true_iff, Nat.eqb_neq in Hne.
  destruct (Hopen ch Hin) as (c & Hc & Hcl).
  destruct (Participant.closeOnce p); [eauto|].
  unfold close_chan. cbn [chans]. rewrite lookup_alter_ne by congruence. eauto.
Qed.

Lemma AddParticipant_keeps_slice_open r f p c :
  chans f !! Participant.packetQueue p = Some c -> closed c = false ->
  slice_open f (Room.participantChannels r) ->
  slice_open f (Room.participantChannels (Room.AddParticipant r p)).
Proof.
  intros Hc Hcl Hopen. cbn. unfold slice_open in *.
  apply Forall_app. split; [exact Hopen|]. constructor; [eauto|constructor].
Qed.

(** A turn of the writer takes the oldest packet of the queue, picks the
    track by the packet's kind and gives the wrapper back to the pool. *)
Lemma packetWriter_turn_recycles p f c pkt rest :
  chans f !! Participant.packetQueue p = Some c ->
  buf c = pkt :: rest ->
  exists track f',
    Participant.packetWriter_turn p f = Participant.Wrote track pkt f' /\
    chans f' !! Participant.packetQueue p = Some (mkChan rest (cap c) (closed c)) /\
    participantPacketPool f' = pkt :: participantPacketPool f.
Proof.
  intros Hc Hbuf. unfold Participant.packetWriter_turn. rewrite Hc, Hbuf.
  eexists _, _. split; [reflexivity|]. cbn. rewrite lookup_insert_eq. split; reflexivity.
Qed.

Example BroadcastPacket_two_queues :
  Room.BroadcastPacket ex_room ex_fanout2 RTPCodecTypeVideo ex_packet
  = Done (mkFanout
            (<[0%nat := mkChan [mkparticipantPacket RTPCodecTypeVideo (Some ex_packet)] 2 false]>
               (<[1%nat := mkChan [ex_old] 1 false]> ∅))
            [mkparticipantPacket RTPCodecTypeVideo (Some ex_packet)],
          [PoolGet;
           TrySend 0%nat (mkparticipantPacket RTPCodecTypeVideo (Some ex_packet)) true;
           PoolGet;
           TrySend 1%nat (mkparticipantPacket RTPCodecTypeVideo (Some ex_packet)) false;
           PoolPut (mkparticipantPacket RTPCodecTypeVideo (Some ex_packet))]).
Proof. vm_compute. reflexivity. Qed.




(** ** Adding and removing participants *)

Lemma filter_out_appended (q : chan_ref) (l : list chan_ref) :
  ~ In q l ->
  List.filter (fun ch => negb (Nat.eqb ch q)) (l ++ [q]) = l.
Proof.
  intros Hnot. rewrite List.filter_app. cbn. rewrite Nat.eqb_refl. cbn.
  rewrite app_nil_r. induction l as [|x l IH]; [reflexivity|].
  cbn. destruct (Nat.eqb_spec x q) as [->|Hne].
  - contradiction Hnot. left. reflexivity.
  - cbn. rewrite IH; [reflexivity|]. intros Hin. apply Hnot. right. exact Hin.
Qed.

Lemma NewRoom_wf name id owner : Room_wf (Room.NewRoom name id owner).
Proof. intros ch []. Qed.

Lemma AddParticipant_wf r p :
  (forall p0, Room.Participants r !! Participant.ID p = Some p0 -> p0 = p) ->
  Room_wf r -> Room_wf (Room.AddParticipant r p).
Proof.
  intros Hsame Hwf ch Hin. cbn in Hin |- *.
  apply in_app_or in Hin. destruct Hin as [Hin|[<-|[]]].
  - destruct (Hwf ch Hin) as (id & p0 & Hp0 & Hq).
    destruct (decide (id = Participant.ID p)) as [->|Hne].
    + exists (Participant.ID p), p. rewrite lookup_insert_eq.
      rewrite (Hsame p0 Hp0) in Hq. auto.
    + exists id, p0. rewrite lookup_insert_ne by congruence. auto.
  - exists (Participant.ID p), p. rewrite lookup_insert_eq. auto.
Qed.

Lemma RemoveParticipantByID_wf r id :
  Room_wf r -> Room_wf (Room.RemoveParticipantByID r id).
Proof.
  intros Hwf. unfold Room.RemoveParticipantByID.
  destruct (Room.Participants r !! id) as [p|] eqn:Hp; [|exact Hwf].
  intros ch Hin. cbn in Hin |- *. apply filter_In in Hin. destruct Hin as [Hin Hne].
  apply negb_true_iff, Nat.eqb_neq in Hne.
  destruct (Hwf ch Hin) as (id0 & p0 & Hp0 & Hq).
  exists id0, p0. split; [|exact Hq].
  rewrite lookup_delete_ne; [exact Hp0|]. intros ->. congruence.
Qed.

(** In a well-formed room, a participant whose queue no member uses has
    no channel in the slice. *)
Lemma queue_not_in_slice r q :
  Room_wf r ->
  (forall id p, Room.Participants r !! id = Some p -> Participant.packetQueue p <> q) ->
  ~ In q (Room.participantChannels r).
Proof.
  intros Hwf Hfresh Hin. destruct (Hwf q Hin) as (id & p & Hp & Hq).
  exact (Hfresh id p Hp Hq).
Qed.

(** So has a participant just made by [NewParticipant], when the slice
    holds channels that exist. *)
Lemma new_queue_not_in_slice r f f' id sessionID peerID p :
  Participant.NewParticipant (Some id) sessionID peerID f = (Some p, f') ->
  slice_open f (Room.participantChannels r) ->
  ~ In (Participant.packetQueue p) (Room.participantChannels r).
Proof.
  intros Hnew Hopen Hin.
  destruct (NewParticipant_queue _ _ _ _ _ _ Hnew) as (Hnone & _ & _).
  unfold slice_open in Hopen. rewrite List.Forall_forall in Hopen.
  destruct (Hopen _ Hin) as (c & Hc & _). congruence.
Qed.

(** C7. For a participant that is not in the room (its id is not a key of
    the map and its queue is not in the slice), [AddParticipant] followed
    by [RemoveParticipantByID] of its id gives back the room: the channel
    slice is the one before the add, element for element and so as a
    multiset, and the [Participants] map is the one before. *)
Theorem AddParticipant_then_RemoveParticipantByID :
  forall (r : Room.t) (P : Participant.t),
    Room.Participants r !! Participant.ID P = None ->
    ~ In (Participant.packetQueue P) (Room.participantChannels r) ->
    let r' := Room.RemoveParticipantByID (Room.AddParticipant r P) (Participant.ID P) in
    Room.participantChannels r' ≡ₚ Room.participantChannels r /\
    Room.participantChannels r' = Room.participantChannels r /\
    Room.Participants r' = Room.Participants r /\
    r' = r.
Proof.
  intros r P Hid Hq r'.
  assert (Hr : r' = r).
  { subst r'. unfold Room.RemoveParticipantByID, Room.AddParticipant.
    cbn [Room.Participants Room.set_participants Room.participantChannels].
    rewrite lookup_insert_eq.
    unfold Room.set_participants. cbn.
    rewrite filter_out_appended by exact Hq.
    rewrite delete_insert_eq, delete_id by exact Hid.
    destruct r; reflexivity. }
  rewrite Hr. repeat split; reflexivity.
Qed.

Lemma AddParticipant_then_RemoveParticipantByID_witness :
  Room.RemoveParticipantByID
    (Room.AddParticipant ex_room (ex_participant "01PC" 2%nat)) "01PC" = ex_room.
Proof.
  assert (Hid : Room.Participants ex_room !! Participant.ID (ex_participant "01PC" 2%nat) = None)
    by (vm_compute; reflexivity).
  assert (Hq : ~ In (Participant.packetQueue (ex_participant "01PC" 2%nat))
                 (Room.participantChannels ex_room))
    by (cbn; intros [H|[H|[]]]; discriminate H).
  exact (proj2 (proj2 (proj2
    (AddParticipant_then_RemoveParticipantByID ex_room (ex_participant "01PC" 2%nat) Hid Hq)))).
Defined.

(** ** Online rooms *)

(** After the offer case of the push handler has created a connection,
    the bound room points to it, however the rest of the case goes. *)
Lemma push_offer_sets_PeerConnection env msgWrapper l w s ref r offerMsg sd :
  StreamProtocol.room l = Some ref ->
  room_at w ref = Some r ->
  GetSdp msgWrapper = Some offerMsg ->
  sdp_Sdp offerMsg = Some sd ->
  CreatePeerConnection_fails env = false ->
  exists l' w' s' pc,
    StreamProtocol.push_offer env msgWrapper l w s = Continue l' w' s' /\
    room_at w' ref = Some (Room.set_PeerConnection r (Some pc)).
Proof.
  intros Hroom Hat Hsdp Hsd Hok. unfold StreamProtocol.push_offer.
  rewrite Hroom, Hsdp, Hsd, Hat.
  unfold CreatePeerConnection. rewrite Hok.
  destruct (PeerConnection.New (pion w)) as [pc p1] eqn:Hnew.
  set (w2 := update_room (with_pion w p1) ref (fun r0 => Room.set_PeerConnection r0 (Some pc))).
  assert (Hat2 : room_at w2 ref = Some (Room.set_PeerConnection r (Some pc))).
  { unfold w2, room_at, update_room. cbn. rewrite lookup_alter_eq.
    unfold room_at in Hat. rewrite Hat. reflexivity. }
  destruct (SetRemoteDescription_fails env); [eauto 10|].
  destruct (ICEHelper.FlushHeldCandidates _ _) as [ice2 p4].
  destruct (CreateAnswer env) as [answer|]; [|eauto 10].
  destruct (SetLocalDescription_fails env); [eauto 10|].
  cbn [CreateMessage]. destruct (Stream_SendProto _ _) as [failed s1].
  eauto 10.
Qed.

(** C4. A room is online exactly when its [PeerConnection] is not nil.
    A new room is offline; [Close] leaves the pointer nil and the room
    offline; the offer case of the push handler, once it has created the
    connection, leaves the pointer set and the room online. *)
Theorem IsOnline_iff_PeerConnection :
  (forall r : Room.t, Room.IsOnline r = true <-> Room.PeerConnection r <> None) /\
  (forall name id owner, Room.IsOnline (Room.NewRoom name id owner) = false) /\
  (forall (r : Room.t) (pi : Pion),
      Room.PeerConnection (fst (Room.Close r pi)) = None /\
      Room.IsOnline (fst (Room.Close r pi)) = false) /\
  (forall env msgWrapper l w s ref r offerMsg sd,
      StreamProtocol.room l = Some ref ->
      room_at w ref = Some r ->
      GetSdp msgWrapper = Some offerMsg ->
      sdp_Sdp offerMsg = Some sd ->
      CreatePeerConnection_fails env = false ->
      exists l' w' s' r' pc,
        StreamProtocol.push_offer env msgWrapper l w s = Continue l' w' s' /\
        room_at w' ref = Some r' /\
        Room.PeerConnection r' = Some pc /\
        Room.IsOnline r' = true).
Proof.
  split; [|split; [|split]].
  - intros r. unfold Room.IsOnline. destruct (Room.PeerConnection r).
    + split; [discriminate|reflexivity].
    + split; [discriminate|]. intros H. contradiction H. reflexivity.
  - reflexivity.
  - intros r pi. destruct r as [id name owner ac vc pc dc chs ps].
    unfold Room.Close, Room.IsOnline. cbn.
    destruct dc; destruct pc; cbn; split; reflexivity.
  - intros env msgWrapper l w s ref r offerMsg sd Hroom Hat Hsdp Hsd Hok.
    destruct (push_offer_sets_PeerConnection env msgWrapper l w s ref r offerMsg sd
                Hroom Hat Hsdp Hsd Hok) as (l' & w' & s' & pc & Hrun & Hat').
    exists l', w', s', (Room.set_PeerConnection r (Some pc)), pc.
    repeat split; assumption || reflexivity.
Qed.

Lemma IsOnline_iff_PeerConnection_witness :
  exists l' w' s' r' pc,
    StreamProtocol.push_offer ex_env ex_offer_frame
      (StreamProtocol.mkpush_locals (Some "01ROOM") (ICEHelper.NewICEHelper None))
      ex_world_offline ex_stream = Continue l' w' s' /\
    room_at w' "01ROOM" = Some r' /\
    Room.PeerConnection r' = Some pc /\
    Room.IsOnline r' = true.
Proof.
  destruct IsOnline_iff_PeerConnection as (_ & _ & _ & Hoffer).
  exact (Hoffer ex_env ex_offer_frame
           (StreamProtocol.mkpush_locals (Some "01ROOM") (ICEHelper.NewICEHelper None))
           ex_world_offline ex_stream "01ROOM" (Room.NewRoom "alpha" "01ROOM" "relay-1")
           (mkProtoSDP (Some (mkRTCSessionDescriptionInit "v=0 offer" "offer")))
           (mkRTCSessionDescriptionInit "v=0 offer" "offer")
           eq_refl eq_refl eq_refl eq_refl eq_refl).
Defined.

(** ** The push handler *)

Example push_creates_room_and_answers :
  exists l w,
    StreamProtocol.handleStreamPush
      [(ex_env, Received (ex_push_frame "alpha")); (ex_env, Received ex_offer_frame)]
      ex_world ex_stream
    = StreamProtocol.Receiving l w
        (mkStream "peer-A"
           [ex_push_frame_ok; ex_answer_frame] (fun _ => false) false) /\
    (Room.IsOnline <$> room_at w "01ROOM") = Some true.
Proof. eexists _, _. split; vm_compute; reflexivity. Qed.

Lemma push_dispatch_room env msgWrapper mb l w s :
  MessageBase msgWrapper = Some mb -> PayloadType mb = "push-stream-room" ->
  StreamProtocol.handleStreamPush_iteration env (Received msgWrapper) l w s
  = StreamProtocol.push_stream_room env msgWrapper l w s.
Proof.
  intros Hmb Hty. unfold StreamProtocol.handleStreamPush_iteration.
  rewrite Hmb, Hty. reflexivity.
Qed.

(** A push to a room another relay owns, and a push to a room that is
    already online, are answered by no frame at all. *)
Lemma refused_push_gets_no_reply :
  (exists l' w' s',
      StreamProtocol.handleStreamPush_iteration ex_env (Received (ex_push_frame "alpha"))
        StreamProtocol.push_init ex_world_foreign ex_stream = Continue l' w' s' /\
      ~ replies_push_stream_rejected ex_stream s') /\
  (exists l' w' s',
      StreamProtocol.handleStreamPush_iteration ex_env (Received (ex_push_frame "alpha"))
        StreamProtocol.push_init ex_world_online ex_stream = Continue l' w' s' /\
      ~ replies_push_stream_rejected ex_stream s').
Proof.
  assert (Hnone : ~ replies_push_stream_rejected ex_stream ex_stream).
  { intros (m & mb & Hout & _). cbn in Hout.
    apply (f_equal (@length ProtoMessage)) in Hout. cbn in Hout. discriminate Hout. }
  split.
  - exists (StreamProtocol.mkpush_locals (Some "01ROOM") (ICEHelper.NewICEHelper None)),
      ex_world_foreign, ex_stream.
    split; [vm_compute; reflexivity|exact Hnone].
  - exists (StreamProtocol.mkpush_locals (Some "01ROOM") (ICEHelper.NewICEHelper None)),
      ex_world_online, ex_stream.
    split; [vm_compute; reflexivity|exact Hnone].
Qed.

(** C2, as the code has it.  When a push-stream-room frame names a local
    room that this relay does not own, or that is already online, the
    handler sends nothing, changes nothing in the relay (rooms,
    connections, participants and connection tables are as before), leaves
    its candidate helper as it was and goes on to the next frame. *)
Theorem refused_push_changes_nothing :
  forall env msgWrapper mb pushMsg l w s ref r,
    MessageBase msgWrapper = Some mb ->
    PayloadType mb = "push-stream-room" ->
    GetServerPushStream msgWrapper = Some pushMsg ->
    Relay.GetRoomByName (relay w) (push_RoomName pushMsg) = Some (ref, r) ->
    Room.OwnerID r <> Relay.ID (relay w) \/ Room.IsOnline r = true ->
    exists l',
      StreamProtocol.handleStreamPush_iteration env (Received msgWrapper) l w s
      = Continue l' w s /\
      StreamProtocol.push_iceHelper l' = StreamProtocol.push_iceHelper l.
Proof.
  intros env msgWrapper mb pushMsg l w s ref r Hmb Hty Hpush Hfound Hwhy.
  rewrite (push_dispatch_room env msgWrapper mb l w s Hmb Hty).
  unfold StreamProtocol.push_stream_room. rewrite Hpush, Hfound.
  destruct (bool_decide (Room.OwnerID r <> Relay.ID (relay w))) eqn:Hown.
  - eexists. split; reflexivity.
  - destruct Hwhy as [Hne|Hon].
    + apply bool_decide_eq_false in Hown. contradiction.
    + rewrite Hon. eexists. split; reflexivity.
Qed.

Lemma refused_push_changes_nothing_witness :
  exists l',
    StreamProtocol.handleStreamPush_iteration ex_env (Received (ex_push_frame "alpha"))
      StreamProtocol.push_init ex_world_online ex_stream
    = Continue l' ex_world_online ex_stream /\
    StreamProtocol.push_iceHelper l' = ICEHelper.NewICEHelper None.
Proof.
  refine (refused_push_changes_nothing ex_env (ex_push_frame "alpha")
            (mkProtoMessageBase "push-stream-room" None) (mkProtoServerPushStream "alpha")
            StreamProtocol.push_init ex_world_online ex_stream "01ROOM"
            (Room.set_PeerConnection (Room.NewRoom "alpha" "01ROOM" "relay-1") (Some 0%nat))
            eq_refl eq_refl eq_refl _ (or_intror eq_refl)).
  vm_compute. reflexivity.
Defined.

(** What the refused push leaves behind: the handler's [room] variable
    now points at the room it refused, so the end of that stream closes a
    room some other producer brought online. *)
Example refused_push_then_EOF_closes_the_room :
  exists w s,
    StreamProtocol.handleStreamPush
      [(ex_env, Received (ex_push_frame "alpha")); (ex_env, ReceiveError EOF)] ex_world_online ex_stream
    = StreamProtocol.Returned w s /\
    (Room.IsOnline <$> room_at ex_world_online "01ROOM") = Some true /\
    (Room.IsOnline <$> room_at w "01ROOM") = Some false.
Proof. eexists _, _. repeat split; vm_compute; reflexivity. Qed.

(** C6: the failing frame.  On a push stream, an ice-candidate frame whose
    candidate has no [SdpMLineIndex] makes the handler dereference a nil
    pointer: the iteration panics, whatever the state, and so does the
    handler.  The request handler tests the field before reading it and
    goes on.  On a push stream a frame without header is skipped and the
    stream is not reset.  A frame whose length prefix is beyond the range
    of [int] makes [ReceiveProto] panic in [make], and either handler
    with it. *)
Theorem push_ice_candidate_without_index_panics :
  forall env l w s cand mid ufrag latency,
    let msgWrapper :=
      mkProtoMessage (Some (mkProtoMessageBase "ice-candidate" latency))
        (Some (Payload_Ice (mkProtoICE (Some (mkRTCIceCandidateInit cand None mid ufrag))))) in
    StreamProtocol.handleStreamPush_iteration env (Received msgWrapper) l w s = Panic /\
    (forall rest, StreamProtocol.run_handler StreamProtocol.handleStreamPush_iteration
                    ((env, Received msgWrapper) :: rest) l w s = StreamProtocol.Crashed) /\
    (forall rl, exists rl' w',
        StreamProtocol.handleStreamRequest_iteration env (Received msgWrapper) rl w s
        = Continue rl' w' s) /\
    (forall pl, StreamProtocol.handleStreamPush_iteration env
                  (Received (mkProtoMessage None pl)) l w s = Continue l w s) /\
    (forall (codec : ProtoCodec ProtoMessage) rest written failed,
        fst (SafeBufioRW.ReceiveProto
               (mkReadWriter (PutUvarint (2 ^ 63) ++ rest) written failed))
        = @ReceivePanic ProtoMessage) /\
    StreamProtocol.handleStreamPush_iteration env ReceivePanic l w s = Panic /\
    forall rl, StreamProtocol.handleStreamRequest_iteration env ReceivePanic rl w s = Panic.
Proof.
  intros env l w s cand mid ufrag latency msgWrapper.
  assert (Hp : StreamProtocol.handleStreamPush_iteration env (Received msgWrapper) l w s = Panic)
    by reflexivity.
  split; [exact Hp|]. split; [|split].
  - intros rest. cbn [StreamProtocol.run_handler]. rewrite Hp. reflexivity.
  - intros rl. unfold StreamProtocol.handleStreamRequest_iteration. cbn.
    unfold StreamProtocol.request_ice_candidate. cbn.
    destruct (ICEHelper.AddCandidate _ _ _) as [ice' p']. eauto.
  - split; [reflexivity|]. split; [|split; reflexivity].
    intros codec rest written failed.
    unfold SafeBufioRW.ReceiveProto, readUvarint. cbn [rd].
    rewrite ReadUvarint_PutUvarint by lia. reflexivity.
Qed.

Example push_ice_candidate_with_index_is_fine :
  exists l w s,
    StreamProtocol.handleStreamPush_iteration ex_env (Received (ex_ice_frame (Some 65537)))
      (StreamProtocol.mkpush_locals None (ICEHelper.NewICEHelper (Some 0%nat)))
      (with_pion ex_world ex_pion1) ex_stream = Continue l w s /\
    ICEHelper.candidates (StreamProtocol.push_iceHelper l)
    = [mkICECandidateInit "candidate:1 1 UDP 2122252543 192.0.2.1 50000 typ host"
         (Some "0") (Some 1) None].
Proof. eexists _, _, _. split; vm_compute; reflexivity. Qed.

Example push_ice_candidate_without_index :
  StreamProtocol.handleStreamPush
    [(ex_env, Received (ex_push_frame "alpha")); (ex_env, Received (ex_ice_frame None))]
    ex_world ex_stream = StreamProtocol.Crashed.
Proof. vm_compute. reflexivity. Qed.

(** ** The request handler *)

Lemma request_dispatch_room env msgWrapper mb l w s :
  MessageBase msgWrapper = Some mb -> PayloadType mb = "request-stream-room" ->
  StreamProtocol.handleStreamRequest_iteration env (Received msgWrapper) l w s
  = StreamProtocol.request_stream_room env msgWrapper l w s.
Proof.
  intros Hmb Hty. unfold StreamProtocol.handleStreamRequest_iteration.
  rewrite Hmb, Hty. reflexivity.
Qed.

(** C5. A request-stream-room frame for a room that does not exist
    locally, is not online or is not owned by this relay is answered by
    two frames, in this order: session-assigned with the room name and the
    session id (the one of the request, or the generated one when the
    request's was empty), then request-stream-offline with the room name.
    The relay is unchanged (no peer connection, no participant, no queue
    was created), the stream is not reset, and the handler goes on with
    the frames that follow. *)
Theorem request_for_unavailable_room :
  forall env msgWrapper mb reqMsg l w s generated,
    MessageBase msgWrapper = Some mb ->
    PayloadType mb = "request-stream-room" ->
    GetClientRequestRoomStream msgWrapper = Some reqMsg ->
    (req_SessionId reqMsg = "" -> NewULID_session env = Some generated) ->
    match Relay.GetRoomByName (relay w) (req_RoomName reqMsg) with
    | None => True
    | Some (_, r) => Room.IsOnline r = false \/ Room.OwnerID r <> Relay.ID (relay w)
    end ->
    let sessionID :=
      if bool_decide (req_SessionId reqMsg = "") then generated else req_SessionId reqMsg in
    let s' :=
      mkStream (RemotePeer s)
        (out s ++
         [frame "session-assigned"
            (Payload_ClientRequestRoomStream
               (mkProtoClientRequestRoomStream (req_RoomName reqMsg) sessionID));
          frame "request-stream-offline" (Payload_Raw (mkProtoRaw (req_RoomName reqMsg)))])
        (SendProto_fails s) (was_reset s) in
    let l' := StreamProtocol.mkrequest_locals (req_RoomName reqMsg)
                (StreamProtocol.request_iceHelper l) in
    StreamProtocol.handleStreamRequest_iteration env (Received msgWrapper) l w s
    = Continue l' w s' /\
    forall rest,
      StreamProtocol.run_handler StreamProtocol.handleStreamRequest_iteration
        ((env, Received msgWrapper) :: rest) l w s
      = StreamProtocol.run_handler StreamProtocol.handleStreamRequest_iteration rest l' w s'.
Proof.
  intros env msgWrapper mb reqMsg l w s generated Hmb Hty Hreq Hgen Hroom sessionID s' l'.
  assert (Hit : StreamProtocol.handleStreamRequest_iteration env (Received msgWrapper) l w s
                = Continue l' w s').
  { rewrite (request_dispatch_room env msgWrapper mb l w s Hmb Hty).
    unfold StreamProtocol.request_stream_room. rewrite Hreq.
    assert (Hsid : (if bool_decide (req_SessionId reqMsg = "") then NewULID_session env
                    else Some (req_SessionId reqMsg)) = Some sessionID).
    { subst sessionID. destruct (bool_decide (req_SessionId reqMsg = "")) eqn:Hd.
      - apply bool_decide_eq_true in Hd. exact (Hgen Hd).
      - reflexivity. }
    rewrite Hsid. cbn [CreateMessage Stream_SendProto].
    assert (Hout : forall x y : ProtoMessage, ((out s ++ [x]) ++ [y] = out s ++ [x; y])%list).
    { intros x y. rewrite <- app_assoc. reflexivity. }
    destruct (Relay.GetRoomByName (relay w) (req_RoomName reqMsg)) as [[ref r]|].
    - replace (negb (Room.IsOnline r)
               || bool_decide (Room.OwnerID r <> Relay.ID (relay w)))%bool with true.
      + cbn. unfold l', s', frame. rewrite Hout. reflexivity.
      + symmetry. apply orb_true_iff. destruct Hroom as [Hoff|Hown].
        * left. rewrite Hoff. reflexivity.
        * right. apply bool_decide_eq_true. exact Hown.
    - cbn. unfold l', s', frame. rewrite Hout. reflexivity. }
  split; [exact Hit|].
  intros rest. cbn [StreamProtocol.run_handler]. rewrite Hit. reflexivity.
Qed.

Lemma request_for_unavailable_room_witness :
  StreamProtocol.handleStreamRequest_iteration ex_env (Received (ex_request_frame "bravo" ""))
    StreamProtocol.request_init ex_world_offline ex_stream
  = Continue (StreamProtocol.mkrequest_locals "bravo" (ICEHelper.NewICEHelper None))
      ex_world_offline
      (mkStream "peer-A"
         [frame "session-assigned"
            (Payload_ClientRequestRoomStream
               (mkProtoClientRequestRoomStream "bravo" "01SESSION"));
          frame "request-stream-offline" (Payload_Raw (mkProtoRaw "bravo"))]
         (SendProto_fails ex_stream) false).
Proof.
  refine (proj1 (request_for_unavailable_room ex_env (ex_request_frame "bravo" "")
            (mkProtoMessageBase "request-stream-room" None)
            (mkProtoClientRequestRoomStream "bravo" "")
            StreamProtocol.request_init ex_world_offline ex_stream "01SESSION"
            eq_refl eq_refl eq_refl (fun _ => eq_refl) _)).
  vm_compute. exact I.
Defined.

Example request_for_offline_room_keeps_session :
  exists l s,
    StreamProtocol.handleStreamRequest
      [(ex_env, Received (ex_request_frame "alpha" "01OLD"))] ex_world_offline ex_stream
    = StreamProtocol.Receiving l ex_world_offline s /\
    out s = [frame "session-assigned"
               (Payload_ClientRequestRoomStream
                  (mkProtoClientRequestRoomStream "alpha" "01OLD"));
             frame "request-stream-offline" (Payload_Raw (mkProtoRaw "alpha"))].
Proof. eexists _, _. split; vm_compute; reflexivity. Qed.

Example request_for_online_room_creates_participant :
  exists l w s,
    StreamProtocol.handleStreamRequest
      [(ex_env, Received (ex_request_frame "alpha" ""))] ex_world_online ex_stream
    = StreamProtocol.Receiving l w s /\
    map Participant.ID (participants w) = ["01PARTICIPANT"] /\
    map (fun m => PayloadType <$> MessageBase m) (out s)
    = [Some "session-assigned"; Some "offer"].
Proof. eexists _, _, _. repeat split; vm_compute; reflexivity. Qed.

(** ** More on the framing *)



Lemma ReadUvarint_from_range r : forall (i : nat) acc x rest,
  is_bytes r -> (i <= 10)%nat -> 0 <= acc < 2 ^ (7 * Z.of_nat i) ->
  ReadUvarint_from i acc (7 * Z.of_nat i) r = inr (x, rest) ->
  0 <= x < 2 ^ 64 /\
  exists used, r = (used ++ rest)%list /\ (1 <= length used)%nat /\ (i + length used <= 10)%nat.
Proof.
  induction r as [|b r IH]; intros i acc x rest Hb Hi Hacc Hrun; cbn [ReadUvarint_from] in Hrun.
  - destruct (MaxVarintLen64 <=? i)%nat; discriminate.
  - destruct (Nat.leb_spec MaxVarintLen64 i) as [|Hlt]; [discriminate|].
    unfold MaxVarintLen64 in Hlt.
    inversion Hb as [|? ? Hb0 Hbr]; subst.
    destruct (Z.ltb_spec b 128) as [Hsmall|Hbig].
    + destruct ((i =? MaxVarintLen64 - 1)%nat && (1 <? b))%bool eqn:Hov; [discriminate|].
      inversion Hrun; subst; clear Hrun.
      split.
      * assert (Hsh : 0 <= Z.shiftl b (7 * Z.of_nat i) < 2 ^ 64).
        { rewrite Z.shiftl_mul_pow2 by lia. split; [apply Z.mul_nonneg_nonneg; lia|].
          apply andb_false_iff in Hov. destruct Hov as [Hne|Hle].
          - apply Nat.eqb_neq in Hne. unfold MaxVarintLen64 in Hne. cbn in Hne.
            assert (2 ^ (7 * Z.of_nat i) <= 2 ^ 56) by (apply Z.pow_le_mono_r; lia).
            assert (0 < 2 ^ (7 * Z.of_nat i)) by (apply Z.pow_pos_nonneg; lia).
            nia.
          - apply Z.ltb_ge in Hle.
            assert (2 ^ (7 * Z.of_nat i) <= 2 ^ 63) by (apply Z.pow_le_mono_r; lia).
            assert (0 < 2 ^ (7 * Z.of_nat i)) by (apply Z.pow_pos_nonneg; lia).
            nia. }
        unfold uint64. rewrite Z.mod_small by lia.
        change (2 ^ 64) with (2 ^ 64). apply lor_lt_pow2; [lia| |lia].
        split; [lia|]. eapply Z.lt_le_trans; [apply Hacc|]. apply Z.pow_le_mono_r; lia.
      * exists [b]. cbn. split; [reflexivity|]. lia.
    + assert (Hchunk : 0 <= Z.shiftl (Z.land b 127) (7 * Z.of_nat i) < 2 ^ (7 * Z.of_nat (S i))).
      { assert (0 <= Z.land b 127 < 2 ^ 7).
        { change 127 with (Z.ones 7). rewrite Z.land_ones by lia. apply Z.mod_pos_bound. lia. }
        rewrite Z.shiftl_mul_pow2 by lia. split; [apply Z.mul_nonneg_nonneg; lia|].
        replace (2 ^ (7 * Z.of_nat (S i))) with (2 ^ 7 * 2 ^ (7 * Z.of_nat i)).
        - apply Z.mul_lt_mono_pos_r; [apply Z.pow_pos_nonneg|]; lia.
        - rewrite <- Z.pow_add_r by lia. f_equal. lia. }
      assert (Hpow : 2 ^ (7 * Z.of_nat (S i)) <= 2 ^ 70) by (apply Z.pow_le_mono_r; lia).
      unfold uint64 in Hrun.
      destruct (Nat.eq_dec i 9%nat) as [->|Hne9].
      * (* the tenth byte is a continuation byte: the next iteration overflows *)
        destruct r; cbn in Hrun; discriminate.
      * assert (Hpow63 : 2 ^ (7 * Z.of_nat (S i)) <= 2 ^ 63) by (apply Z.pow_le_mono_r; lia).
        assert (Hnext : 0 <= Z.lor acc (Z.shiftl (Z.land b 127) (7 * Z.of_nat i))
                          < 2 ^ (7 * Z.of_nat (S i))).
        { apply lor_lt_pow2; [lia| |lia]. split; [lia|].
          eapply Z.lt_le_trans; [apply Hacc|]. apply Z.pow_le_mono_r; lia. }
        rewrite Z.mod_small in Hrun by lia.
        replace (7 * Z.of_nat i + 7) with (7 * Z.of_nat (S i)) in Hrun by lia.
        destruct (IH (S i) _ x rest Hbr ltac:(lia) Hnext Hrun)
          as (Hx & used & -> & Hlen1 & Hlen2).
        split; [exact Hx|]. exists (b :: used). cbn. split; [reflexivity|]. lia.
Qed.



(** X2. What [readUvarint] returns on a stream of bytes is a 64-bit
    value, read from at least one and at most [MaxVarintLen64] bytes;
    the bytes it did not use are left, in order, for the next read. *)
Theorem readUvarint_stays_in_range (r : list byte) (x : Z) (rest : list byte) :
  is_bytes r -> readUvarint r = inr (x, rest) ->
  0 <= x < 2 ^ 64 /\
  exists used, r = (used ++ rest)%list /\ (1 <= length used <= MaxVarintLen64)%nat.
Proof.
  intros Hb Hrun. unfold readUvarint, ReadUvarint in Hrun.
  destruct (ReadUvarint_from_range r 0%nat 0 x rest Hb ltac:(lia) ltac:(cbn; lia) Hrun)
    as (Hx & used & Hr & H1 & H2).
  split; [exact Hx|]. exists used. unfold MaxVarintLen64. split; [exact Hr|lia].
Qed.

Lemma readUvarint_stays_in_range_witness :
  0 <= 300 < 2 ^ 64 /\
  exists used, [172; 2; 9] = (used ++ [9])%list /\ (1 <= length used <= MaxVarintLen64)%nat.
Proof.
  apply (readUvarint_stays_in_range [172; 2; 9] 300 [9]); [|reflexivity].
  repeat constructor; vm_compute; discriminate.
Defined.

(** The bytes of a frame. *)
Lemma SendProto_frame {M} `{ProtoCodec M} (msg : M) (data : list byte) (a : SafeBufioRW.t) :
  Marshal msg = inr data -> Z.of_nat (length data) <= MaxInt -> wr_failed a = false ->
  SafeBufioRW.SendProto a msg
  = (None, mkReadWriter (rd a) (wr a ++ PutUvarint (Z.of_nat (length data)) ++ data) false).
Proof.
  intros Hm Hlen Hok. unfold MaxInt in Hlen.
  unfold SafeBufioRW.SendProto, writeUvarint, rw_write, uint64.
  rewrite Hm, Z.mod_small, Hok by lia. cbn. rewrite <- app_assoc. reflexivity.
Qed.

Lemma ReceiveProto_frame {M} `{ProtoCodec M} (data rest : list byte) (b : SafeBufioRW.t) :
  Z.of_nat (length data) <= MaxInt ->
  rd b = (PutUvarint (Z.of_nat (length data)) ++ data ++ rest)%list ->
  SafeBufioRW.ReceiveProto b
  = (match Unmarshal data with inr msg => Received msg | inl err => ReceiveError err end,
     mkReadWriter rest (wr b) (wr_failed b)).
Proof.
  intros Hlen Hrd. unfold SafeBufioRW.ReceiveProto, readUvarint. rewrite Hrd.
  unfold MaxInt in *. rewrite ReadUvarint_PutUvarint by lia.
  destruct (Z.ltb_spec (2 ^ 63 - 1) (Z.of_nat (length data))) as [Hbig|_]; [lia|].
  rewrite Nat2Z.id, ReadFull_app. reflexivity.
Qed.

(** X3. Frames do not run into each other.  Messages sent one after
    the other with [SendProto] put exactly their frames on the wire, in
    order, and as many calls of [ReceiveProto] on those bytes return the
    same messages in the same order, leaving the reader at the first byte
    after the last frame. *)
Theorem SendAll_ReceiveAll_in_order :
  forall (M : Type) (codec : ProtoCodec M), ProtoCodecLaws M ->
  forall (msgs : list M) (datas : list (list byte)) (a : SafeBufioRW.t),
    Forall2 (fun msg data => Marshal msg = inr data /\ Z.of_nat (length data) <= MaxInt)
            msgs datas ->
    wr_failed a = false ->
    let sent := flat_map (fun data => PutUvarint (Z.of_nat (length data)) ++ data)%list datas in
    SendAll a msgs = (None, mkReadWriter (rd a) (wr a ++ sent) false) /\
    forall (b : SafeBufioRW.t) (rest : list byte),
      rd b = (sent ++ rest)%list ->
      ReceiveAll (length msgs) b
      = (map Received msgs, mkReadWriter rest (wr b) (wr_failed b)).
Proof.
  intros M codec laws msgs datas a Hall. revert a.
  induction Hall as [|msg data msgs datas [Hm Hlen] Hall IH]; intros a Hok sent.
  - split.
    + cbn. rewrite app_nil_r, <- Hok. destruct a; reflexivity.
    + intros b rest Hrd. cbn in *. subst rest. destruct b; reflexivity.
  - split.
    + cbn [SendAll]. rewrite (SendProto_frame msg data a Hm Hlen Hok).
      destruct (IH (mkReadWriter (rd a) (wr a ++ PutUvarint (Z.of_nat (length data)) ++ data) false)
                  eq_refl) as [IHs _].
      rewrite IHs. cbn [rd wr]. unfold sent. cbn [flat_map].
      rewrite <- !app_assoc. reflexivity.
    + intros b rest Hrd. cbn [length ReceiveAll].
      unfold sent in Hrd. cbn [flat_map] in Hrd. rewrite <- !app_assoc in Hrd.
      rewrite (ReceiveProto_frame data _ b Hlen Hrd).
      rewrite (Unmarshal_Marshal msg data Hm).
      destruct (IH a Hok) as [_ IHr].
      rewrite (IHr (mkReadWriter _ (wr b) (wr_failed b)) rest eq_refl).
      reflexivity.
Qed.



Lemma SendAll_ReceiveAll_in_order_witness :
  SendAll ex_rw [[1; 2]; []] = (None, mkReadWriter [] [2; 1; 2; 0] false) /\
  ReceiveAll 2 (mkReadWriter [2; 1; 2; 0; 9] [] false)
  = ([Received [1; 2]; Received []], mkReadWriter [9] [] false).
Proof.
  assert (Hall : Forall2 (fun (msg data : list byte) =>
                            Marshal msg = inr data /\ Z.of_nat (length data) <= MaxInt)
                         [[1; 2]; []] [[1; 2]; []]).
  { repeat (constructor; [split; [reflexivity|vm_compute; discriminate]|]). constructor. }
  destruct (SendAll_ReceiveAll_in_order (list byte) raw_codec raw_codec_laws
              [[1; 2]; []] [[1; 2]; []] ex_rw Hall eq_refl) as [Hs Hr].
  split.
  - exact Hs.
  - exact (Hr (mkReadWriter [2; 1; 2; 0; 9] [] false) [9] eq_refl).
Defined.


(** ** Candidates over whole runs of the handlers *)

Lemma AddCandidate_account ice p c ice' p' :
  ICEHelper.AddCandidate ice p c = (ice', p') ->
  (applied p' ++ ICEHelper.candidates ice')%list
  ⊆+ (applied p ++ ICEHelper.candidates ice ++ [c])%list.
Proof.
  intros Hcall. pose proof (ice_step_account (Op_AddCandidate c) ice p) as Hacc.
  cbn [ice_step delivered_attached] in Hacc. rewrite Hcall in Hacc. cbn [fst snd] in Hacc.
  rewrite Hacc. destruct (is_attached ice).
  - reflexivity.
  - apply submseteq_app; [reflexivity|]. apply submseteq_app; [reflexivity|].
    apply submseteq_nil_l.
Qed.

Lemma FlushHeldCandidates_account ice p ice' p' :
  ICEHelper.FlushHeldCandidates ice p = (ice', p') ->
  (applied p' ++ ICEHelper.candidates ice')%list
  ≡ₚ (applied p ++ ICEHelper.candidates ice)%list.
Proof.
  intros Hcall. pose proof (ice_step_account Op_FlushHeldCandidates ice p) as Hacc.
  cbn [ice_step delivered_attached] in Hacc. rewrite Hcall in Hacc. cbn [fst snd] in Hacc.
  rewrite Hacc, app_nil_r. reflexivity.
Qed.

Ltac pair_eqs :=
  repeat match goal with
         | H : (_, _) = (_, _) |- _ => inversion H; subst; clear H
         end.

Ltac account_solve :=
  unfold applied in *; cbn; rewrite ?app_nil_r;
  try match goal with
      | H : ICEHelper.AddCandidate _ _ _ = _ |- _ =>
          apply AddCandidate_account in H; unfold applied in H; cbn in H; exact H
      | H : ICEHelper.FlushHeldCandidates _ _ = _ |- _ =>
          apply FlushHeldCandidates_account in H; unfold applied in H; cbn in H;
          rewrite ?app_nil_r in H; rewrite H
      end;
  first [reflexivity | rewrite app_assoc; apply submseteq_inserts_r; reflexivity].

Lemma handleStreamRequest_iteration_account env recv l w s l' w' s' :
  StreamProtocol.handleStreamRequest_iteration env recv l w s = Continue l' w' s' ->
  (applied (pion w') ++ ICEHelper.candidates (StreamProtocol.request_iceHelper l'))%list
  ⊆+ (applied (pion w) ++ ICEHelper.candidates (StreamProtocol.request_iceHelper l)
      ++ frame_candidates recv)%list.
Proof.
  intros Hrun.
  unfold StreamProtocol.handleStreamRequest_iteration, StreamProtocol.request_stream_room,
    StreamProtocol.request_serve, StreamProtocol.request_ice_candidate,
    StreamProtocol.request_answer, CreatePeerConnection, PeerConnection.New,
    DataChannel.New, Participant.NewParticipant, frame_candidates, candidate_of_frame in *.
  cbn [CreateMessage] in Hrun.
  handler_cases; try discriminate; inversion Hrun; subst; clear Hrun; pair_eqs.
  all: account_solve.
Qed.


Lemma handleStreamRequest_iteration_return env recv l w s w' s' :
  StreamProtocol.handleStreamRequest_iteration env recv l w s = Return w' s' ->
  applied (pion w') = applied (pion w).
Proof.
  intros Hrun.
  unfold StreamProtocol.handleStreamRequest_iteration, StreamProtocol.request_stream_room,
    StreamProtocol.request_serve, StreamProtocol.request_ice_candidate,
    StreamProtocol.request_answer, CreatePeerConnection, PeerConnection.New,
    DataChannel.New, Participant.NewParticipant in *.
  cbn [CreateMessage] in Hrun.
  handler_cases; try discriminate; inversion Hrun; subst; clear Hrun; pair_eqs.
  all: reflexivity.
Qed.

Lemma handleStreamPush_iteration_account env recv l w s l' w' s' :
  StreamProtocol.handleStreamPush_iteration env recv l w s = Continue l' w' s' ->
  (applied (pion w') ++ ICEHelper.candidates (StreamProtocol.push_iceHelper l'))%list
  ⊆+ (applied (pion w) ++ ICEHelper.candidates (StreamProtocol.push_iceHelper l)
      ++ frame_candidates recv)%list.
Proof.
  intros Hrun.
  unfold StreamProtocol.handleStreamPush_iteration, StreamProtocol.push_stream_room,
    StreamProtocol.push_ice_candidate, StreamProtocol.push_offer, CreatePeerConnection,
    PeerConnection.New, Relay.CreateRoom, frame_candidates, candidate_of_frame in *.
  cbn [CreateMessage] in Hrun.
  handler_cases; try discriminate; inversion Hrun; subst; clear Hrun; pair_eqs.
  all: account_solve.
Qed.

Lemma push_cleanup_applied l w : applied (pion (StreamProtocol.push_cleanup l w)) = applied (pion w).
Proof.
  unfold StreamProtocol.push_cleanup, Room.Close.
  handler_cases; pair_eqs; reflexivity.
Qed.

Lemma handleStreamPush_iteration_return env recv l w s w' s' :
  StreamProtocol.handleStreamPush_iteration env recv l w s = Return w' s' ->
  applied (pion w') = applied (pion w).
Proof.
  intros Hrun.
  unfold StreamProtocol.handleStreamPush_iteration, StreamProtocol.push_stream_room,
    StreamProtocol.push_ice_candidate, StreamProtocol.push_offer, CreatePeerConnection,
    PeerConnection.New, Relay.CreateRoom in *.
  cbn [CreateMessage] in Hrun.
  handler_cases; try discriminate; inversion Hrun; subst; clear Hrun; pair_eqs.
  all: apply push_cleanup_applied.
Qed.

Lemma run_request_account frames : forall l w s,
  match StreamProtocol.run_handler StreamProtocol.handleStreamRequest_iteration frames l w s with
  | StreamProtocol.Receiving l' w' _ =>
      (applied (pion w') ++ ICEHelper.candidates (StreamProtocol.request_iceHelper l'))%list
      ⊆+ (applied (pion w) ++ ICEHelper.candidates (StreamProtocol.request_iceHelper l)
          ++ flat_map (fun f => frame_candidates (snd f)) frames)%list
  | StreamProtocol.Returned w' _ =>
      applied (pion w')
      ⊆+ (applied (pion w) ++ ICEHelper.candidates (StreamProtocol.request_iceHelper l)
          ++ flat_map (fun f => frame_candidates (snd f)) frames)%list
  | StreamProtocol.Crashed => True
  end.
Proof.
  induction frames as [|[env recv] rest IH]; intros l w s.
  - cbn. rewrite app_nil_r. reflexivity.
  - cbn [StreamProtocol.run_handler flat_map snd].
    destruct (StreamProtocol.handleStreamRequest_iteration env recv l w s)
      as [l1 w1 s1|w1 s1|] eqn:Hit; [| |exact I].
    + pose proof (handleStreamRequest_iteration_account _ _ _ _ _ _ _ _ Hit) as Hstep.
      specialize (IH l1 w1 s1).
      destruct (StreamProtocol.run_handler _ rest l1 w1 s1) as [w2 s2| |l2 w2 s2]; [| exact I|].
      * etrans; [exact IH|]. rewrite !app_assoc. apply submseteq_app; [|reflexivity].
        rewrite <- app_assoc. exact Hstep.
      * etrans; [exact IH|]. rewrite !app_assoc. apply submseteq_app; [|reflexivity].
        rewrite <- app_assoc. exact Hstep.
    + rewrite (handleStreamRequest_iteration_return _ _ _ _ _ _ _ Hit).
      apply submseteq_inserts_r. reflexivity.
Qed.

Lemma run_push_account frames : forall l w s,
  match StreamProtocol.run_handler StreamProtocol.handleStreamPush_iteration frames l w s with
  | StreamProtocol.Receiving l' w' _ =>
      (applied (pion w') ++ ICEHelper.candidates (StreamProtocol.push_iceHelper l'))%list
      ⊆+ (applied (pion w) ++ ICEHelper.candidates (StreamProtocol.push_iceHelper l)
          ++ flat_map (fun f => frame_candidates (snd f)) frames)%list
  | StreamProtocol.Returned w' _ =>
      applied (pion w')
      ⊆+ (applied (pion w) ++ ICEHelper.candidates (StreamProtocol.push_iceHelper l)
          ++ flat_map (fun f => frame_candidates (snd f)) frames)%list
  | StreamProtocol.Crashed => True
  end.
Proof.
  induction frames as [|[env recv] rest IH]; intros l w s.
  - cbn. rewrite app_nil_r. reflexivity.
  - cbn [StreamProtocol.run_handler flat_map snd].
    destruct (StreamProtocol.handleStreamPush_iteration env recv l w s)
      as [l1 w1 s1|w1 s1|] eqn:Hit; [| |exact I].
    + pose proof (handleStreamPush_iteration_account _ _ _ _ _ _ _ _ Hit) as Hstep.
      specialize (IH l1 w1 s1).
      destruct (StreamProtocol.run_handler _ rest l1 w1 s1) as [w2 s2| |l2 w2 s2]; [| exact I|].
      * etrans; [exact IH|]. rewrite !app_assoc. apply submseteq_app; [|reflexivity].
        rewrite <- app_assoc. exact Hstep.
      * etrans; [exact IH|]. rewrite !app_assoc. apply submseteq_app; [|reflexivity].
        rewrite <- app_assoc. exact Hstep.
    + rewrite (handleStreamPush_iteration_return _ _ _ _ _ _ _ Hit).
      apply submseteq_inserts_r. reflexivity.
Qed.

(** X5. Over any run of [handleStreamRequest], from any state and on
    any frames, the candidates handed to [AddICECandidate] so far together
    with those the helper still holds are, counted with multiplicity, among
    those applied before the run and those the ice-candidate frames of the
    run carried: the handler applies no candidate it did not receive, and
    none more often than it received it. *)
Theorem handleStreamRequest_applies_only_received_candidates
    (frames : list (Env * received ProtoMessage)) (w : World) (s : Stream) :
  let received := flat_map (fun f => frame_candidates (snd f)) frames in
  match StreamProtocol.handleStreamRequest frames w s with
  | StreamProtocol.Receiving l' w' _ =>
      (applied (pion w') ++ ICEHelper.candidates (StreamProtocol.request_iceHelper l'))%list
      ⊆+ (applied (pion w) ++ received)%list
  | StreamProtocol.Returned w' _ => applied (pion w') ⊆+ (applied (pion w) ++ received)%list
  | StreamProtocol.Crashed => True
  end.
Proof.
  intros received. exact (run_request_account frames StreamProtocol.request_init w s).
Qed.

(** X6. The same for [handleStreamPush]: over any run it applies no
    candidate it did not receive, and none more often than it received
    it. *)
Theorem handleStreamPush_applies_only_received_candidates
    (frames : list (Env * received ProtoMessage)) (w : World) (s : Stream) :
  let received := flat_map (fun f => frame_candidates (snd f)) frames in
  match StreamProtocol.handleStreamPush frames w s with
  | StreamProtocol.Receiving l' w' _ =>
      (applied (pion w') ++ ICEHelper.candidates (StreamProtocol.push_iceHelper l'))%list
      ⊆+ (applied (pion w) ++ received)%list
  | StreamProtocol.Returned w' _ => applied (pion w') ⊆+ (applied (pion w) ++ received)%list
  | StreamProtocol.Crashed => True
  end.
Proof.
  intros received. exact (run_push_account frames StreamProtocol.push_init w s).
Qed.

(** ** Registrations and the two directions of the router *)

(** Routing of a well-formed binary message comes down to one lookup. *)
Lemma OnMessage_lookup `{ProtoCodec ProtoMessage} ndc msg base mb :
  IsString msg = false -> Unmarshal (Data msg) = inr base ->
  MessageBase base = Some mb -> PayloadType mb <> "" ->
  NestriDataChannel.OnMessage ndc msg
  = (ndc, match NestriDataChannel.callbacks ndc !! PayloadType mb with
          | Some callback => [(callback, Data msg)]
          | None => []
          end).
Proof.
  intros Hbin Hun Hbase Hkind. unfold NestriDataChannel.OnMessage.
  rewrite Hbin, Hun, Hbase.
  destruct (PayloadType mb) as [|a k] eqn:Hk; [congruence|].
  cbn [String.length Nat.ltb Nat.leb].
  destruct (NestriDataChannel.callbacks ndc !! String a k); reflexivity.
Qed.

(** X7. [RegisterMessageCallback] changes the routing of one payload
    type and of no other: a binary message with a header and a non-empty
    type starts the new callback when its type is the registered one (the
    callback registered before, if any, is replaced), and is routed as
    before otherwise. *)
Theorem RegisterMessageCallback_takes_over_one_kind :
  forall (codec : ProtoCodec ProtoMessage) (ndc : NestriDataChannel.t) (msgType : string)
         (callback : OnMessageCallback) (msg : DataChannelMessage)
         (base : ProtoMessage) (mb : ProtoMessageBase),
    IsString msg = false -> Unmarshal (Data msg) = inr base ->
    MessageBase base = Some mb -> PayloadType mb <> "" ->
    snd (NestriDataChannel.OnMessage
           (NestriDataChannel.RegisterMessageCallback ndc msgType callback) msg)
    = if decide (PayloadType mb = msgType) then [(callback, Data msg)]
      else snd (NestriDataChannel.OnMessage ndc msg).
Proof.
  intros codec ndc msgType callback msg base mb Hbin Hun Hbase Hkind.
  rewrite !(OnMessage_lookup _ msg base mb Hbin Hun Hbase Hkind).
  cbn [snd NestriDataChannel.RegisterMessageCallback NestriDataChannel.callbacks].
  destruct (decide (PayloadType mb = msgType)) as [->|Hne].
  - rewrite lookup_insert_eq. reflexivity.
  - rewrite lookup_insert_ne by congruence. reflexivity.
Qed.

Lemma RegisterMessageCallback_takes_over_one_kind_witness :
  snd (@NestriDataChannel.OnMessage ex_codec
         (NestriDataChannel.RegisterMessageCallback ex_ndc "input" (OtherCallback 9))
         (mkDataChannelMessage false [1]))
  = [(OtherCallback 9, [1])] /\
  snd (@NestriDataChannel.OnMessage ex_codec
         (NestriDataChannel.RegisterMessageCallback ex_ndc "rumble" (OtherCallback 9))
         (mkDataChannelMessage false [1]))
  = [(ForwardInputUpstream "01ROOM", [1])].
Proof.
  split.
  - exact (RegisterMessageCallback_takes_over_one_kind ex_codec ex_ndc "input" (OtherCallback 9)
             (mkDataChannelMessage false [1]) _ _ eq_refl eq_refl eq_refl
             ltac:(discriminate)).
  - exact (RegisterMessageCallback_takes_over_one_kind ex_codec ex_ndc "rumble" (OtherCallback 9)
             (mkDataChannelMessage false [1]) _ _ eq_refl eq_refl eq_refl
             ltac:(discriminate)).
Defined.

(** X8. [UnregisterMessageCallback] stops the routing of one payload
    type and of no other; and unregistering a type right after registering
    it, when it had no callback before, gives the channel back as it
    was. *)
Theorem UnregisterMessageCallback_silences_one_kind :
  forall (codec : ProtoCodec ProtoMessage) (ndc : NestriDataChannel.t) (msgType : string)
         (msg : DataChannelMessage) (base : ProtoMessage) (mb : ProtoMessageBase),
    IsString msg = false -> Unmarshal (Data msg) = inr base ->
    MessageBase base = Some mb -> PayloadType mb <> "" ->
    snd (NestriDataChannel.OnMessage
           (NestriDataChannel.UnregisterMessageCallback ndc msgType) msg)
    = (if decide (PayloadType mb = msgType) then []
       else snd (NestriDataChannel.OnMessage ndc msg)) /\
    forall callback,
      NestriDataChannel.callbacks ndc !! msgType = None ->
      NestriDataChannel.UnregisterMessageCallback
        (NestriDataChannel.RegisterMessageCallback ndc msgType callback) msgType
      = ndc.
Proof.
  intros codec ndc msgType msg base mb Hbin Hun Hbase Hkind. split.
  - rewrite !(OnMessage_lookup _ msg base mb Hbin Hun Hbase Hkind).
    cbn [snd NestriDataChannel.UnregisterMessageCallback NestriDataChannel.callbacks].
    destruct (decide (PayloadType mb = msgType)) as [->|Hne].
    + rewrite lookup_delete_eq. reflexivity.
    + rewrite lookup_delete_ne by congruence. reflexivity.
  - intros callback Hfree. destruct ndc as [dc cbs].
    unfold NestriDataChannel.UnregisterMessageCallback,
      NestriDataChannel.RegisterMessageCallback.
    cbn in *. f_equal. rewrite delete_insert_eq. apply delete_id. exact Hfree.
Qed.

Lemma UnregisterMessageCallback_silences_one_kind_witness :
  snd (@NestriDataChannel.OnMessage ex_codec
         (NestriDataChannel.UnregisterMessageCallback ex_ndc "input")
         (mkDataChannelMessage false [1]))
  = [] /\
  NestriDataChannel.UnregisterMessageCallback
    (NestriDataChannel.RegisterMessageCallback
       (NestriDataChannel.NewNestriDataChannel 0%nat) "input" (OtherCallback 9)) "input"
  = NestriDataChannel.NewNestriDataChannel 0%nat.
Proof.
  split.
  - exact (proj1 (UnregisterMessageCallback_silences_one_kind ex_codec ex_ndc "input"
                    (mkDataChannelMessage false [1]) _ _ eq_refl eq_refl eq_refl
                    ltac:(discriminate))).
  - exact (proj2 (UnregisterMessageCallback_silences_one_kind ex_codec
                    (NestriDataChannel.NewNestriDataChannel 0%nat) "input"
                    (mkDataChannelMessage false [1]) _ _ eq_refl eq_refl eq_refl
                    ltac:(discriminate))
             (OtherCallback 9) eq_refl).
Defined.







Lemma deliver_started `{ProtoCodec ProtoMessage} ndc msg base mb w :
  IsString msg = false -> Unmarshal (Data msg) = inr base ->
  MessageBase base = Some mb -> PayloadType mb <> "" ->
  deliver ndc msg w
  = match NestriDataChannel.callbacks ndc !! PayloadType mb with
    | Some callback => run_callback callback (Data msg) w
    | None => (w, [])
    end.
Proof.
  intros Hbin Hun Hbase Hkind. unfold deliver.
  rewrite (OnMessage_lookup ndc msg base mb Hbin Hun Hbase Hkind). cbn [snd].
  destruct (NestriDataChannel.callbacks ndc !! PayloadType mb); reflexivity.
Qed.

(** X9. From a viewer to the producer.  On the channel the request
    handler builds for a viewer, a binary message of type "input" or
    "controllerInput" is sent on, byte for byte, on the data channel of
    the room, when the room has one and it is open; a message of any
    other type, a room without data channel and a closed data channel
    leave everything as it was.  Nobody is reported disconnected. *)
Theorem viewer_input_is_forwarded_to_the_producer :
  forall (codec : ProtoCodec ProtoMessage) (room : ULID) (dc : dc_ref)
         (msg : DataChannelMessage) (base : ProtoMessage) (mb : ProtoMessageBase)
         (w : World) (r : Room.t),
    IsString msg = false -> Unmarshal (Data msg) = inr base ->
    MessageBase base = Some mb -> PayloadType mb <> "" ->
    room_at w room = Some r ->
    let ndc :=
      NestriDataChannel.RegisterMessageCallback
        (NestriDataChannel.RegisterMessageCallback
           (NestriDataChannel.NewNestriDataChannel dc)
           "input" (ForwardInputUpstream room))
        "controllerInput" (ForwardControllerInputUpstream room) in
    deliver ndc msg w
    = if bool_decide (PayloadType mb = "input" \/ PayloadType mb = "controllerInput") then
        match Room.DataChannel r with
        | Some upstream =>
            match dcs (pion w) !! NestriDataChannel.DataChannel upstream with
            | Some st =>
                if dc_closed st then (w, [])
                else (with_pion w
                        (mkPion (pcs (pion w)) (ice_calls (pion w))
                           (<[NestriDataChannel.DataChannel upstream :=
                                mkDataChannelState false (dc_sent st ++ [Data msg])]>
                              (dcs (pion w)))), [])
            | None => (w, [])
            end
        | None => (w, [])
        end
      else (w, []).
Proof.
  intros codec room dc msg base mb w r Hbin Hun Hbase Hkind Hroom ndc.
  assert (Hw : with_pion w (pion w) = w) by (destruct w; reflexivity).
  rewrite (deliver_started ndc msg base mb w Hbin Hun Hbase Hkind).
  unfold ndc. cbn [NestriDataChannel.RegisterMessageCallback NestriDataChannel.callbacks
                   NestriDataChannel.NewNestriDataChannel].
  assert (Hfwd : forward_upstream room (Data msg) w
                 = fst (match Room.DataChannel r with
        | Some upstream =>
            match dcs (pion w) !! NestriDataChannel.DataChannel upstream with
            | Some st =>
                if dc_closed st then (w, [])
                else (with_pion w
                        (mkPion (pcs (pion w)) (ice_calls (pion w))
                           (<[NestriDataChannel.DataChannel upstream :=
                                mkDataChannelState false (dc_sent st ++ [Data msg])]>
                              (dcs (pion w)))), [])
            | None => (w, [])
            end
        | None => (w, @nil peer_ID)
        end)).
  { unfold forward_upstream, NestriDataChannel.SendBinary, DataChannel.Send. rewrite Hroom.
    destruct (Room.DataChannel r) as [upstream|]; [|reflexivity].
    destruct (dcs (pion w) !! NestriDataChannel.DataChannel upstream) as [st|]; [|exact Hw].
    destruct (dc_closed st); [exact Hw|reflexivity]. }
  destruct (decide (PayloadType mb = "controllerInput")) as [Hc|Hnc].
  - rewrite Hc, lookup_insert_eq. cbn [run_callback]. rewrite Hfwd.
    rewrite bool_decide_eq_true_2 by (right; reflexivity).
    destruct (Room.DataChannel r) as [upstream|]; [|reflexivity].
    destruct (dcs (pion w) !! NestriDataChannel.DataChannel upstream) as [st|]; [|reflexivity].
    destruct (dc_closed st); reflexivity.
  - rewrite lookup_insert_ne by congruence.
    destruct (decide (PayloadType mb = "input")) as [Hi|Hni].
    + rewrite Hi, lookup_insert_eq. cbn [run_callback]. rewrite Hfwd.
      rewrite bool_decide_eq_true_2 by (left; reflexivity).
      destruct (Room.DataChannel r) as [upstream|]; [|reflexivity].
      destruct (dcs (pion w) !! NestriDataChannel.DataChannel upstream) as [st|]; [|reflexivity].
      destruct (dc_closed st); reflexivity.
    + rewrite lookup_insert_ne by congruence. rewrite lookup_empty.
      rewrite bool_decide_eq_false_2 by tauto. reflexivity.
Qed.

Lemma viewer_input_is_forwarded_to_the_producer_witness :
  @deliver ex_codec (ex_viewer_ndc 2%nat) (mkDataChannelMessage false [1]) ex_world_live
  = (with_pion ex_world_live
       (mkPion ∅ []
          (<[0%nat := mkDataChannelState false [[1]]]> (dcs ex_pion_channels))), []).
Proof.
  exact (viewer_input_is_forwarded_to_the_producer ex_codec "01ROOM" 2%nat
           (mkDataChannelMessage false [1]) _ _ ex_world_live ex_room_live
           eq_refl eq_refl eq_refl ltac:(discriminate) eq_refl).
Defined.





(** ** Rooms, participants and the path of a packet *)

(** [RemoveParticipantByID] makes the new slice with capacity
    [len - 1], and [make] panics on a negative capacity: when the id is a
    key of the map and the slice is empty.  [Room.RemoveParticipantByID]
    describes the calls that return. *)
(** Every participant added by a history is a newcomer when it is added. *)
Lemma NewRoom_sync name id owner : Room_sync (Room.NewRoom name id owner).
Proof.
  split; [apply NewRoom_wf|]. split; [constructor|]. split.
  - intros i p H. cbn in H. rewrite lookup_empty in H. discriminate.
  - intros i1 p1 i2 p2 H. cbn in H. rewrite lookup_empty in H. discriminate.
Qed.

Lemma AddParticipant_sync r p :
  newcomer r p -> Room_sync r -> Room_sync (Room.AddParticipant r p).
Proof.
  intros [Hid Hq] (Hwf & Hnd & Hin & Hinj).
  split; [|split; [|split]].
  - apply AddParticipant_wf; [|exact Hwf]. intros p0 Hp0. congruence.
  - cbn. apply NoDup_app. split; [exact Hnd|]. split.
    + intros ch Hch Hch'. apply list_elem_of_In in Hch.
      apply list_elem_of_singleton in Hch'. subst ch. contradiction.
    + apply NoDup_singleton.
  - intros i p0 Hp0. cbn in Hp0 |- *. apply in_or_app.
    destruct (decide (i = Participant.ID p)) as [->|Hne].
    + rewrite lookup_insert_eq in Hp0. inversion Hp0; subst. right. left. reflexivity.
    + rewrite lookup_insert_ne in Hp0 by congruence. left. eapply Hin, Hp0.
  - intros i1 p1 i2 p2 H1 H2 Heq. cbn in H1, H2.
    destruct (decide (i1 = Participant.ID p)) as [->|Hne1];
      destruct (decide (i2 = Participant.ID p)) as [->|Hne2]; [reflexivity| | |].
    + rewrite lookup_insert_eq in H1. rewrite lookup_insert_ne in H2 by congruence.
      inversion H1; subst. exfalso. apply Hq. rewrite Heq. eapply Hin, H2.
    + rewrite lookup_insert_eq in H2. rewrite lookup_insert_ne in H1 by congruence.
      inversion H2; subst. exfalso. apply Hq. rewrite <- Heq. eapply Hin, H1.
    + rewrite lookup_insert_ne in H1, H2 by congruence. eapply Hinj; eassumption.
Qed.

Lemma RemoveParticipantByID_sync r id :
  Room_sync r -> Room_sync (Room.RemoveParticipantByID r id).
Proof.
  intros (Hwf & Hnd & Hin & Hinj).
  split; [apply RemoveParticipantByID_wf, Hwf|].
  unfold Room.RemoveParticipantByID.
  destruct (Room.Participants r !! id) as [p|] eqn:Hp; [|auto].
  cbn. split; [|split].
  - apply NoDup_ListNoDup, List.NoDup_filter, NoDup_ListNoDup, Hnd.
  - intros i p0 Hp0. apply filter_In.
    destruct (decide (i = id)) as [->|Hne]; [rewrite lookup_delete_eq in Hp0; discriminate|].
    rewrite lookup_delete_ne in Hp0 by congruence.
    split; [eapply Hin, Hp0|]. apply negb_true_iff, Nat.eqb_neq.
    intros Heq. apply Hne. eapply Hinj; eassumption.
  - intros i1 p1 i2 p2 H1 H2.
    destruct (decide (i1 = id)) as [->|Hne1]; [rewrite lookup_delete_eq in H1; discriminate|].
    destruct (decide (i2 = id)) as [->|Hne2]; [rewrite lookup_delete_eq in H2; discriminate|].
    rewrite lookup_delete_ne in H1, H2 by congruence. eapply Hinj; eassumption.
Qed.

Lemma Room_sync_count r :
  Room_sync r -> length (Room.participantChannels r) = size (Room.Participants r).
Proof.
  intros (Hwf & Hnd & Hin & Hinj).
  rewrite <- length_map_to_list.
  rewrite <- (length_fmap (fun e : ULID * Participant.t => Participant.packetQueue (snd e))
                (map_to_list (Room.Participants r))).
  apply Permutation_length, NoDup_Permutation.
  - exact Hnd.
  - apply NoDup_fmap_2_strong; [|apply NoDup_map_to_list].
    intros [i1 p1] [i2 p2] H1 H2 Heq. cbn in Heq.
    apply elem_of_map_to_list in H1, H2.
    assert (i1 = i2) by (eapply Hinj; eassumption). subst i2.
    assert (p1 = p2) by congruence. subst p2. reflexivity.
  - intros ch. rewrite list_elem_of_fmap. split.
    + intros Hch. apply list_elem_of_In in Hch.
      destruct (Hwf ch Hch) as (i & p & Hp & Hq).
      exists (i, p). split; [symmetry; exact Hq|]. apply elem_of_map_to_list. exact Hp.
    + intros ([i p] & -> & Hp). apply elem_of_map_to_list in Hp.
      apply list_elem_of_In. eapply Hin, Hp.
Qed.

Lemma room_history_sync ops : forall r,
  Room_sync r -> adds_newcomers r ops -> Room_sync (fold_left room_step ops r).
Proof.
  induction ops as [|op rest IH]; intros r Hsync Hops; [exact Hsync|].
  destruct Hops as [Hop Hrest]. cbn [fold_left]. apply IH; [|exact Hrest].
  destruct op as [p|id]; cbn [room_step].
  - apply AddParticipant_sync; assumption.
  - apply RemoveParticipantByID_sync; assumption.
Qed.

(** X11. The two halves of a room stay in step.  In a room made
    by [NewRoom] and changed by any sequence of [AddParticipant] of
    participants that are not in it and [RemoveParticipantByID] of any
    ids, the channels of the slice are exactly the queues of the members
    of the map, none twice, there are as many channels as members, and
    [RemoveParticipantByID] never meets the empty slice with the id in
    the map, the one state in which its [make] would panic. *)
Theorem room_slice_and_map_stay_in_step :
  forall (name : string) (roomID : ULID) (ownerID : peer_ID) (ops : list room_op),
    adds_newcomers (Room.NewRoom name roomID ownerID) ops ->
    let r := fold_left room_step ops (Room.NewRoom name roomID ownerID) in
    Room_sync r /\
    length (Room.participantChannels r) = size (Room.Participants r) /\
    (forall ch, In ch (Room.participantChannels r) <->
                exists id p, Room.Participants r !! id = Some p /\
                             Participant.packetQueue p = ch) /\
    (forall id, RemoveParticipantByID_panics r id = false).
Proof.
  intros name roomID ownerID ops Hops r.
  assert (Hsync : Room_sync r) by (apply room_history_sync; [apply NewRoom_sync|exact Hops]).
  split; [exact Hsync|]. split; [apply Room_sync_count, Hsync|].
  destruct Hsync as (Hwf & Hnd & Hin & Hinj). split.
  - intros ch. split; [apply Hwf|]. intros (id & p & Hp & <-). eapply Hin, Hp.
  - intros id. unfold RemoveParticipantByID_panics.
    destruct (Room.Participants r !! id) as [p|] eqn:Hp; [|reflexivity].
    specialize (Hin id p Hp).
    destruct (Room.participantChannels r); [destruct Hin|reflexivity].
Qed.

Lemma room_slice_and_map_stay_in_step_witness :
  let r := fold_left room_step
             [Op_AddParticipant (ex_participant "01PA" 0%nat);
              Op_AddParticipant (ex_participant "01PB" 1%nat);
              Op_RemoveParticipantByID "01PA"]
             (Room.NewRoom "alpha" "01ROOM" "relay-1") in
  length (Room.participantChannels r) = size (Room.Participants r).
Proof.
  refine (proj1 (proj2 (room_slice_and_map_stay_in_step "alpha" "01ROOM" "relay-1"
            [Op_AddParticipant (ex_participant "01PA" 0%nat);
             Op_AddParticipant (ex_participant "01PB" 1%nat);
             Op_RemoveParticipantByID "01PA"] _))).
  cbn. repeat split; try (vm_compute; reflexivity).
  - intros [].
  - intros [H|[]]. discriminate H.
Defined.

Lemma filter_out_replicated (q : chan_ref) (l : list chan_ref) (n : nat) :
  ~ In q l ->
  List.filter (fun ch => negb (Nat.eqb ch q)) (l ++ replicate n q) = l.
Proof.
  intros Hnot. rewrite List.filter_app.
  replace (List.filter _ (replicate n q)) with (@nil chan_ref).
  - rewrite app_nil_r. induction l as [|x l IH]; [reflexivity|].
    cbn. destruct (Nat.eqb_spec x q) as [->|Hne].
    + contradiction Hnot. left. reflexivity.
    + cbn. rewrite IH; [reflexivity|]. intros Hin. apply Hnot. right. exact Hin.
  - induction n as [|n IH]; [reflexivity|]. cbn. rewrite Nat.eqb_refl. exact IH.
Qed.

Lemma AddParticipant_repeated r p n :
  Room.Participants r !! Participant.ID p = None ->
  Nat.iter (S n) (fun r0 => Room.AddParticipant r0 p) r
  = Room.set_participants r
      (Room.participantChannels r ++ replicate (S n) (Participant.packetQueue p))
      (<[Participant.ID p := p]> (Room.Participants r)).
Proof.
  intros Hid. induction n as [|n IH].
  - reflexivity.
  - change (Nat.iter (S (S n)) (fun r0 => Room.AddParticipant r0 p) r)
      with (Room.AddParticipant (Nat.iter (S n) (fun r0 => Room.AddParticipant r0 p) r) p).
    rewrite IH. unfold Room.AddParticipant, Room.set_participants. cbn.
    rewrite insert_insert_eq. f_equal.
    rewrite <- app_assoc. f_equal.
    change (Participant.packetQueue p :: replicate n (Participant.packetQueue p))
      with (replicate (S n) (Participant.packetQueue p)).
    rewrite <- replicate_S_end. reflexivity.
Qed.

(** X12. [AddParticipant] is not idempotent and
    [RemoveParticipantByID] makes up for it: adding the same participant
    again puts its queue into the slice once more (it would be sent every
    packet that often) while the map keeps one entry; one removal takes
    every copy out and gives back the room as it was before the first
    add; a removal of an id that is not in the map changes nothing. *)
Theorem RemoveParticipantByID_undoes_repeated_adds :
  forall (r : Room.t) (p : Participant.t) (n : nat),
    newcomer r p ->
    let r' := Nat.iter (S n) (fun r0 => Room.AddParticipant r0 p) r in
    Room.participantChannels r'
    = (Room.participantChannels r ++ replicate (S n) (Participant.packetQueue p))%list /\
    size (Room.Participants r') = S (size (Room.Participants r)) /\
    Room.RemoveParticipantByID r' (Participant.ID p) = r /\
    Room.RemoveParticipantByID r (Participant.ID p) = r.
Proof.
  intros r p n [Hid Hq] r'. subst r'. rewrite (AddParticipant_repeated r p n Hid).
  split; [reflexivity|]. split; [cbn; apply map_size_insert_None, Hid|]. split.
  - unfold Room.RemoveParticipantByID, Room.set_participants. cbn -[replicate].
    rewrite lookup_insert_eq. cbn -[replicate].
    rewrite (filter_out_replicated _ _ (S n) Hq).
    rewrite delete_insert_eq, delete_id by exact Hid. destruct r; reflexivity.
  - unfold Room.RemoveParticipantByID. rewrite Hid. reflexivity.
Qed.

Lemma RemoveParticipantByID_undoes_repeated_adds_witness :
  Room.participantChannels
    (Room.AddParticipant (Room.AddParticipant ex_room (ex_participant "01PC" 2%nat))
       (ex_participant "01PC" 2%nat))
  = [0%nat; 1%nat; 2%nat; 2%nat] /\
  Room.RemoveParticipantByID
    (Room.AddParticipant (Room.AddParticipant ex_room (ex_participant "01PC" 2%nat))
       (ex_participant "01PC" 2%nat)) "01PC"
  = ex_room.
Proof.
  assert (Hnew : newcomer ex_room (ex_participant "01PC" 2%nat)).
  { split; [vm_compute; reflexivity|]. cbn. intros [H|[H|[]]]; discriminate H. }
  destruct (RemoveParticipantByID_undoes_repeated_adds ex_room (ex_participant "01PC" 2%nat)
              1 Hnew) as (Hslice & _ & Hback & _).
  split; [exact Hslice|exact Hback].
Defined.

(** What [BroadcastPacket] does to the queues of a slice of open channels. *)
Lemma BroadcastPacket_queues r f kind pkt :
  slice_open f (Room.participantChannels r) ->
  exists f' evs,
    Room.BroadcastPacket r f kind pkt = Done (f', evs) /\
    (forall ch c, chans f !! ch = Some c ->
       chans f' !! ch
       = Some (mkChan (buf c ++ replicate (took (Room.participantChannels r) ch c)
                                  (mkparticipantPacket kind (Some pkt)))
                 (cap c) (closed c))) /\
    (forall ch, chans f !! ch = None -> chans f' !! ch = None).
Proof.
  intros Hopen.
  destruct (BroadcastPacket_range_spec kind pkt (Room.participantChannels r) f Hopen)
    as (f' & evs & Hrun & _ & Hq & Hnone).
  exists f', evs. split; [|split; [exact Hq|exact Hnone]].
  unfold Room.BroadcastPacket.
  destruct (Room.participantChannels r) as [|ch0 rest]; exact Hrun.
Qed.

Lemma OnTrack_loop_queues setExtension r kind reads : forall f,
  slice_open f (Room.participantChannels r) ->
  exists f',
    OnTrack_loop setExtension r f kind reads = Done f' /\
    (forall ch c, chans f !! ch = Some c ->
       chans f' !! ch
       = Some (mkChan (buf c ++ take (cap c - length (buf c))
                                  (offered (Room.participantChannels r) ch kind
                                     (omap setExtension reads)))
                 (cap c) (closed c))) /\
    (forall ch, chans f !! ch = None -> chans f' !! ch = None).
Proof.
  induction reads as [|pkt rest IH]; intros f Hopen.
  - exists f. cbn. split; [reflexivity|]. split; [|auto].
    intros ch c Hc. rewrite take_nil, app_nil_r. destruct c; exact Hc.
  - cbn [OnTrack_loop omap list_omap]. destruct (setExtension pkt) as [stamped|].
    + destruct (BroadcastPacket_queues r f kind stamped Hopen) as (f1 & evs & -> & Hq1 & Hnone1).
      assert (Hopen1 : slice_open f1 (Room.participantChannels r)).
      { apply (slice_open_ext f); [|exact Hopen].
        intros ch c Hc. rewrite (Hq1 ch c Hc). eexists. split; reflexivity. }
      destruct (IH f1 Hopen1) as (f' & Hrun & Hq & Hnone).
      exists f'. split; [exact Hrun|]. split.
      * intros ch c Hc. rewrite (Hq ch _ (Hq1 ch c Hc)). cbn [buf cap closed].
        f_equal. f_equal. rewrite <- app_assoc. f_equal.
        unfold offered at 2. cbn [flat_map]. fold (offered (Room.participantChannels r) ch kind
                                                    (omap setExtension rest)).
        rewrite take_app, take_replicate, length_replicate, length_app, length_replicate.
        unfold took. rewrite (Nat.min_comm (cap c - length (buf c))).
        f_equal. f_equal. lia.
      * intros ch Hc. apply Hnone, Hnone1, Hc.
    + apply IH, Hopen.
Qed.

(** X13. [pc.OnTrack] of the push handler.  Recording the codec of
    the track changes that codec of the room and neither the slice nor
    the map.  The loop then, with the participants unchanged while it
    runs and every queue of the slice open, never blocks or panics; each
    queue takes the packets in the order they were read, stamped, one
    copy per entry of the slice that names it, until it is full, and
    loses the rest; a packet whose stamping fails is skipped; channels
    that are not in the slice are left alone. *)
Theorem OnTrack_fills_queues_in_order_and_drops_the_overflow :
  forall (setExtension : rtp_Packet -> option rtp_Packet) (r : Room.t) (f : Fanout)
         (kind : RTPCodecType) (codec : RTPCodecCapability) (reads : list rtp_Packet),
    slice_open f (Room.participantChannels r) ->
    let r1 := OnTrack_codec kind codec r in
    Room.participantChannels r1 = Room.participantChannels r /\
    Room.Participants r1 = Room.Participants r /\
    Room.AudioCodec r1
    = (match kind with RTPCodecTypeAudio => codec | _ => Room.AudioCodec r end) /\
    Room.VideoCodec r1
    = (match kind with RTPCodecTypeVideo => codec | _ => Room.VideoCodec r end) /\
    exists f',
      OnTrack_loop setExtension r1 f kind reads = Done f' /\
      (forall ch c, chans f !! ch = Some c ->
         chans f' !! ch
         = Some (mkChan (buf c ++ take (cap c - length (buf c))
                                    (offered (Room.participantChannels r) ch kind
                                       (omap setExtension reads)))
                   (cap c) (closed c))) /\
      (forall ch, chans f !! ch = None -> chans f' !! ch = None).
Proof.
  intros setExtension r f kind codec reads Hopen r1.
  assert (Hslice : Room.participantChannels r1 = Room.participantChannels r)
    by (unfold r1; destruct kind; reflexivity).
  split; [exact Hslice|].
  split; [unfold r1; destruct kind; reflexivity|].
  split; [unfold r1; destruct kind; reflexivity|].
  split; [unfold r1; destruct kind; reflexivity|].
  rewrite <- Hslice in Hopen |- *.
  exact (OnTrack_loop_queues setExtension r1 kind reads f Hopen).
Qed.

Lemma OnTrack_fills_queues_in_order_and_drops_the_overflow_witness :
  exists f',
    OnTrack_loop Some
      (OnTrack_codec RTPCodecTypeVideo (mkRTPCodecCapability "video/H264" 90000 0 "") ex_room)
      ex_fanout2 RTPCodecTypeVideo [ex_packet; ex_packet; ex_packet]
    = Done f' /\
    chans f' !! 0%nat
    = Some (mkChan [mkparticipantPacket RTPCodecTypeVideo (Some ex_packet);
                    mkparticipantPacket RTPCodecTypeVideo (Some ex_packet)] 2 false) /\
    chans f' !! 1%nat = Some (mkChan [ex_old] 1 false).
Proof.
  assert (Hopen : slice_open ex_fanout2 (Room.participantChannels ex_room)).
  { repeat constructor; eexists; split; reflexivity. }
  destruct (OnTrack_fills_queues_in_order_and_drops_the_overflow
              Some ex_room ex_fanout2 RTPCodecTypeVideo
              (mkRTPCodecCapability "video/H264" 90000 0 "")
              [ex_packet; ex_packet; ex_packet] Hopen)
    as (_ & _ & _ & _ & f' & Hrun & Hq & _).
  exists f'. split; [exact Hrun|]. split.
  - exact (Hq 0%nat (mkChan [] 2 false) eq_refl).
  - exact (Hq 1%nat (mkChan [ex_old] 1 false) eq_refl).
Defined.







(** X17. [Room.Close] closes the producer's data channel and peer
    connection and leaves the room offline and without data channel; it
    does not touch the participants or their queues; a second call
    changes nothing. *)
Theorem Room_Close_takes_the_room_offline_and_keeps_its_viewers :
  forall (r : Room.t) (pi : Pion),
    let '(r', pi') := Room.Close r pi in
    Room.IsOnline r' = false /\ Room.DataChannel r' = None /\
    Room.Participants r' = Room.Participants r /\
    Room.participantChannels r' = Room.participantChannels r /\
    Room.Close r' pi' = (r', pi') /\
    (forall pc st, Room.PeerConnection r = Some pc -> pcs pi !! pc = Some st ->
       pcs pi' !! pc
       = Some (mkPeerConnectionState (RemoteDescription st) (LocalDescription st) true)) /\
    (forall ndc st, Room.DataChannel r = Some ndc ->
       dcs pi !! NestriDataChannel.DataChannel ndc = Some st ->
       dcs pi' !! NestriDataChannel.DataChannel ndc
       = Some (mkDataChannelState true (dc_sent st))).
Proof.
  intros r pi. unfold Room.Close.
  destruct (Room.DataChannel r) as [ndc|] eqn:Hdc;
    destruct (Room.PeerConnection r) as [pc|] eqn:Hpc;
    cbn [Room.PeerConnection Room.set_DataChannel Room.set_PeerConnection Room.DataChannel
         Room.IsOnline Room.Participants Room.participantChannels];
    rewrite ?Hpc, ?Hdc;
    cbn [Room.PeerConnection Room.set_DataChannel Room.set_PeerConnection Room.DataChannel
         Room.IsOnline Room.Participants Room.participantChannels];
    rewrite ?Hpc, ?Hdc;
    (repeat split; try reflexivity; try discriminate).
  all: try (intros x st Hx Hst; inversion Hx; subst;
    unfold PeerConnection.Close, NestriDataChannel.Close, DataChannel.Close; cbn [pcs dcs];
    rewrite ?lookup_alter_eq, Hst; reflexivity).
  all: unfold Room.IsOnline; cbn [Room.PeerConnection Room.set_DataChannel]; rewrite Hpc;
    reflexivity.
Qed.

(** ** The connection callbacks *)

Lemma with_fields_id w :
  mkWorld (relay w) (pion w) (fanout w) (participants w) (servedConns w) (incomingConns w) = w.
Proof. destruct w; reflexivity. Qed.

(** X18. The state callback of a viewer.  When the connection is
    established the participant joins the room; when it is then lost the
    rooms are what they were before it joined, the participant's queue is
    closed with what it held, and every channel still in the slice is
    open, so that the next broadcast is safe; a further notification of a
    lost connection changes nothing. *)
Theorem viewer_connection_joins_then_leaves_the_room :
  forall (room : ULID) (p : Participant.t) (w : World) (r : Room.t) (c : Chan)
         (state : connection_state),
    room_at w room = Some r ->
    newcomer r p ->
    chans (fanout w) !! Participant.packetQueue p = Some c ->
    Participant.closeOnce p = false ->
    slice_open (fanout w) (Room.participantChannels r) ->
    connection_lost state = true ->
    let '(p1, w1) := request_onConnectionStateChange room p PeerConnectionStateConnected w in
    let '(p2, w2) := request_onConnectionStateChange room p1 state w1 in
    room_at w1 room = Some (Room.AddParticipant r p) /\
    relay w2 = relay w /\
    chans (fanout w2) !! Participant.packetQueue p = Some (mkChan (buf c) (cap c) true) /\
    slice_open (fanout w2) (Room.participantChannels r) /\
    request_onConnectionStateChange room p2 state w2 = (p2, w2).
Proof.
  intros room p w r c state Hroom [Hid Hq] Hc Honce Hopen Hlost.
  unfold request_onConnectionStateChange. rewrite Hlost. cbn [connection_lost].
  unfold room_at, update_room in *. cbn [relay with_relay Relay.LocalRooms Relay.ID].
  assert (Hback : Room.RemoveParticipantByID (Room.AddParticipant r p) (Participant.ID p) = r).
  { unfold Room.RemoveParticipantByID, Room.AddParticipant.
    cbn [Room.Participants Room.set_participants Room.participantChannels].
    rewrite lookup_insert_eq. unfold Room.set_participants. cbn.
    rewrite filter_out_appended by exact Hq.
    rewrite delete_insert_eq, delete_id by exact Hid. destruct r; reflexivity. }
  assert (Hrooms : alter (fun r0 => Room.RemoveParticipantByID r0 (Participant.ID p)) room
                     (alter (fun r0 => Room.AddParticipant r0 p) room
                        (Relay.LocalRooms (relay w)))
                   = Relay.LocalRooms (relay w)).
  { apply map_eq. intros i. destruct (decide (i = room)) as [->|Hne].
    - rewrite !lookup_alter_eq, Hroom. cbn. rewrite Hback. reflexivity.
    - rewrite !lookup_alter_ne by congruence. reflexivity. }
  unfold Participant.Close. rewrite Honce.
  cbn [fanout pion relay participants servedConns incomingConns with_relay
       Relay.LocalRooms Relay.ID
       Participant.closeOnce Participant.DataChannel Participant.PeerConnection
       Participant.packetQueue Participant.ID].
  rewrite Hrooms.
  split; [rewrite lookup_alter_eq, Hroom; reflexivity|].
  split; [destruct (relay w); reflexivity|].
  split; [unfold close_chan; cbn [chans]; rewrite lookup_alter_eq, Hc; reflexivity|].
  split.
  - unfold slice_open in *. rewrite List.Forall_forall in *. intros ch Hin.
    destruct (Hopen ch Hin) as (c0 & Hc0 & Hcl0). exists c0. split; [|exact Hcl0].
    unfold close_chan. cbn [chans]. rewrite lookup_alter_ne; [exact Hc0|].
    intros <-. exact (Hq Hin).
  - rewrite alter_id.
    + destruct (relay w) as [rid rooms]. reflexivity.
    + intros r0 Hr0. cbn [Relay.LocalRooms] in Hr0. rewrite Hroom in Hr0.
      inversion Hr0; subst r0. unfold Room.RemoveParticipantByID. rewrite Hid. reflexivity.
Qed.

Lemma viewer_connection_joins_then_leaves_the_room_witness :
  let '(p1, w1) := request_onConnectionStateChange "01ROOM" (ex_participant "01PC" 2%nat)
                     PeerConnectionStateConnected ex_world_viewers in
  let '(p2, w2) := request_onConnectionStateChange "01ROOM" p1
                     PeerConnectionStateDisconnected w1 in
  room_at w1 "01ROOM" = Some (Room.AddParticipant ex_room (ex_participant "01PC" 2%nat)) /\
  relay w2 = relay ex_world_viewers /\
  chans (fanout w2) !! 2%nat = Some (mkChan [] 1000 true) /\
  slice_open (fanout w2) (Room.participantChannels ex_room) /\
  request_onConnectionStateChange "01ROOM" p2 PeerConnectionStateDisconnected w2 = (p2, w2).
Proof.
  assert (Hnew : newcomer ex_room (ex_participant "01PC" 2%nat)).
  { split; [vm_compute; reflexivity|]. cbn. intros [H|[H|[]]]; discriminate H. }
  assert (Hopen : slice_open (fanout ex_world_viewers) (Room.participantChannels ex_room)).
  { repeat constructor; eexists; split; reflexivity. }
  exact (viewer_connection_joins_then_leaves_the_room "01ROOM" (ex_participant "01PC" 2%nat)
           ex_world_viewers ex_room (mkChan [] 1000 false) PeerConnectionStateDisconnected
           eq_refl Hnew eq_refl eq_refl Hopen eq_refl).
Defined.

(** X19. The [onClose] closure the request handler passes to
    [CreatePeerConnection] undoes the registration the handler made: for a peer that was not yet
    served in the room, registering its connection and then running
    [onClose] gives back [servedConns] as it was.  A table that the
    registration created is removed again rather than left empty. *)
Theorem served_onClose_undoes_the_registration :
  forall (w : World) (roomName : string) (remote : peer_ID) (conn : StreamConnection),
    (forall roomMap, servedConns w !! roomName = Some roomMap ->
                     roomMap <> ∅ /\ roomMap !! remote = None) ->
    let roomMap := match servedConns w !! roomName with
                   | Some m => m
                   | None => ∅
                   end in
    served_onClose roomName remote
      (with_servedConns w
         (<[roomName := <[remote := conn]> roomMap]> (servedConns w)))
    = w.
Proof.
  intros w roomName remote conn Hinv roomMap.
  unfold served_onClose. cbn [servedConns with_servedConns].
  rewrite lookup_insert_eq, delete_insert_eq.
  destruct (servedConns w !! roomName) as [m|] eqn:Hm; subst roomMap.
  - destruct (Hinv m eq_refl) as [Hne Hfree].
    rewrite (delete_id m remote Hfree).
    destruct (Nat.eqb_spec (size m) 0) as [Hz|_];
      [apply map_size_empty_iff in Hz; contradiction|].
    unfold with_servedConns. cbn.
    rewrite insert_insert_eq, (insert_id _ _ _ Hm). apply with_fields_id.
  - rewrite delete_id by apply lookup_empty. rewrite map_size_empty. cbn [Nat.eqb].
    unfold with_servedConns. cbn.
    rewrite delete_insert_eq, (delete_id _ _ Hm). apply with_fields_id.
Qed.

Lemma served_onClose_undoes_the_registration_witness :
  served_onClose "alpha" "peerC"
    (with_servedConns ex_world_viewers
       (<["alpha" := <["peerC" := mkStreamConnection 0%nat None]> ∅]> ∅))
  = ex_world_viewers.
Proof.
  refine (served_onClose_undoes_the_registration ex_world_viewers "alpha" "peerC"
            (mkStreamConnection 0%nat None) _).
  intros roomMap H. discriminate H.
Defined.

(** X20. The state callback of a producer's connection.  A lost
    connection is closed and the room's entry leaves [incomingConns], but
    no room changes: the room still points to the closed connection and
    [IsOnline] still answers true.  Any other state changes nothing. *)
Theorem lost_producer_connection_leaves_the_room_online :
  forall (room : ULID) (pc : pc_ref) (state : connection_state) (w : World) (r : Room.t),
    room_at w room = Some r ->
    Room.PeerConnection r = Some pc ->
    let w' := CreatePeerConnection_onConnectionStateChange pc (incoming_onClose room) state w in
    if connection_lost state then
      relay w' = relay w /\
      Room.IsOnline r = true /\
      incomingConns w' = delete (Room.Name r) (incomingConns w) /\
      pion w' = PeerConnection.Close (pion w) pc
    else w' = w.
Proof.
  intros room pc state w r Hroom Hpc w'. subst w'.
  unfold CreatePeerConnection_onConnectionStateChange.
  destruct (connection_lost state); [|reflexivity].
  unfold incoming_onClose, room_at in *. cbn [relay with_pion]. rewrite Hroom.
  unfold Room.IsOnline. rewrite Hpc. repeat split.
Qed.

Lemma lost_producer_connection_leaves_the_room_online_witness :
  let w' := CreatePeerConnection_onConnectionStateChange 0%nat (incoming_onClose "01ROOM")
              PeerConnectionStateFailed ex_world_online in
  relay w' = relay ex_world_online /\
  Room.IsOnline (Room.set_PeerConnection (Room.NewRoom "alpha" "01ROOM" "relay-1") (Some 0%nat))
  = true /\
  incomingConns w' = delete "alpha" (incomingConns ex_world_online) /\
  pion w' = PeerConnection.Close (pion ex_world_online) 0%nat.
Proof.
  exact (lost_producer_connection_leaves_the_room_online "01ROOM" 0%nat
           PeerConnectionStateFailed ex_world_online _ eq_refl eq_refl).
Defined.

(** ** Frames between relays and the ends of a stream *)

(** X21. A gathered candidate crosses the mesh unchanged but for its
    username fragment.  The frame [pc.OnICECandidate] sends for a
    candidate is read back by either handler as the same candidate
    string, media id and line index, with no username fragment, and
    handed to the helper.  The push side's callback sends the same frame
    when the candidate has a line index. *)
Theorem ice_candidate_frame_carries_the_candidate :
  forall (now : Z) (c : ICECandidateInit) (s : Stream) (env : Env)
         (rl : StreamProtocol.request_locals) (pl : StreamProtocol.push_locals)
         (w : World) (s2 : Stream),
    (forall idx, SDPMLineIndex c = Some idx -> 0 <= idx < 2 ^ 16) ->
    let relayed := mkICECandidateInit (ci_Candidate c) (SDPMid c) (SDPMLineIndex c) None in
    exists m,
      out (request_onICECandidate now (Some c) s) = (out s ++ [m])%list /\
      StreamProtocol.handleStreamRequest_iteration env (Received m) rl w s2
      = (let '(ice', p') := ICEHelper.AddCandidate (StreamProtocol.request_iceHelper rl)
                              (pion w) relayed in
         Continue (StreamProtocol.mkrequest_locals (StreamProtocol.currentRoomName rl) ice')
           (with_pion w p') s2) /\
      (SDPMLineIndex c <> None ->
       push_onICECandidate now (Some c) s = Done (request_onICECandidate now (Some c) s) /\
       StreamProtocol.handleStreamPush_iteration env (Received m) pl w s2
       = (let '(ice', p') := ICEHelper.AddCandidate (StreamProtocol.push_iceHelper pl)
                               (pion w) relayed in
          Continue (StreamProtocol.mkpush_locals (StreamProtocol.room pl) ice')
            (with_pion w p') s2)).
Proof.
  intros now c s env rl pl w s2 Hidx relayed.
  unfold request_onICECandidate, push_onICECandidate, ice_candidate_frame.
  cbn [CreateMessage Stream_SendProto snd out].
  eexists. split; [reflexivity|].
  unfold StreamProtocol.handleStreamRequest_iteration, StreamProtocol.handleStreamPush_iteration,
    StreamProtocol.request_ice_candidate, StreamProtocol.push_ice_candidate.
  cbn [MessageBase PayloadType GetIce payload ice_Candidate Candidate SdpMid SdpMLineIndex
       UsernameFragment].
  assert (Hdec1 : bool_decide ("ice-candidate" = "request-stream-room") = false) by reflexivity.
  assert (Hdec2 : bool_decide ("ice-candidate" = "push-stream-room") = false) by reflexivity.
  assert (Hdec3 : bool_decide ("ice-candidate" = "ice-candidate") = true) by reflexivity.
  rewrite Hdec1, Hdec2, Hdec3. clear Hdec1 Hdec2 Hdec3.
  assert (Hcand : forall idx, SDPMLineIndex c = Some idx -> uint16 (idx mod 2 ^ 32) = idx).
  { intros idx Hi. specialize (Hidx idx Hi). unfold uint16.
    rewrite (Z.mod_small idx (2 ^ 32)) by lia. apply Z.mod_small. lia. }
  unfold relayed. destruct (SDPMLineIndex c) as [idx|] eqn:Hi.
  - rewrite (Hcand idx eq_refl). split; [reflexivity|]. intros _. split; reflexivity.
  - split; [reflexivity|]. intros Hne. contradiction Hne. reflexivity.
Qed.

Lemma ice_candidate_frame_carries_the_candidate_witness :
  exists m,
    out (request_onICECandidate 0 (Some ex_candidate) ex_stream) = [m] /\
    StreamProtocol.handleStreamRequest_iteration ex_env (Received m)
      (StreamProtocol.mkrequest_locals "alpha" (ICEHelper.NewICEHelper (Some 0%nat)))
      (with_pion ex_world ex_pion1) ex_stream
    = Continue
        (StreamProtocol.mkrequest_locals "alpha" (ICEHelper.mk [ex_candidate] (Some 0%nat)))
        (with_pion ex_world ex_pion1) ex_stream.
Proof.
  destruct (ice_candidate_frame_carries_the_candidate 0 ex_candidate ex_stream ex_env
              (StreamProtocol.mkrequest_locals "alpha" (ICEHelper.NewICEHelper (Some 0%nat)))
              StreamProtocol.push_init (with_pion ex_world ex_pion1) ex_stream)
    as (m & Hout & Hreq & _).
  - intros idx Hi. inversion Hi; subst. lia.
  - exists m. split; [exact Hout|exact Hreq].
Defined.

Lemma Room_Close_room r pi :
  Room.IsOnline (fst (Room.Close r pi)) = false /\
  Room.Participants (fst (Room.Close r pi)) = Room.Participants r /\
  Room.participantChannels (fst (Room.Close r pi)) = Room.participantChannels r.
Proof.
  destruct r as [id name owner ac vc pc dc chs ps].
  unfold Room.Close, Room.IsOnline. cbn.
  destruct dc; destruct pc; cbn; repeat split; reflexivity.
Qed.

(** X22. The end of a push stream.  On any read error the push
    handler returns; it resets the stream unless the error is [io.EOF] or
    a reset by the peer.  When a room is bound, that room is closed and
    goes offline and its entry leaves [incomingConns]; its participants
    and their queues, the served connections and every other room are as
    before. *)
Theorem end_of_push_stream_takes_the_room_offline :
  forall (env : Env) (err : io_error) (l : StreamProtocol.push_locals) (w : World)
         (s : Stream) (ref : ULID) (r : Room.t),
    StreamProtocol.room l = Some ref ->
    room_at w ref = Some r ->
    exists w',
      StreamProtocol.handleStreamPush_iteration env (ReceiveError err) l w s
      = Return w' (match err with EOF | ErrReset => s | _ => Stream_Reset s end) /\
      room_at w' ref = Some (fst (Room.Close r (pion w))) /\
      Room.IsOnline (fst (Room.Close r (pion w))) = false /\
      Room.Participants (fst (Room.Close r (pion w))) = Room.Participants r /\
      Room.participantChannels (fst (Room.Close r (pion w))) = Room.participantChannels r /\
      pion w' = snd (Room.Close r (pion w)) /\
      incomingConns w' = delete (Room.Name r) (incomingConns w) /\
      servedConns w' = servedConns w /\
      fanout w' = fanout w /\
      (forall other, other <> ref -> room_at w' other = room_at w other).
Proof.
  intros env err l w s ref r Hroom Hat.
  exists (StreamProtocol.push_cleanup l w). split; [destruct err; reflexivity|].
  unfold StreamProtocol.push_cleanup. rewrite Hroom, Hat.
  destruct (Room_Close_room r (pion w)) as (Hoff & Hps & Hchs).
  destruct (Room.Close r (pion w)) as [r' p']. cbn [fst snd] in *.
  unfold room_at, update_room in *.
  cbn [relay with_relay with_pion with_incomingConns Relay.LocalRooms pion incomingConns
       servedConns fanout].
  rewrite lookup_alter_eq, Hat. cbn [fmap option_fmap option_map].
  split; [reflexivity|]. repeat split; try assumption.
  intros other Hne. rewrite lookup_alter_ne by congruence. reflexivity.
Qed.

Lemma end_of_push_stream_takes_the_room_offline_witness :
  exists w',
    StreamProtocol.handleStreamPush_iteration ex_env (ReceiveError ErrUnexpectedEOF)
      (StreamProtocol.mkpush_locals (Some "01ROOM") (ICEHelper.NewICEHelper (Some 0%nat)))
      ex_world_online ex_stream
    = Return w' (Stream_Reset ex_stream) /\
    (Room.IsOnline <$> room_at w' "01ROOM") = Some false /\
    incomingConns w' = delete "alpha" (incomingConns ex_world_online).
Proof.
  destruct (end_of_push_stream_takes_the_room_offline ex_env ErrUnexpectedEOF
              (StreamProtocol.mkpush_locals (Some "01ROOM") (ICEHelper.NewICEHelper (Some 0%nat)))
              ex_world_online ex_stream "01ROOM"
              (Room.set_PeerConnection (Room.NewRoom "alpha" "01ROOM" "relay-1") (Some 0%nat))
              eq_refl eq_refl)
    as (w' & Hrun & Hat & Hoff & _ & _ & _ & Hin & _).
  exists w'. split; [exact Hrun|]. split; [|exact Hin].
  rewrite Hat. cbn [fmap option_fmap option_map]. rewrite Hoff. reflexivity.
Defined.



(** ** What the handlers send and what they never close *)































